(** * Well-log analytics core: a shallow embedding and its properties

    The Python sources under [backend/app] are embedded function by
    function, under the names they have there, one module per source
    file.

    - A Python [float] is an IEEE 754 binary64 value: Rocq's primitive
      [float], whose operations the kernel computes and whose
      specification ([Prim2SF], [SFadd], [SFcompare], ...) the general
      theorems use.  [x >= y] is written [y <=? x].
    - [None] is [option]; a [dict] is a [gmap], or the list of its items
      where the value is returned as JSON; a [list] is a [list].
    - An operation that can raise returns a [result]: a division by a
      float, an index, [int()] of a float, [min] and [max] of a sequence,
      [math.sqrt], an HTTP error of a handler.  A division by [len(l)]
      under a test that [l] is not empty, or by a literal, is written as
      the plain quotient.
    - Strings are taken over the ASCII range ([upper] maps a-z only).
    - The stores behind the session are lists of rows; [ORDER BY depth] is
      a stable sort of them, and the statements about the rows of a query
      hold for any order of the rows of equal depth.

    Part I holds the definitions, Part II the facts about floats, sorting
    and sampling, Part III the properties of the program, Part IV more
    properties of the routers and the services. *)

From Stdlib Require Import ZArith Floats Lia Bool Ascii.
From stdpp Require Import base option list gmap strings sorting pretty.

Set Warnings "-inexact-float,-register-all,-abstract-large-number,-clear-no-such-hyp".

(* ================================================================= *)
(** * Part I: definitions *)
(* ================================================================= *)

(** ** Exceptions *)

Inductive exn :=
  | ZeroDivisionError
  | IndexError
  | ValueError
  | OverflowError
  | HTTPException (status_code : Z) (detail : string).

Inductive result (A : Type) :=
  | Ok (a : A)
  | Raise (e : exn).
Arguments Ok {A} a.
Arguments Raise {A} e.

#[global] Instance result_ret : MRet result := fun A a => Ok a.
#[global] Instance result_bind : MBind result :=
  fun A B f m => match m with Ok a => f a | Raise e => Raise e end.

(** ** The Python builtins the sources use *)

Module py.

(** [x != x] *)
Definition is_nan (x : float) : bool := negb (x =? x)%float.

(** [float(n)] for an [int]: the nearest binary64 value. *)
Definition float_of_Z (z : Z) : float :=
  SF2Prim (binary_normalize prec emax z 0 false).

Definition float_of_nat (n : nat) : float := float_of_Z (Z.of_nat n).

(** [x / y] on floats raises on a zero divisor. *)
Definition truediv (x y : float) : result float :=
  if (y =? 0)%float then Raise ZeroDivisionError else Ok (x / y)%float.

(** [int(x)]: truncation toward zero. *)
Definition int (x : float) : result Z :=
  match Prim2SF x with
  | S754_zero _ => Ok 0%Z
  | S754_finite s m e =>
      let a := Z.shiftl (Z.pos m) e in Ok (if s then (- a)%Z else a)
  | S754_infinity _ => Raise OverflowError
  | S754_nan => Raise ValueError
  end.

(** [max(a, b)] keeps [a] unless [b > a]; [min(a, b)] keeps [a] unless
    [b < a]. *)
Definition max2 (a b : float) : float := if (a <? b)%float then b else a.
Definition min2 (a b : float) : float := if (b <? a)%float then b else a.
Definition max3 (a b c : float) : float := max2 (max2 a b) c.

(** [max(l)] and [min(l)] over a sequence: [ValueError] when empty. *)
Definition max_list (l : list float) : result float :=
  match l with
  | [] => Raise ValueError
  | x :: l' => Ok (foldl max2 x l')
  end.

Definition min_list (l : list float) : result float :=
  match l with
  | [] => Raise ValueError
  | x :: l' => Ok (foldl min2 x l')
  end.

(** [sum(l)]: left-to-right float additions from [0].  (CPython 3.12 adds
    a compensation term.  The general properties below do not depend on
    how a sum rounds, and the evaluated ones are on inputs where the two
    sums agree.) *)
Definition sum (l : list float) : float := foldl PrimFloat.add 0%float l.

(** [l[i]] with Python's negative indices. *)
Definition index {A} (l : list A) (i : Z) : result A :=
  let n := Z.of_nat (length l) in
  let j := if (i <? 0)%Z then (i + n)%Z else i in
  if (j <? 0)%Z then Raise IndexError
  else match l !! Z.to_nat j with
       | Some x => Ok x
       | None => Raise IndexError
       end.

(** [l[-w:]] *)
Definition last_n {A} (w : nat) (l : list A) : list A :=
  match w with
  | O => l
  | _ => drop (length l - w) l
  end.

(** [l[::k]] for a step [k >= 1]. *)
Fixpoint stride_from {A} (k skip : nat) (l : list A) : list A :=
  match l with
  | [] => []
  | x :: l' =>
      match skip with
      | O => x :: stride_from k (k - 1) l'
      | S s => stride_from k s l'
      end
  end.

Definition every_nth {A} (k : nat) (l : list A) : list A := stride_from k 0 l.

(** [sorted(l)] is stable and only ever asks [<]; [lt a b] says that [a]
    must come before [b].  Insertion from the right is stable, and every
    stable sort agrees with it when [lt] is a strict weak order. *)
Fixpoint insert_sorted {A} (lt : A → A → bool) (x : A) (l : list A) : list A :=
  match l with
  | [] => [x]
  | y :: l' => if lt y x then y :: insert_sorted lt x l' else x :: l
  end.

Definition sorted {A} (lt : A → A → bool) (l : list A) : list A :=
  foldr (insert_sorted lt) [] l.

(** [sorted(l, key=k, reverse=True)] on float keys. *)
Definition sorted_desc_by {A} (k : A → float) (l : list A) : list A :=
  sorted (fun a b => (k b <? k a)%float) l.

(** [math.sqrt(x)]: a domain error on negative input. *)
Definition sqrt (x : float) : result float :=
  if (x <? 0)%float then Raise ValueError else Ok (PrimFloat.sqrt x).

(** [x ** 2], which is [pow(x, 2.0)] of the C library; taken as the
    correctly rounded square.  Python raises [OverflowError] where the
    square of a finite [x] is out of range: the statements that rest on
    [pow2] are for values whose squares are exact or in range. *)
Definition pow2 (x : float) : float := (x * x)%float.

(** [x or 0.0] for an optional float: [None] and both zeros are falsy. *)
Definition or_zero (x : option float) : float :=
  match x with
  | Some v => if (v =? 0)%float then 0%float else v
  | None => 0%float
  end.

(** [round(x, ndigits)] for [0 <= ndigits]: the decimal nearest to the
    exact value of [x] at that many places (ties to the even digit),
    converted back to the nearest float; infinities and NaN are kept. *)
Definition round_half_even_div (num den : Z) : Z :=
  let q := (num / den)%Z in
  let r := (num mod den)%Z in
  match (2 * r ?= den)%Z with
  | Lt => q
  | Gt => (q + 1)%Z
  | Eq => if Z.even q then q else (q + 1)%Z
  end.

Definition round (x : float) (ndigits : Z) : float :=
  match Prim2SF x with
  | S754_finite s m e =>
      let scale := (10 ^ ndigits)%Z in
      let num := (Z.pos m * scale * 2 ^ Z.max e 0)%Z in
      let den := (2 ^ Z.max (- e) 0)%Z in
      match round_half_even_div num den with
      | Z.pos n =>
          SF2Prim (SFdiv prec emax (S754_finite s n 0)
                     (S754_finite false (Z.to_pos scale) 0))
      | _ => SF2Prim (S754_zero s)
      end
  | _ => x
  end.

(** *** Strings (code points in the ASCII range) *)

Definition upper_ascii (c : ascii) : ascii :=
  let n := nat_of_ascii c in
  if (97 <=? n)%nat && (n <=? 122)%nat then ascii_of_nat (n - 32) else c.

(** [s.upper()] *)
Fixpoint upper (s : string) : string :=
  match s with
  | EmptyString => EmptyString
  | String c s' => String (upper_ascii c) (upper s')
  end.

(** [needle in hay] *)
Fixpoint contains (needle hay : string) : bool :=
  String.prefix needle hay ||
  match hay with
  | EmptyString => false
  | String _ hay' => contains needle hay'
  end.

(** [s.startswith(p)] *)
Definition startswith (s p : string) : bool := String.prefix p s.

(** [sep.join(l)] *)
Fixpoint join (sep : string) (l : list string) : string :=
  match l with
  | [] => EmptyString
  | [x] => x
  | x :: l' => x +:+ sep +:+ join sep l'
  end.

(** [re.sub] deleting every character outside [A-Z0-9] *)
Definition is_upper_alnum (c : ascii) : bool :=
  let n := nat_of_ascii c in
  ((65 <=? n)%nat && (n <=? 90)%nat) || ((48 <=? n)%nat && (n <=? 57)%nat).

Fixpoint keep_upper_alnum (s : string) : string :=
  match s with
  | EmptyString => EmptyString
  | String c s' =>
      if is_upper_alnum c then String c (keep_upper_alnum s')
      else keep_upper_alnum s'
  end.

(** [range(0, stop, step)] for a step [>= 1]. *)
Definition range_step (stop step : nat) : list nat :=
  (λ k, k * step) <$> seq 0 ((stop + (step - 1)) / step).

(** The operand of [x or y] that decides it, for an optional string:
    [None] and the empty string are falsy. *)
Definition truthy (x : option string) : option string :=
  x ≫= λ s, if String.eqb s EmptyString then None else Some s.

(** [x or y] for an optional float: [None] and the zeros are falsy. *)
Definition or_float (x : option float) (y : float) : float :=
  match x with
  | Some v => if (v =? 0)%float then y else v
  | None => y
  end.

(** The characters [s.strip()] removes. *)
Definition is_space (c : ascii) : bool :=
  let n := nat_of_ascii c in
  ((9 <=? n)%nat && (n <=? 13)%nat) || ((28 <=? n)%nat && (n <=? 32)%nat).

Fixpoint lstrip (s : string) : string :=
  match s with
  | EmptyString => EmptyString
  | String c s' => if is_space c then lstrip s' else s
  end.

Fixpoint rstrip (s : string) : string :=
  match s with
  | EmptyString => EmptyString
  | String c s' =>
      match rstrip s' with
      | EmptyString => if is_space c then EmptyString else String c EmptyString
      | r => String c r
      end
  end.

(** [s.strip()] *)
Definition strip (s : string) : string := rstrip (lstrip s).

(** [s.split(sep)] for a separator of one character. *)
Fixpoint split (sep : ascii) (s : string) : list string :=
  match s with
  | EmptyString => [EmptyString]
  | String c s' =>
      if Ascii.eqb c sep then EmptyString :: split sep s'
      else match split sep s' with
           | piece :: pieces => String c piece :: pieces
           | [] => [String c EmptyString]
           end
  end.

(** [s.replace("\r\n", "\n")] *)
Fixpoint replace_crlf (s : string) : string :=
  match s with
  | EmptyString => EmptyString
  | String c s' =>
      match s' with
      | String d s'' =>
          if Ascii.eqb c "013" && Ascii.eqb d "010"
          then String "010" (replace_crlf s'')
          else String c (replace_crlf s')
      | EmptyString => String c EmptyString
      end
  end.

(** [re.sub] of a pattern [[class]{n,}]: every maximal run of at least [n]
    characters of the class [p] is replaced by [repl]; [pending] is the
    run being read. *)
Fixpoint sub_runs (p : ascii → bool) (n : nat) (repl : string)
    (pending : string) (s : string) : string :=
  let flush := if (n <=? String.length pending)%nat then repl else pending in
  match s with
  | EmptyString => flush
  | String c s' =>
      if p c then sub_runs p n repl (pending +:+ String c EmptyString) s'
      else flush +:+ String c (sub_runs p n repl EmptyString s')
  end.

End py.

(** ** models.py *)

Module models.

(** The columns of [Well], [Curve] and [WellData] that the core reads. *)
Record Well := {
  well_id : Z;
  well_name : string;
  start_depth : float;
  stop_depth : float;
  depth_unit : string;
}.

Record Curve := {
  curve_well_id : Z;
  mnemonic : string;
}.

Record WellData := {
  data_well_id : Z;
  depth : float;
  values : gmap string (option float);
}.

End models.

(** ** services/las_parser.py *)

Module las_parser.

(** What [lasio] hands to [parse_las_file]: the curve items of the
    header, the [NULL] value when the header has one, and the frame of
    [las.df().reset_index()] as its column names and its records. *)
Record CurveItem := {
  item_mnemonic : string;
  item_unit : string;
  item_descr : string;
}.

Record LASFile := {
  well_NULL : option float;
  las_curves : list CurveItem;
  df_columns : list string;
  df_records : list (gmap string float);
}.

(** The parsed curve entries (the category lookup plays no part in the
    sample matrix and is left out). *)
Record curve_entry := {
  mnemonic : string;
  unit : string;
  description : string;
}.

Record data_row := {
  depth : float;
  values : gmap string (option float);
}.

Record parsed := {
  null_value : float;
  curves : list curve_entry;
  data_rows : list data_row;
}.

(** [_get_header_float(las, "NULL", -9999.0)] *)
Definition header_null (las : LASFile) : float := default (-9999.0)%float (well_NULL las).

Definition extract_curves (las : LASFile) : list curve_entry :=
  let depth_mnemonic :=
    match las_curves las with
    | c :: _ => item_mnemonic c
    | [] => "DEPT"
    end in
  omap (λ curve,
          if String.eqb (item_mnemonic curve) depth_mnemonic then None
          else Some {| mnemonic := item_mnemonic curve;
                       unit := if String.eqb (item_unit curve) EmptyString then "UNKN"
                               else item_unit curve;
                       description := item_descr curve |})
       (las_curves las).

(** One cell of [df.replace({math.nan: None, null_val: None})]. *)
Definition replace_cell (null_val v : float) : option float :=
  if py.is_nan v || (v =? null_val)%float then None else Some v.

(** [row.get(col)] on a record of the replaced frame. *)
Definition row_get (null_val : float) (row : gmap string float) (col : string)
    : option float :=
  row !! col ≫= replace_cell null_val.

(** The [values] dict built for one record. *)
Definition build_values (null_val : float) (curve_mnemonics : list string)
    (row : gmap string float) : gmap string (option float) :=
  foldl (λ values mn,
           <[mn := (λ val, py.round val 4) <$> row_get null_val row mn]> values)
        ∅ curve_mnemonics.

(** One turn of the loop over [records]: [None] stands for [continue]. *)
Definition convert_record (null_val : float) (depth_col : string)
    (curve_mnemonics : list string) (row : gmap string float) : option data_row :=
  match row_get null_val row depth_col with
  | None => None
  | Some depth =>
      Some {| depth := py.round depth 4;
              values := build_values null_val curve_mnemonics row |}
  end.

Definition parse_las_file (las : LASFile) : result parsed :=
  let null_val := header_null las in
  let curves := extract_curves las in
  depth_col ← py.index (df_columns las) 0;
  let curve_mnemonics := map mnemonic curves in
  Ok {| null_value := null_val;
        curves := curves;
        data_rows :=
          omap (convert_record null_val depth_col curve_mnemonics)
               (df_records las) |}.

(** The items of [CURVE_CATEGORIES], in the order of the literal. *)
Definition CURVE_CATEGORIES_items : list (string * string) :=
  [
    ("HC1", "Hydrocarbons"); ("HC2", "Hydrocarbons"); ("HC3", "Hydrocarbons");
    ("HC4", "Hydrocarbons"); ("HC5", "Hydrocarbons"); ("HC6", "Hydrocarbons");
    ("HC7", "Hydrocarbons"); ("HC8", "Hydrocarbons"); ("HC9", "Hydrocarbons");
    ("HC10", "Hydrocarbons"); ("TOTAL_GAS", "Hydrocarbons");
    ("RAW_NAPH", "Hydrocarbons"); ("nC4", "Hydrocarbons"); ("nC6", "Hydrocarbons");
    ("cC6", "Hydrocarbons"); ("NormC1", "Normalized"); ("NormC4", "Normalized");
    ("NormC7", "Normalized"); ("NormBen_Tol", "Normalized"); ("NormBen", "Normalized");
    ("NormTol", "Normalized"); ("NormHe", "Normalized"); ("NormH", "Normalized");
    ("NormCO2", "Normalized"); ("NormCO2pp", "Normalized"); ("NormN2", "Normalized");
    ("NormO2", "Normalized"); ("NormAr", "Normalized"); ("PIX1", "Pixler Ratios");
    ("PIX2", "Pixler Ratios"); ("PIX3", "Pixler Ratios"); ("PIX4", "Pixler Ratios");
    ("Para", "Composition"); ("Naph", "Composition"); ("Arom", "Composition");
    ("Ben_Tol", "Composition"); ("Benzene", "Aromatics"); ("Toluene", "Aromatics");
    ("Xylene", "Aromatics"); ("TotalArom", "Aromatics"); ("Arom_cHex", "Aromatics");
    ("Arom_Alk", "Aromatics"); ("Helium", "Atmospheric"); ("Hydrogen", "Atmospheric");
    ("CO2Raw", "Atmospheric"); ("CO2pp", "Atmospheric"); ("CO2calc2", "Atmospheric");
    ("N2", "Atmospheric"); ("O2", "Atmospheric"); ("Ar", "Atmospheric");
    ("H2O", "Atmospheric"); ("Air1", "Atmospheric"); ("Air2", "Atmospheric");
    ("SO", "Sulfur"); ("SO2", "Sulfur"); ("CS2", "Sulfur"); ("Sulf_HC", "Sulfur");
    ("C3_C1", "Ratios"); ("C3_C2", "Ratios"); ("C5_C1", "Ratios"); ("nC4_C1", "Ratios");
    ("C1_THC", "Ratios"); ("G_L", "Ratios"); ("HCvsW", "Ratios"); ("Ben_C1", "Ratios");
    ("Ben_cHex", "Ratios"); ("Ben_cC6", "Ratios"); ("Ben_nC6", "Ratios");
    ("AA_nC4", "Ratios"); ("He_C1", "Ratios"); ("CO2_C1", "Ratios");
    ("Tol_nC7", "Ratios"); ("HC2_HC1", "Ratios"); ("HC3_HC1", "Ratios");
    ("HC5_HC3", "Ratios"); ("HC7_HC3", "Ratios"); ("Permratio", "Ratios");
    ("GO", "Ratios"); ("GR", "Petrophysics"); ("GAMMA", "Petrophysics");
    ("NPHI", "Petrophysics"); ("RHOB", "Petrophysics"); ("DPHI", "Petrophysics");
    ("DT", "Petrophysics"); ("ILD", "Resistivity"); ("ILM", "Resistivity");
    ("LLD", "Resistivity"); ("LLS", "Resistivity"); ("SFLU", "Resistivity");
    ("RES", "Resistivity"); ("CALI", "Drilling"); ("CAL", "Drilling");
    ("BS", "Drilling"); ("SP", "Petrophysics"); ("PEF", "Petrophysics");
    ("Wh_calc", "Calculated"); ("Bh_calc", "Calculated"); ("Ch_calc", "Calculated");
    ("C2calc", "Calculated"); ("MZ34", "Calculated"); ("Percent_Gas", "Calculated");
    ("AceticAcid", "Calculated"); ("ROP(min/ft)", "Drilling");
    ("ROP(ft/hr)", "Drilling"); ("ROP", "Drilling"); ("BIT", "Drilling");
    ("RPM", "Drilling"); ("WOB", "Drilling"); ("TQR", "Drilling");
    ("OBMC3", "OBM Corrections"); ("OBMC4", "OBM Corrections");
    ("OBMC5", "OBM Corrections"); ("OBMC6", "OBM Corrections");
    ("OBMC7", "OBM Corrections"); ("OBMC8", "OBM Corrections");
    ("OBMC9", "OBM Corrections"); ("Atm", "Atmosphere Ratios");
    ("Atm_TOT", "Atmosphere Ratios"); ("Atm_NormTOT", "Atmosphere Ratios");
    ("N_Atm", "Atmosphere Ratios"); ("O_Atm", "Atmosphere Ratios");
    ("Ar_Atm", "Atmosphere Ratios"); ("TL", "Other"); ("HC", "Other");
    ("ExtSen1", "Other"); ("ExtSen2", "Other"); ("Time", "Other"); ("Depth", "Index");
    ("DEPT", "Index")
  ].

Definition CURVE_CATEGORIES : gmap string string :=
  foldl (λ d kv, <[kv.1 := kv.2]> d) ∅ CURVE_CATEGORIES_items.

(** [{k.upper(): v for k, v in CURVE_CATEGORIES.items()}] *)
Definition _CURVE_CATEGORIES_UPPER : gmap string string :=
  foldl (λ d kv, <[py.upper kv.1 := kv.2]> d) ∅ CURVE_CATEGORIES_items.

Definition categorize_curve (mnemonic : string) : string :=
  match py.truthy (CURVE_CATEGORIES !! mnemonic) with
  | Some category => category
  | None =>
      match py.truthy (_CURVE_CATEGORIES_UPPER !! py.upper mnemonic) with
      | Some category => category
      | None => "Other"
      end
  end.

End las_parser.

(** ** services/data_service.py *)

Module data_service.
Import models.

(** A row of the result of [get_well_data]: the key ["depth"] and one key
    per requested curve. *)
Abbreviation point := (gmap string (option float)).

Record curve_stats := {
  s_min : option float;
  s_max : option float;
  s_mean : option float;
  s_count : nat;
  s_non_null_count : nat;
}.

(** The query: the rows of the well inside the bounds, by depth.  The
    comparisons are those of binary64 and the order is that of a stable
    sort.  The store agrees on both for depths and bounds that are
    numbers; it ranks a NaN above every number, and it fixes no order
    among rows of equal depth, so the statements about the rows of a
    query are for such depths and bounds and never rest on the order of
    rows of equal depth. *)
Definition query_rows (table : list WellData) (well : Z)
    (depth_min depth_max : option float) : list WellData :=
  let q := filter (λ row, data_well_id row = well) table in
  let q := match depth_min with
           | Some lo => filter (λ row, (lo <=? depth row)%float = true) q
           | None => q
           end in
  let q := match depth_max with
           | Some hi => filter (λ row, (depth row <=? hi)%float = true) q
           | None => q
           end in
  py.sorted (λ a b, (depth a <? depth b)%float) q.

Definition make_point (curves : list string) (row : WellData) : point :=
  foldl (λ pt curve, <[curve := mjoin (values row !! curve)]> pt)
        {["depth" := Some (depth row)]} curves.

Definition get_well_data (table : list WellData) (well : Z)
    (curves : list string) (depth_min depth_max : option float) : list point :=
  map (make_point curves) (query_rows table well depth_min depth_max).

(** [p.get(curve)] *)
Definition point_get (p : point) (key : string) : option float := mjoin (p !! key).

(** The entry computed for one curve. *)
Definition curve_statistics (data : list point) (curve : string) : curve_stats :=
  let values := omap (λ p, point_get p curve) data in
  match values with
  | v :: vs =>
      {| s_min := Some (py.round (foldl py.min2 v vs) 4);
         s_max := Some (py.round (foldl py.max2 v vs) 4);
         s_mean := Some (py.round (py.sum values / py.float_of_nat (length values)) 4);
         s_count := length data;
         s_non_null_count := length values |}
  | [] =>
      {| s_min := None; s_max := None; s_mean := None;
         s_count := length data; s_non_null_count := 0 |}
  end.

Definition get_well_statistics (table : list WellData) (well : Z)
    (curves : list string) (depth_min depth_max : option float)
    : gmap string curve_stats :=
  let data := get_well_data table well curves depth_min depth_max in
  foldl (λ stats curve, <[curve := curve_statistics data curve]> stats) ∅ curves.

(** *** Storing a parsed file *)

(** The state behind the session [db]: the three tables and the sequence
    that numbers the wells. *)
Record session := {
  db_wells : list Well;
  db_curves : list Curve;
  db_well_data : list WellData;
  wells_id_seq : Z;
}.

(** The entries of [parsed["well_info"]] that reach the columns of
    [models.Well]. *)
Record well_info := {
  info_well_name : string;
  info_start_depth : float;
  info_stop_depth : float;
  info_depth_unit : string;
}.

(** [db.delete(well)]: the relationships of [Well] cascade to its curves
    and its data rows. *)
Definition db_delete (db : session) (well : Well) : session :=
  {| db_wells := filter (λ w, well_id w ≠ well_id well) (db_wells db);
     db_curves := filter (λ c, curve_well_id c ≠ well_id well) (db_curves db);
     db_well_data := filter (λ row, data_well_id row ≠ well_id well) (db_well_data db);
     wells_id_seq := wells_id_seq db |}.

(** [db.add(curve)] *)
Definition db_add_curve (db : session) (curve : Curve) : session :=
  {| db_wells := db_wells db; db_curves := db_curves db ++ [curve];
     db_well_data := db_well_data db; wells_id_seq := wells_id_seq db |}.

(** [db.bulk_save_objects(objects)] *)
Definition db_bulk_save_objects (db : session) (objects : list WellData) : session :=
  {| db_wells := db_wells db; db_curves := db_curves db;
     db_well_data := db_well_data db ++ objects; wells_id_seq := wells_id_seq db |}.

Definition BATCH_SIZE : nat := 1000.

(** [parsed["well_info"]] is the argument [info]; the file name and the
    S3 key go to columns that [models.Well] does not keep. *)
Definition store_parsed_las (db : session) (info : well_info)
    (parsed : las_parser.parsed) (original_filename : string) (s3_key : option string)
    : session * Well :=
  let well_name := info_well_name info in
  let db :=
    match List.find (λ w, String.eqb (models.well_name w) well_name) (db_wells db) with
    | Some existing_well => db_delete db existing_well
    | None => db
    end in
  let well :=
    {| well_id := wells_id_seq db;
       models.well_name := well_name;
       start_depth := info_start_depth info;
       stop_depth := info_stop_depth info;
       depth_unit := info_depth_unit info |} in
  let db :=
    {| db_wells := db_wells db ++ [well]; db_curves := db_curves db;
       db_well_data := db_well_data db; wells_id_seq := (wells_id_seq db + 1)%Z |} in
  let db :=
    foldl (λ db c,
             db_add_curve db {| curve_well_id := well_id well;
                                mnemonic := las_parser.mnemonic c |})
          db (las_parser.curves parsed) in
  let data_objects :=
    (λ row, {| data_well_id := well_id well;
               depth := las_parser.depth row;
               values := las_parser.values row |}) <$> las_parser.data_rows parsed in
  let db :=
    foldl (λ db i, db_bulk_save_objects db (take BATCH_SIZE (drop i data_objects)))
          db (py.range_step (length data_objects) BATCH_SIZE) in
  (db, well).

End data_service.

(** ** config.py *)

Module config.

(** The two keys of [Settings] that the interpretation service reads. *)
Record Settings := {
  OPENAI_API_KEY : string;
  GROQ_API_KEY : string;
}.

End config.

(** ** services/ai_service.py *)

(** A JSON-like value: what the interpretation functions return. *)
Inductive pyval :=
  | PStr (s : string)
  | PFloat (x : float)
  | PList (l : list pyval)
  | PDict (items : list (string * pyval)).

Module ai_service.
Import data_service.

(** [_safe_float] on an optional float: [float(None)] raises the
    [TypeError] that the function catches. *)
Definition _safe_float (value : option float) : option float :=
  value ≫= λ num, if (num =? num)%float then Some num else None.

Definition _mean (values : list float) : option float :=
  match values with
  | [] => None
  | _ => Some (py.sum values / py.float_of_nat (length values))%float
  end.

Definition _percentile (values : list float) (q : float) : result (option float) :=
  match values with
  | [] => Ok None
  | _ =>
      let sorted_vals := py.sorted PrimFloat.ltb values in
      let n := length sorted_vals in
      if (n =? 1)%nat then x ← py.index sorted_vals 0; Ok (Some x)
      else
        let pos := (q * py.float_of_Z (Z.of_nat n - 1))%float in
        lo ← py.int pos;
        let hi := Z.min (lo + 1) (Z.of_nat n - 1) in
        let frac := (pos - py.float_of_Z lo)%float in
        a ← py.index sorted_vals lo;
        b ← py.index sorted_vals hi;
        Ok (Some (a + frac * (b - a))%float)
  end.

Definition _trend_label (values : list float) : result string :=
  if (length values <? 12)%nat then Ok "insufficient points"
  else
    let window := Nat.max 3 (length values / 5) in
    match _mean (take window values), _mean (py.last_n window values) with
    | Some head, Some tail =>
        let delta := (tail - head)%float in
        let scale := py.max3 (abs head) (abs tail) 1e-9 in
        rel ← py.truediv delta scale;
        if (0.08 <=? rel)%float then Ok "increasing with depth"
        else if (rel <=? -0.08)%float then Ok "decreasing with depth"
        else Ok "mostly stable"
    | _, _ => Ok "insufficient points"
    end.

Definition _pearson (values_a values_b : list float) : result (option float) :=
  let n := Nat.min (length values_a) (length values_b) in
  if (n <? 3)%nat then Ok None
  else
    let a := take n values_a in
    let b := take n values_b in
    match _mean a, _mean b with
    | Some mean_a, Some mean_b =>
        let numerator :=
          py.sum (zip_with (λ x y, (x - mean_a) * (y - mean_b))%float a b) in
        let den_a := py.sum (map (λ x, py.pow2 (x - mean_a)) a) in
        let den_b := py.sum (map (λ y, py.pow2 (y - mean_b)) b) in
        denom ← py.sqrt (den_a * den_b);
        if (denom =? 0)%float then Ok None
        else r ← py.truediv numerator denom; Ok (Some r)
    | _, _ => Ok None
    end.

(** [_curve_pairs] at its default [max_rows = 4000], the only value it
    is called with. *)
Definition max_rows : nat := 4000.

Definition pair_of_row (curve : string) (row : point) : option (float * float) :=
  match _safe_float (point_get row "depth"), _safe_float (point_get row curve) with
  | Some depth, Some value => Some (depth, value)
  | _, _ => None
  end.

Definition _curve_pairs (sample_data : list point) (curve : string)
    : list (float * float) :=
  match sample_data with
  | [] => []
  | _ =>
      let stride := Nat.max 1 (length sample_data / max_rows) in
      omap (pair_of_row curve) (py.every_nth stride sample_data)
  end.

(** *** [_fallback_interpretation] and its local functions *)

Definition stat_mean (statistics : gmap string curve_stats) (curve_name : string)
    : float :=
  py.or_zero (_safe_float (statistics !! curve_name ≫= s_mean)).

(** [statistics.get(curve, {}).get("non_null_count", 0) > 0] *)
Definition has_valid_points (statistics : gmap string curve_stats) (curve : string)
    : bool :=
  (0 <? default 0 (s_non_null_count <$> statistics !! curve))%nat.

Definition contains_any (needles : list string) (s : string) : bool :=
  existsb (λ x, py.contains x s) needles.

Definition is_hydro_candidate (c : string) : bool :=
  py.contains "HC" (py.upper c) || py.contains "GAS" (py.upper c)
  || py.startswith (py.upper c) "C".

Definition high_interval (sample_data : list point) (curve_name : string)
    : result (option (float * float * float)) :=
  let pairs := _curve_pairs sample_data curve_name in
  if (length pairs <? 8)%nat then Ok None
  else
    let values := pairs.*2 in
    threshold ← _percentile values 0.9;
    match threshold with
    | None => Ok None
    | Some threshold =>
        let depths := (filter (λ p, (threshold <=? p.2)%float = true) pairs).*1 in
        match depths with
        | [] => Ok None
        | _ =>
            top ← py.min_list depths;
            bottom ← py.max_list depths;
            Ok (Some (py.round top 1, py.round bottom 1, threshold))
        end
    end.

Definition zone_row_value (top3 : list string) (start_d end_d : float) (row : point)
    : option float :=
  match _safe_float (point_get row "depth") with
  | None => None
  | Some depth =>
      if (depth <? start_d)%float || (end_d <? depth)%float then None
      else
        let curve_vals := omap (λ c, _safe_float (point_get row c)) top3 in
        match curve_vals with
        | [] => None
        | _ => Some (py.sum curve_vals / py.float_of_nat (length curve_vals))%float
        end
  end.

Definition zone_intensity (sample_data : list point) (top3 : list string)
    (start_d end_d : float) : float :=
  match sample_data with
  | [] => 0%float
  | _ => py.or_zero (_mean (omap (zone_row_value top3 start_d end_d) sample_data))
  end.

Definition fluid_type_of (wetness : float) : string :=
  if (wetness <=? 0.17)%float then "dry gas system"
  else if (wetness <=? 0.40)%float then "gas-prone hydrocarbon system"
  else if (wetness <=? 0.65)%float then "mixed gas and oil system"
  else "oil-prone or condensate-rich system".

Definition zone_label (relative : float) : string :=
  if (1.2 <=? relative)%float then "gas-enriched zone"
  else if (0.85 <=? relative)%float then "mixed fluid zone"
  else "lower-intensity hydrocarbon zone".

Section fallback.
(** [str(x)] of a number inside an f-string. *)
Context (float_str : float → string).

Definition gas_show (curve_name confidence : string)
    (interval : float * float * float) : pyval :=
  let '(top_d, bot_d, threshold) := interval in
  PDict [
    ("depth_top", PFloat top_d);
    ("depth_bottom", PFloat bot_d);
    ("analysis",
      PStr (curve_name +:+ " exceeds its high-response threshold ("
            +:+ float_str (py.round threshold 3)
            +:+ ") indicating concentrated hydrocarbon response."));
    ("fluid_probability", PStr confidence);
    ("geological_context",
      PStr ("High-response band driven by " +:+ curve_name +:+ " in this interval."))
  ].

Fixpoint gas_shows_loop (sample_data : list point) (todo : list (string * string))
    : result (list pyval) :=
  match todo with
  | [] => Ok []
  | (curve_name, confidence) :: rest =>
      interval ← high_interval sample_data curve_name;
      shows ← gas_shows_loop sample_data rest;
      Ok (match interval with
          | None => shows
          | Some i => gas_show curve_name confidence i :: shows
          end)
  end.

Definition zone_entry (sample_data : list point) (top3 : list string)
    (overall_intensity : float) (bounds : float * float) : result pyval :=
  let '(start_d, end_d) := bounds in
  let intensity := zone_intensity sample_data top3 start_d end_d in
  relative ← (if (0 <? overall_intensity)%float
              then py.truediv intensity (py.max2 overall_intensity 1e-9)
              else Ok 0%float);
  Ok (PDict [
    ("depth_top", PFloat (py.round start_d 1));
    ("depth_bottom", PFloat (py.round end_d 1));
    ("characterization", PStr (zone_label relative));
    ("key_markers",
      PStr ("Relative hydrocarbon intensity=" +:+ float_str (py.round relative 2)
            +:+ " using " +:+ py.join ", " top3))
  ]).

Definition insufficient_data (well_name : string) (depth_min depth_max : float)
    : pyval :=
  PDict [
    ("summary",
      PStr ("No valid numeric samples were found in " +:+ float_str depth_min
            +:+ "-" +:+ float_str depth_max +:+ " for well '" +:+ well_name +:+ "'."));
    ("geochemical_metrics", PDict [
      ("wetness_index", PStr "n/a, insufficient data");
      ("balance_ratio", PStr "n/a, insufficient data");
      ("character_ratio", PStr "n/a, insufficient data")
    ]);
    ("gas_shows", PList []);
    ("fluid_type", PStr "insufficient data");
    ("fluid_evidence",
      PStr "No curves with valid points were available in the selected interval.");
    ("risk_profile", PDict [
      ("seal_risk", PStr "High");
      ("saturation_risk", PStr "High");
      ("technical_summary",
        PStr "Interpretation confidence is low due to missing valid curve values.")
    ]);
    ("zones", PList []);
    ("recommendations", PList [
      PStr "Verify data quality and null-value handling for the selected interval.";
      PStr "Expand depth interval or include additional valid curves before interpretation."
    ])
  ].

Definition _fallback_interpretation (well_name : string) (curves : list string)
    (depth_min depth_max : float) (statistics : gmap string curve_stats)
    (sample_data : list point) : result pyval :=
  let valid_curves := filter (λ curve, has_valid_points statistics curve = true) curves in
  match valid_curves with
  | [] => Ok (insufficient_data well_name depth_min depth_max)
  | _ =>
      let stat_mean := stat_mean statistics in
      let hydro_candidates := filter (λ c, is_hydro_candidate c = true) valid_curves in
      let hydro_candidates :=
        match hydro_candidates with
        | [] => take 4 (py.sorted_desc_by stat_mean valid_curves)
        | _ => hydro_candidates
        end in
      let ranked_hydro := py.sorted_desc_by stat_mean hydro_candidates in
      primary_curve ← py.index ranked_hydro 0;
      secondary_curve ← (if (1 <? length ranked_hydro)%nat
                         then py.index ranked_hydro 1
                         else py.index ranked_hydro 0);
      let light_means :=
        map stat_mean
          (filter (λ c, contains_any ["HC1"; "HC2"; "HC3"] (py.upper c) = true)
                  ranked_hydro) in
      let heavy_means :=
        map stat_mean
          (filter (λ c, contains_any ["HC4"; "HC5"; "HC6"; "HC7"] (py.upper c) = true)
                  ranked_hydro) in
      let total_light := py.sum light_means in
      let total_heavy := py.sum heavy_means in
      wetness ← (if (0 <? total_light + total_heavy)%float
                 then py.truediv total_heavy (total_light + total_heavy)
                 else Ok 0%float);
      balance ← (match statistics !! "TOTAL_GAS" with
                 | Some _ =>
                     py.truediv (stat_mean "TOTAL_GAS")
                                (py.max2 (stat_mean primary_curve) 1e-9)
                 | None => Ok (stat_mean primary_curve)
                 end);
      character ← (if (0 <? total_light)%float
                   then py.truediv total_heavy (py.max2 total_light 1e-9)
                   else Ok total_heavy);
      let fluid_type := fluid_type_of wetness in
      gas_shows ← gas_shows_loop sample_data
                    [(primary_curve, "High"); (secondary_curve, "Med")];
      let span := (depth_max - depth_min)%float in
      let zone1 := (depth_min, depth_min + span / 3)%float in
      let zone2 := (depth_min + span / 3, depth_min + 2 * span / 3)%float in
      let zone3 := (depth_min + 2 * span / 3, depth_max)%float in
      let top3 := take 3 ranked_hydro in
      let intensity_of := λ b : float * float, zone_intensity sample_data top3 b.1 b.2 in
      let overall_intensity :=
        py.or_zero (_mean [intensity_of zone1; intensity_of zone2; intensity_of zone3]) in
      z1 ← zone_entry sample_data top3 overall_intensity zone1;
      z2 ← zone_entry sample_data top3 overall_intensity zone2;
      z3 ← zone_entry sample_data top3 overall_intensity zone3;
      let primary_stats := statistics !! primary_curve in
      let p_min := py.or_zero (_safe_float (primary_stats ≫= s_min)) in
      let p_max := py.or_zero (_safe_float (primary_stats ≫= s_max)) in
      let p_mean := py.max2 (py.or_zero (_safe_float (primary_stats ≫= s_mean))) 1e-9 in
      variability ← py.truediv (p_max - p_min) p_mean;
      let deep_intensity := intensity_of zone3 in
      let shallow_intensity := intensity_of zone1 in
      let seal_risk :=
        if (2.2 <? variability)%float then "High"
        else if (1.2 <? variability)%float then "Med" else "Low" in
      let saturation_risk :=
        if (deep_intensity <? 0.55 * py.max2 shallow_intensity 1e-9)%float then "High"
        else if (deep_intensity <? 0.8 * py.max2 shallow_intensity 1e-9)%float then "Med"
        else "Low" in
      Ok (PDict [
        ("summary",
          PStr ("In " +:+ float_str (py.round depth_min 1) +:+ "-"
                +:+ float_str (py.round depth_max 1)
                +:+ ", strongest responses are driven by " +:+ primary_curve
                +:+ " (mean " +:+ float_str (py.round (stat_mean primary_curve) 3)
                +:+ ") and " +:+ secondary_curve
                +:+ " (mean " +:+ float_str (py.round (stat_mean secondary_curve) 3)
                +:+ "), with inferred " +:+ fluid_type +:+ "."));
        ("geochemical_metrics", PDict [
          ("wetness_index", PStr (float_str (py.round wetness 4) +:+ " (derived)"));
          ("balance_ratio", PStr (float_str (py.round balance 4) +:+ " (derived)"));
          ("character_ratio", PStr (float_str (py.round character 4) +:+ " (derived)"))
        ]);
        ("gas_shows", PList gas_shows);
        ("fluid_type", PStr fluid_type);
        ("fluid_evidence",
          PStr ("Primary evidence: " +:+ primary_curve +:+ " and " +:+ secondary_curve
                +:+ " high-response intervals, wetness index "
                +:+ float_str (py.round wetness 3) +:+ ", and variability ratio "
                +:+ float_str (py.round variability 3) +:+ "."));
        ("risk_profile", PDict [
          ("seal_risk", PStr seal_risk);
          ("saturation_risk", PStr saturation_risk);
          ("technical_summary",
            PStr ("Seal risk " +:+ seal_risk +:+ " and saturation risk "
                  +:+ saturation_risk +:+ " derived from " +:+ primary_curve
                  +:+ " variability and deep-to-shallow intensity contrast."))
        ]);
        ("zones", PList [z1; z2; z3]);
        ("recommendations", PList [
          PStr ("Validate " +:+ primary_curve +:+ " and " +:+ secondary_curve
                +:+ " with complementary petrophysical logs.");
          PStr "Run focused sampling/coring across highest-response intervals to confirm fluid typing.";
          PStr "Cross-check drilling parameters versus hydrocarbon intensity transitions between zones."
        ])
      ])
  end.

End fallback.

(** *** The client *)

(** The client object: the arguments of its constructor. *)
Record OpenAI := {
  api_key : string;
  base_url : option string;
}.

(** The module variables [_client], [_provider] and [_model_name]. *)
Record globals := {
  _client : option OpenAI;
  _provider : string;
  _model_name : string;
}.

Definition initial_globals : globals :=
  {| _client := None; _provider := "NONE"; _model_name := EmptyString |}.

Definition is_placeholder (key : string) : bool :=
  String.eqb key EmptyString
  || py.contains "your_key" key
  || py.contains "sk-proj-XXX" key
  || (String.length key <? 20)%nat.

Definition get_ai_client (settings : config.Settings) (g : globals)
    : globals * (option OpenAI * string * string) :=
  let groq_key :=
    if String.eqb (config.GROQ_API_KEY settings) EmptyString then EmptyString
    else py.strip (config.GROQ_API_KEY settings) in
  let openai_key :=
    if String.eqb (config.OPENAI_API_KEY settings) EmptyString then EmptyString
    else py.strip (config.OPENAI_API_KEY settings) in
  let g :=
    match _client g with
    | Some _ => g
    | None =>
        if negb (is_placeholder groq_key)
        then {| _client := Some {| api_key := groq_key;
                                   base_url := Some "https://api.groq.com/openai/v1" |};
                _provider := "GROQ";
                _model_name := "llama-3.3-70b-versatile" |}
        else if negb (is_placeholder openai_key)
        then {| _client := Some {| api_key := openai_key; base_url := None |};
                _provider := "OPENAI";
                _model_name := "gpt-4o" |}
        else g
    end in
  (g, (_client g, _provider g, _model_name g)).

(** *** Texts *)

Definition is_newline (c : ascii) : bool := Ascii.eqb c "010".
Definition is_blank (c : ascii) : bool := Ascii.eqb c " " || Ascii.eqb c "009".

Definition _clean_chat_text (text : option string) : string :=
  match text with
  | None | Some EmptyString => "No response was generated."
  | Some text =>
      let cleaned := py.strip (py.replace_crlf text) in
      let cleaned :=
        py.sub_runs is_newline 3 (String "010" (String "010" EmptyString))
                    EmptyString cleaned in
      py.sub_runs is_blank 2 " " EmptyString cleaned
  end.

(** The rows that [_format_sample_data] prints: none for empty data,
    where it returns before the division; otherwise [step = max(1,
    len(data) // max_rows)] and [sampled = data[::step][:max_rows]]. *)
Definition sampled {A} (data : list A) (max_rows : nat) : result (list A) :=
  match data with
  | [] => Ok []
  | _ :: _ =>
      if (max_rows =? 0)%nat then Raise ZeroDivisionError
      else
        let step := Nat.max 1 (length data / max_rows) in
        Ok (take max_rows (py.every_nth step data))
  end.

End ai_service.

(** ** routers/chat.py *)

Module chat.
Import models.

Definition _normalize_depth_range
    (request_min request_max : option float) (well : Well) : float * float :=
  let depth_min := default (start_depth well) request_min in
  let depth_max := default (stop_depth well) request_max in
  let depth_min := py.max2 (start_depth well) (py.min2 depth_min (stop_depth well)) in
  let depth_max := py.max2 (start_depth well) (py.min2 depth_max (stop_depth well)) in
  if (depth_max <=? depth_min)%float
  then (start_depth well, stop_depth well)
  else (depth_min, depth_max).

Definition _normalize_token (text : string) : string :=
  py.keep_upper_alnum (py.upper text).

(** The loop body of [_extract_mentioned_curves]. *)
Definition mention_step (raw_message normalized_message : string)
    (matches : list string) (curve : string) : list string :=
  let curve_upper := py.upper curve in
  let curve_normalized := _normalize_token curve in
  if py.contains curve_upper raw_message
     || (negb (String.eqb curve_normalized EmptyString)
         && py.contains curve_normalized normalized_message)
  then if bool_decide (curve ∈ matches) then matches else matches ++ [curve]
  else matches.

Definition _extract_mentioned_curves
    (message : string) (available_curve_names : list string) : list string :=
  if String.eqb message EmptyString then []
  else
    let raw_message := py.upper message in
    let normalized_message := _normalize_token message in
    foldl (mention_step raw_message normalized_message) []
      (py.sorted (fun a b => (String.length b <? String.length a)%nat)
         available_curve_names).

Definition _mean (values : list float) : option float :=
  match values with
  | [] => None
  | _ => Some (py.sum values / py.float_of_nat (length values))%float
  end.

Definition _trend_label (values : list float) : result string :=
  if (length values <? 12)%nat then Ok "insufficient points for trend"
  else
    let window := Nat.max 3 (length values / 5) in
    match _mean (take window values), _mean (py.last_n window values) with
    | Some first_mean, Some last_mean =>
        let delta := (last_mean - first_mean)%float in
        let scale := py.max3 (abs first_mean) (abs last_mean) 1e-9 in
        relative_change ← py.truediv delta scale;
        if (0.08 <=? relative_change)%float then Ok "increasing with depth"
        else if (relative_change <=? -0.08)%float then Ok "decreasing with depth"
        else Ok "mostly stable"
    | _, _ => Ok "insufficient points for trend"
    end.

Definition _pearson_correlation
    (values_a values_b : list float) : result (option float) :=
  let n := Nat.min (length values_a) (length values_b) in
  if (n <? 3)%nat then Ok None
  else
    let a := take n values_a in
    let b := take n values_b in
    match _mean a, _mean b with
    | Some mean_a, Some mean_b =>
        let num :=
          py.sum (zip_with (λ x y, (x - mean_a) * (y - mean_b))%float a b) in
        let den_a := py.sum (map (λ x, py.pow2 (x - mean_a)) a) in
        let den_b := py.sum (map (λ y, py.pow2 (y - mean_b)) b) in
        den ← py.sqrt (den_a * den_b);
        if (den =? 0)%float then Ok None
        else r ← py.truediv num den; Ok (Some r)
    | _, _ => Ok None
    end.

(** The row sampling at the head of [_format_query_analytics]:
    [max_rows = 3500], [stride = max(1, len(rows) // max_rows)],
    [sampled_rows = rows[::stride]]. *)
Definition max_rows : nat := 3500.

Definition sampled_rows {A} (rows : list A) : list A :=
  let stride := Nat.max 1 (length rows / max_rows) in
  py.every_nth stride rows.

(** *** The scope and the focus of a question *)

Section scope.
Import data_service.

Definition MAX_CONTEXT_CURVES : nat := 12.

Definition DEFAULT_CONTEXT_CURVES : list string :=
  ["TOTAL_GAS"; "HC1"; "HC2"; "HC3"; "HC4"; "HC5"; "HC6"; "ROP(ft/hr)";
   "ROP(MIN/FT)"; "AROM"; "BEN_TOL"; "NAPH"; "PARA"].

(** The body of the loop of [_select_context_curves] over the requested
    curves. *)
Definition select_step (available_names : gset string)
    (acc : list string * list string) (curve : string) : list string * list string :=
  let '(selected, ignored) := acc in
  if bool_decide (curve ∈ available_names) && negb (bool_decide (curve ∈ selected))
  then (selected ++ [curve], ignored)
  else if negb (bool_decide (curve ∈ available_names))
          && negb (bool_decide (curve ∈ ignored))
  then (selected, ignored ++ [curve])
  else (selected, ignored).

(** The loop that fills the default subset from the sorted names, with
    its [break]. *)
Fixpoint fill_fallback (fallback : list string) (names : list string) : list string :=
  match names with
  | [] => fallback
  | curve :: rest =>
      let fallback :=
        if bool_decide (curve ∈ fallback) then fallback else fallback ++ [curve] in
      if (MAX_CONTEXT_CURVES <=? length fallback)%nat then fallback
      else fill_fallback fallback rest
  end.

Definition _select_context_curves
    (requested_curves : list string) (available_curves : list Curve)
    : list string * list string * string :=
  let available_names : gset string := list_to_set (mnemonic <$> available_curves) in
  let '(selected, ignored) :=
    foldl (select_step available_names) ([], []) requested_curves in
  match selected with
  | _ :: _ => (take MAX_CONTEXT_CURVES selected, ignored, "user_selected")
  | [] =>
      let fallback := filter (λ curve, curve ∈ available_names) DEFAULT_CONTEXT_CURVES in
      let fallback :=
        if (length fallback <? MAX_CONTEXT_CURVES)%nat
        then fill_fallback fallback (py.sorted String.ltb (elements available_names))
        else fallback in
      (take MAX_CONTEXT_CURVES fallback, ignored, "default_subset")
  end.

(** A loop [for curve in todo] of [_pick_focus_curves]: it appends the
    curves that [keep] accepts and [focus] does not hold yet, and leaves
    as soon as [focus] has [max_curves] entries; the flag tells whether
    it left that way. *)
Fixpoint focus_loop (max_curves : nat) (keep : string → bool)
    (focus : list string) (todo : list string) : list string * bool :=
  match todo with
  | [] => (focus, false)
  | curve :: rest =>
      let focus :=
        if keep curve && negb (bool_decide (curve ∈ focus))
        then focus ++ [curve] else focus in
      if (max_curves <=? length focus)%nat then (focus, true)
      else focus_loop max_curves keep focus rest
  end.

(** The entry of [scored] for one curve, when it gets one. *)
Definition focus_score (stats : gmap string curve_stats) (curve : string)
    : option (float * string) :=
  match stats !! curve with
  | None => None
  | Some s =>
      if (s_non_null_count s <=? 0)%nat then None
      else match s_min s, s_max s with
           | Some cmin, Some cmax => Some ((cmax - cmin)%float, curve)
           | _, _ => None
           end
  end.

Definition _pick_focus_curves (mentioned_curves curves_in_scope : list string)
    (stats : gmap string curve_stats) (max_curves : nat) : list string :=
  let '(focus, returned) :=
    focus_loop max_curves (λ curve, bool_decide (curve ∈ curves_in_scope)) []
               mentioned_curves in
  if returned then focus
  else
    let scored := omap (focus_score stats) curves_in_scope in
    let '(focus, returned) :=
      focus_loop max_curves (λ _, true) focus (py.sorted_desc_by fst scored).*2 in
    if returned then focus
    else (focus_loop max_curves (λ _, true) focus curves_in_scope).1.

End scope.

End chat.

(** ** routers/interpretation.py *)

Module interpretation.
Import models data_service.

Record InterpretationRequest := {
  curves : list string;
  depth_min : float;
  depth_max : float;
}.

Record InterpretationResponse := {
  resp_well_id : Z;
  resp_well_name : string;
  depth_range : float * float * string;
  curves_analyzed : list string;
  interpretation : pyval;
}.

(** The three tables behind the session [db]. *)
Record database := {
  wells : list Well;
  curve_table : list Curve;
  well_data : list WellData;
}.

(** The service calls of the handler, logged in the order they are made. *)
Inductive service_call :=
  | CallStatistics
  | CallData
  | CallInterpret.

Section interpret.
(** [interpret_well_data]: the generative backend or the fallback.  It
    can raise (its diagnostics are computed outside its [try]), and the
    handler does not catch what it raises. *)
Context (interpret_well_data :
  string → list string → float → float → gmap string curve_stats → list point →
  result pyval).

(** The text of the joined set is in the order of [elements]; Python
    leaves the iteration order of a set unspecified. *)
Definition interpret (db : database) (well_id : Z) (request : InterpretationRequest)
    : list service_call * result InterpretationResponse :=
  match List.find (λ w, bool_decide (models.well_id w = well_id)) (wells db) with
  | None => ([], Raise (HTTPException 404 "Well not found."))
  | Some well =>
      let available : gset string :=
        list_to_set (mnemonic <$> filter (λ c, curve_well_id c = well_id) (curve_table db)) in
      let invalid : gset string := list_to_set (curves request) ∖ available in
      if bool_decide (invalid ≠ ∅)
      then ([], Raise (HTTPException 400
                         ("Invalid curves: " +:+ py.join ", " (elements invalid))))
      else if (depth_max request <=? depth_min request)%float
      then ([], Raise (HTTPException 400 "depth_min must be less than depth_max."))
      else
        let stats :=
          get_well_statistics (well_data db) well_id (curves request)
            (Some (depth_min request)) (Some (depth_max request)) in
        let data :=
          get_well_data (well_data db) well_id (curves request)
            (Some (depth_min request)) (Some (depth_max request)) in
        ([CallStatistics; CallData; CallInterpret],
         (interpretation ←
            interpret_well_data (well_name well) (curves request)
              (depth_min request) (depth_max request) stats data;
          Ok {| resp_well_id := models.well_id well;
                resp_well_name := well_name well;
                depth_range := (depth_min request, depth_max request, depth_unit well);
                curves_analyzed := curves request;
                interpretation := interpretation |}))
  end.

End interpret.

End interpretation.

(** ** routers/wells.py *)

Module wells.
Import models data_service.

Record DataResponse := {
  resp_well_id : Z;
  resp_well_name : string;
  depth_range : float * float * string;
  curves : list string;
  data : list point;
}.

(** [[c.strip() for c in curves.split(",") if c.strip()]] *)
Definition curve_list_of (curves : string) : list string :=
  py.strip <$> filter (λ c, py.strip c ≠ EmptyString) (py.split "," curves).

(** The texts of the two joined sets are in the order of [elements] and
    of the sorted names. *)
Definition get_data (db : session) (well_id : Z) (curves : string)
    (depth_min depth_max : option float) : result DataResponse :=
  match List.find (λ w, bool_decide (models.well_id w = well_id)) (db_wells db) with
  | None => Raise (HTTPException 404 "Well not found.")
  | Some well =>
      let curve_list := curve_list_of curves in
      match curve_list with
      | [] => Raise (HTTPException 400 "At least one curve is required.")
      | _ =>
          let available : gset string :=
            list_to_set
              (mnemonic <$> filter (λ c, curve_well_id c = well_id) (db_curves db)) in
          let invalid : gset string := list_to_set curve_list ∖ available in
          if bool_decide (invalid ≠ ∅)
          then Raise (HTTPException 400
                        ("Invalid curves: " +:+ py.join ", " (elements invalid)
                         +:+ ". Available: "
                         +:+ py.join ", "
                               (take 20 (py.sorted String.ltb (elements available)))
                         +:+ "..."))
          else
            let data :=
              get_well_data (db_well_data db) well_id curve_list depth_min depth_max in
            Ok {| resp_well_id := models.well_id well;
                  resp_well_name := well_name well;
                  depth_range := (py.or_float depth_min (start_depth well),
                                  py.or_float depth_max (stop_depth well),
                                  depth_unit well);
                  curves := curve_list;
                  data := data |}
      end
  end.


End wells.

(** ** Notions used in the statements *)

(** The order of binary64 values as [SFcompare] decides it, on the
    specification side of the primitive floats. *)
Definition SFlt (x y : spec_float) : Prop := SFcompare x y = Some Lt.
Definition SFle (x y : spec_float) : Prop :=
  SFcompare x y = Some Lt ∨ SFcompare x y = Some Eq.
Definition SFnum (x : spec_float) : Prop := x ≠ S754_nan.
Definition SFzero (x : spec_float) : Prop := ∃ s, x = S754_zero s.

(** Equal up to the sign of a zero. *)
Definition SFsame (x y : spec_float) : Prop := x = y ∨ (SFzero x ∧ SFzero y).

(** Two floats that Python's [==] cannot tell apart, a NaN standing for
    itself: identical, or both zero. *)
Definition same_value (x y : float) : Prop :=
  x = y ∨ ((x =? 0)%float = true ∧ (y =? 0)%float = true).

Definition same_result (r1 r2 : result (option float)) : Prop :=
  match r1, r2 with
  | Ok (Some x), Ok (Some y) => same_value x y
  | Ok None, Ok None => True
  | Raise e1, Raise e2 => e1 = e2
  | _, _ => False
  end.

(** The representative of a float among those equal to it: [-0.0] goes
    to [0.0]. *)
Definition canon (x : float) : float := if (x =? 0)%float then 0%float else x.

(** A number in canonical form, and the order on such numbers. *)
Definition canonical (x : float) : Prop := py.is_nan x = false ∧ canon x = x.
Definition canonical_le (x y : float) : Prop :=
  canonical x ∧ canonical y ∧ (x <=? y)%float = true.

(** The index of the 0.9 quantile among [n] sorted values is in range. *)
Definition p90_index_ok (n : nat) : bool :=
  match py.int (0.9 * py.float_of_Z (Z.of_nat n - 1))%float with
  | Ok lo => (0 <=? lo)%Z && (lo <=? Z.of_nat n - 1)%Z
  | Raise _ => false
  end.

(** The keys of the interpretation object. *)
Definition interpretation_keys : list string :=
  ["summary"; "geochemical_metrics"; "gas_shows"; "fluid_type"; "fluid_evidence";
   "risk_profile"; "zones"; "recommendations"].

(** [d[k]] on a dict value. *)
Definition pyval_get (v : pyval) (k : string) : option pyval :=
  match v with
  | PDict items => snd <$> List.find (λ kv, String.eqb kv.1 k) items
  | _ => None
  end.

(** The relative change that [_trend_label] compares with 0.08, and
    the label it picks from it (sequences of at least 12 values). *)
Definition relative_change (values : list float) : float :=
  let window := Nat.max 3 (length values / 5) in
  let first := take window values in
  let last := py.last_n window values in
  let head := (py.sum first / py.float_of_nat (length first))%float in
  let tail := (py.sum last / py.float_of_nat (length last))%float in
  ((tail - head) / py.max3 (abs head) (abs tail) 1e-9)%float.

Definition trend_of (rel : float) : string :=
  if (0.08 <=? rel)%float then "increasing with depth"
  else if (rel <=? -0.08)%float then "decreasing with depth"
  else "mostly stable".

Fixpoint strictly_increasing (l : list float) : bool :=
  match l with
  | x :: (y :: _) as l' => (x <? y)%float && strictly_increasing l'
  | _ => true
  end.

(** A stored row belongs to the queried window. *)
Definition in_window (well : Z) (depth_min depth_max : option float)
    (row : models.WellData) : bool :=
  bool_decide (models.data_well_id row = well)
  && from_option (λ lo, (lo <=? models.depth row)%float) true depth_min
  && from_option (λ hi, (models.depth row <=? hi)%float) true depth_max.

(** A bound of a query that, when given, is a number. *)
Definition number_bound (bound : option float) : Prop :=
  match bound with
  | Some x => py.is_nan x = false
  | None => True
  end.

(** The distinct elements of a list in the order of their first
    occurrence. *)
Fixpoint first_occurrences (l : list string) : list string :=
  match l with
  | [] => []
  | x :: l' => x :: filter (λ y, y ≠ x) (first_occurrences l')
  end.

(** [if x not in acc: acc.append(x)] *)
Definition append_new (acc : list string) (x : string) : list string :=
  if bool_decide (x ∈ acc) then acc else acc ++ [x].

(** The test of [_extract_mentioned_curves] for one candidate. *)
Definition mentions (message curve : string) : bool :=
  py.contains (py.upper curve) (py.upper message)
  || (negb (String.eqb (chat._normalize_token curve) EmptyString)
      && py.contains (chat._normalize_token curve) (chat._normalize_token message)).

(** The curves of the scope that have a value range, widest range
    first. *)
Definition ranked_by_range (stats : gmap string data_service.curve_stats)
    (curves_in_scope : list string) : list string :=
  (py.sorted_desc_by fst (omap (chat.focus_score stats) curves_in_scope)).*2.

(** A float that is not below zero: a NaN, a zero of either sign, or a
    positive value. *)
Definition SFnot_neg (x : spec_float) : Prop :=
  match x with
  | S754_infinity true | S754_finite true _ _ => False
  | _ => True
  end.

(** [x ** 2] raises [OverflowError] when the square of a finite [x] is
    out of range; [py.pow2] is the square where it does not. *)
Definition square_overflows (x : float) : bool :=
  match Prim2SF x, Prim2SF (py.pow2 x) with
  | S754_finite _ _ _, S754_infinity _ => true
  | _, _ => false
  end.

(** The deviations of the first [n] values from their mean. *)
Definition deviations (n : nat) (values : list float) : list float :=
  match ai_service._mean (take n values) with
  | Some mean => (λ x, (x - mean)%float) <$> take n values
  | None => []
  end.

(** The labels of the deterministic interpreter. *)
Definition zone_labels : list string :=
  ["gas-enriched zone"; "mixed fluid zone"; "lower-intensity hydrocarbon zone"].

Definition fluid_types : list string :=
  ["dry gas system"; "gas-prone hydrocarbon system"; "mixed gas and oil system";
   "oil-prone or condensate-rich system"].

Definition risk_levels : list string := ["High"; "Med"; "Low"].

(** A zone entry with the given bounds and one of the zone labels. *)
Definition zone_between (top bottom : float) (zone : pyval) : Prop :=
  pyval_get zone "depth_top" = Some (PFloat top)
  ∧ pyval_get zone "depth_bottom" = Some (PFloat bottom)
  ∧ ∃ label, pyval_get zone "characterization" = Some (PStr label) ∧ label ∈ zone_labels.

(** The three variables of the client agree: no client and the initial
    names, or a client with the names and the address of its provider and
    a stripped key of at least 20 characters. *)
Definition globals_ok (g : ai_service.globals) : Prop :=
  match ai_service._client g with
  | None => ai_service._provider g = "NONE" ∧ ai_service._model_name g = EmptyString
  | Some client =>
      20 ≤ String.length (ai_service.api_key client)
      ∧ py.strip (ai_service.api_key client) = ai_service.api_key client
      ∧ ((ai_service._provider g = "GROQ"
          ∧ ai_service._model_name g = "llama-3.3-70b-versatile"
          ∧ ai_service.base_url client = Some "https://api.groq.com/openai/v1")
         ∨ (ai_service._provider g = "OPENAI"
            ∧ ai_service._model_name g = "gpt-4o"
            ∧ ai_service.base_url client = None))
  end.

(** The variables after a series of calls of [get_ai_client], one per
    element of [calls]. *)
Definition after_calls (calls : list config.Settings) (g : ai_service.globals)
    : ai_service.globals :=
  foldl (λ g settings, (ai_service.get_ai_client settings g).1) g calls.

(** The longest run of characters of a class in a string, after a run of
    [cur] of them. *)
Fixpoint max_run (p : ascii → bool) (cur : nat) (s : string) : nat :=
  match s with
  | EmptyString => cur
  | String c s' =>
      if p c then max_run p (S cur) s' else Nat.max cur (max_run p 0 s')
  end.

Fixpoint all_chars (p : ascii → bool) (s : string) : bool :=
  match s with
  | EmptyString => true
  | String c s' => p c && all_chars p s'
  end.

Fixpoint has_char (sep : ascii) (s : string) : bool :=
  match s with
  | EmptyString => false
  | String c s' => Ascii.eqb c sep || has_char sep s'
  end.

(** The last character of a string, if it has one, is not among those
    that [strip] removes. *)
Fixpoint last_ok (s : string) : bool :=
  match s with
  | EmptyString => true
  | String c s' =>
      match s' with
      | EmptyString => negb (py.is_space c)
      | String _ _ => last_ok s'
      end
  end.

(** A curve name as the data endpoint lists it: not empty, with nothing
    to strip at either end and no comma. *)
Definition clean_name (c : string) : Prop :=
  c ≠ EmptyString ∧ py.strip c = c ∧ has_char "," c = false.

(** The constraints of the schema: the primary key of [wells] is unique
    and behind its sequence, and the curves and the data rows refer to
    wells of the table. *)
Definition session_ok (db : data_service.session) : Prop :=
  NoDup (models.well_id <$> data_service.db_wells db)
  ∧ Forall (λ w, (models.well_id w < data_service.wells_id_seq db)%Z)
           (data_service.db_wells db)
  ∧ Forall (λ c, models.curve_well_id c ∈ models.well_id <$> data_service.db_wells db)
           (data_service.db_curves db)
  ∧ Forall (λ row, models.data_well_id row ∈ models.well_id <$> data_service.db_wells db)
           (data_service.db_well_data db).

(** The session once [store_parsed_las] has removed the well of the same
    name. *)
Definition deduplicated (db : data_service.session) (well_name : string)
    : data_service.session :=
  match List.find (λ w, String.eqb (models.well_name w) well_name)
                  (data_service.db_wells db) with
  | Some existing_well => data_service.db_delete db existing_well
  | None => db
  end.

(** The data rows and the curves built from a parsed file for the well
    [id]. *)
Definition stored_rows (id : Z) (parsed : las_parser.parsed) : list models.WellData :=
  (λ row, {| models.data_well_id := id; models.depth := las_parser.depth row;
             models.values := las_parser.values row |}) <$> las_parser.data_rows parsed.

Definition stored_curves (id : Z) (parsed : las_parser.parsed) : list models.Curve :=
  (λ c, {| models.curve_well_id := id; models.mnemonic := las_parser.mnemonic c |})
    <$> las_parser.curves parsed.

(** The mnemonics of the curves of a well. *)
Definition curves_of (db : data_service.session) (id : Z) : list string :=
  models.mnemonic <$> filter (λ c, models.curve_well_id c = id) (data_service.db_curves db).

(** ** Sample data for the concrete instances *)

Definition demo_well : models.Well :=
  {| models.well_id := 1; models.well_name := "DEMO-1";
     models.start_depth := 8000; models.stop_depth := 9000;
     models.depth_unit := "F" |}.

(** [n] rows, one foot apart from 8000, each with a reading of [HC1]. *)
Definition demo_points (n : nat) : list data_service.point :=
  (λ i, {[ "depth" := Some (py.float_of_nat (8000 + i));
           "HC1" := Some (py.float_of_nat (i mod 7)) ]}) <$> seq 0 n.

(** A file with the index [DEPT] and the curves [HC1] and [HC2]: a full
    row, a row with a NaN and the null value, and a row whose depth is
    the null value. *)
Definition demo_las : las_parser.LASFile :=
  {| las_parser.well_NULL := Some (-9999)%float;
     las_parser.las_curves :=
       [ {| las_parser.item_mnemonic := "DEPT"; las_parser.item_unit := "F";
            las_parser.item_descr := "Depth" |};
         {| las_parser.item_mnemonic := "HC1"; las_parser.item_unit := "ppm";
            las_parser.item_descr := "Methane" |};
         {| las_parser.item_mnemonic := "HC2"; las_parser.item_unit := EmptyString;
            las_parser.item_descr := EmptyString |} ];
     las_parser.df_columns := ["DEPT"; "HC1"; "HC2"];
     las_parser.df_records :=
       [ {[ "DEPT" := 8665.12345%float; "HC1" := 279.03%float; "HC2" := 127.26%float ]};
         {[ "DEPT" := 8666%float; "HC1" := nan; "HC2" := (-9999)%float ]};
         {[ "DEPT" := (-9999)%float; "HC1" := 1%float; "HC2" := 2%float ]} ] |}.

Definition demo_db : interpretation.database :=
  {| interpretation.wells := [demo_well];
     interpretation.curve_table :=
       [ {| models.curve_well_id := 1; models.mnemonic := "HC1" |};
         {| models.curve_well_id := 1; models.mnemonic := "HC2" |} ];
     interpretation.well_data :=
       [ {| models.data_well_id := 1; models.depth := 8000%float;
            models.values := {[ "HC1" := Some 1%float; "HC2" := None ]} |};
         {| models.data_well_id := 1; models.depth := 8001%float;
            models.values := {[ "HC1" := Some 3%float; "HC2" := None ]} |} ] |}.

(** A request whose bounds are the wrong way round. *)
Definition inverted_request : interpretation.InterpretationRequest :=
  {| interpretation.curves := ["HC1"];
     interpretation.depth_min := 8500%float;
     interpretation.depth_max := 8200%float |}.

(** The sample well in a session, with the sequence at 2. *)
Definition demo_session : data_service.session :=
  {| data_service.db_wells := interpretation.wells demo_db;
     data_service.db_curves := interpretation.curve_table demo_db;
     data_service.db_well_data := interpretation.well_data demo_db;
     data_service.wells_id_seq := 2 |}.

(** A second upload under the name of the sample well: one curve, two
    rows, the deeper one first. *)
Definition demo_info : data_service.well_info :=
  {| data_service.info_well_name := "DEMO-1";
     data_service.info_start_depth := 8000;
     data_service.info_stop_depth := 9000;
     data_service.info_depth_unit := "F" |}.

Definition demo_parsed : las_parser.parsed :=
  {| las_parser.null_value := (-9999)%float;
     las_parser.curves :=
       [ {| las_parser.mnemonic := "HC1"; las_parser.unit := "ppm";
            las_parser.description := "Methane" |} ];
     las_parser.data_rows :=
       [ {| las_parser.depth := 8101%float;
            las_parser.values := {[ "HC1" := Some 5%float ]} |};
         {| las_parser.depth := 8100%float;
            las_parser.values := {[ "HC1" := None ]} |} ] |}.

(** Statistics and rows in which [HC1] has values. *)
Definition demo_stats : gmap string data_service.curve_stats :=
  {[ "HC1" := {| data_service.s_min := Some 0%float; data_service.s_max := Some 6%float;
                 data_service.s_mean := Some 3%float; data_service.s_count := 20;
                 data_service.s_non_null_count := 20 |} ]}.


(** A request that the interpretation endpoint serves. *)
Definition demo_request : interpretation.InterpretationRequest :=
  {| interpretation.curves := ["HC1"];
     interpretation.depth_min := 8000%float;
     interpretation.depth_max := 8001%float |}.

(** Settings with a Groq key between blanks and the placeholder of the
    OpenAI key. *)
Definition demo_settings : config.Settings :=
  {| config.OPENAI_API_KEY := "sk-proj-XXX";
     config.GROQ_API_KEY := " gsk_0123456789abcdefghij " |}.

(* ================================================================= *)
(** * Part II: floats and lists *)
(* ================================================================= *)

(** ** IEEE comparisons on the specification side *)

Ltac cmp_destruct :=
  repeat match goal with
         | H : context [Z.compare ?a ?b] |- _ =>
             destruct (Z.compare_spec a b); simpl in H; try discriminate H
         | |- context [Z.compare ?a ?b] =>
             destruct (Z.compare_spec a b); simpl
         | H : context [Pos.compare_cont Eq ?a ?b] |- _ =>
             change (Pos.compare_cont Eq a b) with (Pos.compare a b) in H;
             destruct (Pos.compare_spec a b); simpl in H; try discriminate H
         | |- context [Pos.compare_cont Eq ?a ?b] =>
             change (Pos.compare_cont Eq a b) with (Pos.compare a b);
             destruct (Pos.compare_spec a b); simpl
         end.

Lemma SFcompare_None x y : SFcompare x y = None ↔ x = S754_nan ∨ y = S754_nan.
Proof.
  destruct x as [[]|[]| |[] m1 e1], y as [[]|[]| |[] m2 e2]; simpl;
    split; intros H; try discriminate; try reflexivity;
    try (destruct H; discriminate); auto.
Qed.

Lemma SFcompare_sym x y : SFcompare y x = CompOpp <$> SFcompare x y.
Proof.
  destruct x as [[]|[]| |[] m1 e1], y as [[]|[]| |[] m2 e2]; simpl; try reflexivity;
    cmp_destruct; try reflexivity; try lia.
Qed.

Lemma SFcompare_refl x : SFnum x → SFcompare x x = Some Eq.
Proof.
  destruct x as [[]|[]| |[] m e]; simpl; intros H; try reflexivity;
    try (by destruct H); cmp_destruct; try reflexivity; try lia.
Qed.

Lemma SFle_trans x y z : SFle x y → SFle y z → SFle x z.
Proof.
  unfold SFle.
  destruct x as [[]|[]| |[] m1 e1], y as [[]|[]| |[] m2 e2], z as [[]|[]| |[] m3 e3];
    simpl; intros [H1|H1] [H2|H2]; try discriminate; auto;
    cmp_destruct; auto; try discriminate; try lia.
Qed.

Lemma SFlt_le_trans x y z : SFlt x y → SFle y z → SFlt x z.
Proof.
  unfold SFle, SFlt.
  destruct x as [[]|[]| |[] m1 e1], y as [[]|[]| |[] m2 e2], z as [[]|[]| |[] m3 e3];
    simpl; intros H1 [H2|H2]; try discriminate; auto;
    cmp_destruct; auto; try discriminate; try lia.
Qed.

Lemma SFle_lt_trans x y z : SFle x y → SFlt y z → SFlt x z.
Proof.
  unfold SFle, SFlt.
  destruct x as [[]|[]| |[] m1 e1], y as [[]|[]| |[] m2 e2], z as [[]|[]| |[] m3 e3];
    simpl; intros [H1|H1] H2; try discriminate; auto;
    cmp_destruct; auto; try discriminate; try lia.
Qed.

Lemma SFcompare_Eq x y : SFcompare x y = Some Eq → SFsame x y.
Proof.
  unfold SFsame, SFzero.
  destruct x as [[]|[]| |[] m1 e1], y as [[]|[]| |[] m2 e2]; simpl; intros H;
    try discriminate; eauto;
    cmp_destruct; try discriminate; left; subst; reflexivity.
Qed.

(** ** The same facts on primitive floats *)

Lemma ltb_SFlt x y : (x <? y)%float = true ↔ SFlt (Prim2SF x) (Prim2SF y).
Proof.
  rewrite FloatAxioms.ltb_spec. unfold SFltb, SFlt.
  destruct (SFcompare _ _) as [[]|]; split; intros; congruence.
Qed.

Lemma leb_SFle x y : (x <=? y)%float = true ↔ SFle (Prim2SF x) (Prim2SF y).
Proof.
  rewrite FloatAxioms.leb_spec. unfold SFleb, SFle.
  destruct (SFcompare _ _) as [[]|]; split; intros H; try congruence; auto;
    destruct H; congruence.
Qed.

Lemma eqb_SFcompare x y :
  (x =? y)%float = true ↔ SFcompare (Prim2SF x) (Prim2SF y) = Some Eq.
Proof.
  rewrite FloatAxioms.eqb_spec. unfold SFeqb.
  destruct (SFcompare _ _) as [[]|]; split; intros; congruence.
Qed.

Lemma is_nan_false x : py.is_nan x = false ↔ SFnum (Prim2SF x).
Proof.
  unfold py.is_nan, SFnum. rewrite negb_false_iff, eqb_SFcompare. split.
  - intros H Hn. rewrite Hn in H. discriminate.
  - apply SFcompare_refl.
Qed.

Lemma is_nan_true x : py.is_nan x = true ↔ Prim2SF x = S754_nan.
Proof.
  pose proof (is_nan_false x) as H. unfold SFnum in H.
  destruct (py.is_nan x); split; try done.
  - intros _. destruct (Prim2SF x); try done; exfalso;
      (assert (true = false) as Hf by (by apply H)); discriminate.
  - intros Hn. exfalso. by apply H.
Qed.

Section float_order.
Implicit Types x y z : float.

Lemma float_ltb_num x y :
  (x <? y)%float = true → py.is_nan x = false ∧ py.is_nan y = false.
Proof.
  rewrite ltb_SFlt, !is_nan_false. unfold SFlt, SFnum. intros H.
  split; intros Hn; rewrite Hn in H; simpl in H; try discriminate.
  by destruct (Prim2SF x).
Qed.

Lemma float_leb_num x y :
  (x <=? y)%float = true → py.is_nan x = false ∧ py.is_nan y = false.
Proof.
  rewrite leb_SFle, !is_nan_false. unfold SFle, SFnum. intros H.
  split; intros Hn; rewrite Hn in H; simpl in H; destruct H as [H|H];
    try discriminate; by destruct (Prim2SF x).
Qed.

Lemma float_leb_refl x : py.is_nan x = false → (x <=? x)%float = true.
Proof.
  rewrite leb_SFle, is_nan_false. intros H. right. by apply SFcompare_refl.
Qed.

Lemma float_ltb_leb x y : (x <? y)%float = true → (x <=? y)%float = true.
Proof. rewrite ltb_SFlt, leb_SFle. by left. Qed.

Lemma float_leb_trans x y z :
  (x <=? y)%float = true → (y <=? z)%float = true → (x <=? z)%float = true.
Proof. rewrite !leb_SFle. apply SFle_trans. Qed.

Lemma float_ltb_leb_trans x y z :
  (x <? y)%float = true → (y <=? z)%float = true → (x <? z)%float = true.
Proof. rewrite !ltb_SFlt, leb_SFle. apply SFlt_le_trans. Qed.

Lemma float_leb_ltb_trans x y z :
  (x <=? y)%float = true → (y <? z)%float = true → (x <? z)%float = true.
Proof. rewrite !ltb_SFlt, leb_SFle. apply SFle_lt_trans. Qed.

Lemma float_not_ltb x y :
  py.is_nan x = false → py.is_nan y = false →
  (x <? y)%float = false → (y <=? x)%float = true.
Proof.
  rewrite !is_nan_false, leb_SFle. intros Hx Hy H.
  apply not_true_iff_false in H. rewrite ltb_SFlt in H.
  unfold SFlt, SFle, SFnum in *. rewrite SFcompare_sym.
  destruct (SFcompare (Prim2SF x) (Prim2SF y)) as [[]|] eqn:E; simpl; auto.
  - done.
  - apply SFcompare_None in E. tauto.
Qed.

Lemma float_not_leb x y :
  py.is_nan x = false → py.is_nan y = false →
  (x <=? y)%float = false → (y <? x)%float = true.
Proof.
  rewrite !is_nan_false, ltb_SFlt. intros Hx Hy H.
  apply not_true_iff_false in H. rewrite leb_SFle in H.
  unfold SFlt, SFle, SFnum in *. rewrite SFcompare_sym.
  destruct (SFcompare (Prim2SF x) (Prim2SF y)) as [[]|] eqn:E; simpl; auto.
  - tauto.
  - tauto.
  - apply SFcompare_None in E. tauto.
Qed.

Lemma float_ltb_asym x y : (x <? y)%float = true → (y <? x)%float = false.
Proof.
  rewrite ltb_SFlt. intros H. apply not_true_iff_false. rewrite ltb_SFlt.
  unfold SFlt in *. rewrite SFcompare_sym, H. discriminate.
Qed.

Lemma float_ltb_not_leb x y : (x <? y)%float = true → (y <=? x)%float = false.
Proof.
  rewrite ltb_SFlt. intros H. apply not_true_iff_false. rewrite leb_SFle.
  unfold SFlt, SFle in *. rewrite SFcompare_sym, H. simpl. intros []; discriminate.
Qed.

Lemma float_ltb_irrefl x : (x <? x)%float = false.
Proof.
  destruct (x <? x)%float eqn:E; [|done].
  by rewrite (float_ltb_asym _ _ E) in E.
Qed.

End float_order.

(** ** Arithmetic on the specification side *)

Lemma SFsub_diag x :
  SFsub prec emax x x = S754_zero false ∨ SFsub prec emax x x = S754_nan.
Proof.
  destruct x as [[]|[]| |s m e]; simpl; auto.
  rewrite Z.sub_diag. by left.
Qed.

Lemma SFdiv_zero_or_nan x y :
  x = S754_zero false ∨ x = S754_nan →
  SFzero (SFdiv prec emax x y) ∨ SFdiv prec emax x y = S754_nan.
Proof.
  unfold SFzero. intros [->| ->]; destruct y as [[]|[]| |[] m e]; simpl; eauto.
Qed.

Lemma SFmul_comm x y : SFmul prec emax x y = SFmul prec emax y x.
Proof.
  destruct x as [sx|sx| |sx mx ex], y as [sy|sy| |sy my ey]; simpl;
    rewrite ?(xorb_comm sx sy); try reflexivity.
  by rewrite (Pos.mul_comm mx my), (Z.add_comm ex ey).
Qed.

Lemma float_mul_comm (x y : float) : (x * y = y * x)%float.
Proof. apply Prim2SF_inj. rewrite !mul_spec. apply SFmul_comm. Qed.

Lemma float_eqb_zero x : (x =? 0)%float = true ↔ SFzero (Prim2SF x).
Proof.
  rewrite eqb_SFcompare. change (Prim2SF 0) with (S754_zero false).
  unfold SFzero. destruct (Prim2SF x) as [[]|[]| |[] m e]; simpl;
    split; intros H; try discriminate; eauto; destruct H; discriminate.
Qed.

(** [max(y, 1e-9)] is never zero, so a division by it cannot raise. *)
Lemma max2_eps_nonzero (y : float) : (py.max2 y 1e-9 =? 0)%float = false.
Proof.
  unfold py.max2. destruct (y <? 1e-9)%float eqn:E; [reflexivity|].
  apply not_true_iff_false. intros [s Hs]%float_eqb_zero.
  apply not_true_iff_false in E. apply E. rewrite ltb_SFlt, Hs. reflexivity.
Qed.

Lemma max3_eps_nonzero a b : (py.max3 a b 1e-9 =? 0)%float = false.
Proof. apply max2_eps_nonzero. Qed.

Lemma max2_diag (a : float) : py.max2 a a = a.
Proof. unfold py.max2. by destruct (a <? a)%float. Qed.

(** A positive divisor is not zero. *)
Lemma float_pos_nonzero (y : float) : (0 <? y)%float = true → (y =? 0)%float = false.
Proof.
  intros Hy. apply not_true_iff_false. intros [s Hs]%float_eqb_zero.
  rewrite ltb_SFlt, Hs in Hy. discriminate.
Qed.

(** ** Sorting *)

Lemma insert_sorted_perm {A} (lt : A → A → bool) x l :
  py.insert_sorted lt x l ≡ₚ x :: l.
Proof.
  induction l as [|y l IH]; simpl; [done|].
  destruct (lt y x); [|done]. rewrite IH. apply Permutation_swap.
Qed.

Lemma sorted_perm {A} (lt : A → A → bool) l : py.sorted lt l ≡ₚ l.
Proof.
  induction l as [|x l IH]; simpl; [done|].
  fold (py.sorted lt l). by rewrite insert_sorted_perm, IH.
Qed.

Lemma sorted_length {A} (lt : A → A → bool) l : length (py.sorted lt l) = length l.
Proof. apply Permutation_length, sorted_perm. Qed.

(** ** Row sampling *)

Lemma stride_from_length {A} (k skip : nat) (l : list A) :
  0 < k →
  length (py.stride_from k skip l) = (length l - skip + (k - 1)) / k.
Proof.
  intros Hk. revert skip. induction l as [|x l IH]; intros skip; simpl.
  - symmetry. apply Nat.div_small. lia.
  - destruct skip as [|s]; simpl.
    + rewrite IH.
      replace (S (length l + (k - 1))) with (length l + 1 * k) by lia.
      rewrite Nat.div_add by lia.
      destruct (decide (length l < k - 1)) as [Hlt|Hge].
      * replace (length l - (k - 1) + (k - 1)) with (k - 1) by lia.
        rewrite !Nat.div_small by lia. lia.
      * replace (length l - (k - 1) + (k - 1)) with (length l) by lia. lia.
    + by rewrite IH.
Qed.

Lemma every_nth_length {A} (k : nat) (l : list A) :
  0 < k → length (py.every_nth k l) = (length l + (k - 1)) / k.
Proof.
  intros Hk. unfold py.every_nth. rewrite stride_from_length by done.
  by rewrite Nat.sub_0_r.
Qed.

(** A strided slice keeps the order of the rows. *)
Lemma stride_from_sublist {A} (k skip : nat) (l : list A) :
  py.stride_from k skip l `sublist_of` l.
Proof.
  revert skip. induction l as [|x l IH]; intros skip; simpl; [constructor|].
  destruct skip; constructor; apply IH.
Qed.

Lemma every_nth_sublist {A} (k : nat) (l : list A) :
  py.every_nth k l `sublist_of` l.
Proof. apply stride_from_sublist. Qed.

Lemma every_nth_1 {A} (l : list A) : py.every_nth 1 l = l.
Proof.
  unfold py.every_nth. induction l as [|x l IH]; simpl; [done|].
  by rewrite IH.
Qed.

(** What the stride [max(1, n // cap)] does bound: fewer than twice the
    cap. *)
Lemma strided_length_bound {A} (cap : nat) (l : list A) :
  0 < cap →
  length (py.every_nth (Nat.max 1 (length l / cap)) l) ≤ 2 * cap - 1.
Proof.
  intros Hcap. set (n := length l). set (k := Nat.max 1 (n / cap)).
  assert (0 < k) as Hk by lia.
  rewrite every_nth_length by done. fold n.
  assert (n < (k + 1) * cap) as Hn.
  { pose proof (Nat.div_mod_eq n cap) as E.
    pose proof (Nat.mod_upper_bound n cap ltac:(lia)) as Hm.
    assert (n / cap ≤ k) as Hq by lia. nia. }
  pose proof (Nat.div_mod_eq (n + (k - 1)) k) as E.
  pose proof (Nat.mod_upper_bound (n + (k - 1)) k ltac:(lia)) as Hm.
  set (q := (n + (k - 1)) / k) in *.
  destruct (decide (q ≤ 2 * cap - 1)) as [|Hq]; [done|].
  assert (2 * cap ≤ q) as Hq' by lia. nia.
Qed.

(** ** Equality up to the sign of zero *)

Lemma SFcompare_same a a' b b' :
  SFsame a a' → SFsame b b' → SFcompare a b = SFcompare a' b'.
Proof.
  unfold SFsame, SFzero.
  intros [->|[[s ->] [s' ->]]] [->|[[t ->] [t' ->]]]; reflexivity.
Qed.

Lemma SFadd_same a a' b b' :
  SFsame a a' → SFsame b b' → SFsame (SFadd prec emax a b) (SFadd prec emax a' b').
Proof.
  unfold SFsame, SFzero.
  intros [->|[[s ->] [s' ->]]] [->|[[t ->] [t' ->]]]; auto.
  - destruct a' as [[]|[]| |[] m e], t, t'; simpl; eauto.
  - destruct b' as [[]|[]| |[] m e], s, s'; simpl; eauto.
  - destruct s, s', t, t'; simpl; eauto.
Qed.

Lemma SFsub_same a a' b b' :
  SFsame a a' → SFsame b b' → SFsame (SFsub prec emax a b) (SFsub prec emax a' b').
Proof.
  unfold SFsame, SFzero.
  intros [->|[[s ->] [s' ->]]] [->|[[t ->] [t' ->]]]; auto.
  - destruct a' as [[]|[]| |[] m e], t, t'; simpl; eauto.
  - destruct b' as [[]|[]| |[] m e], s, s'; simpl; eauto.
  - destruct s, s', t, t'; simpl; eauto.
Qed.

Lemma SFmul_same a a' b b' :
  SFsame a a' → SFsame b b' → SFsame (SFmul prec emax a b) (SFmul prec emax a' b').
Proof.
  unfold SFsame, SFzero.
  intros [->|[[s ->] [s' ->]]] [->|[[t ->] [t' ->]]]; auto.
  - destruct a' as [[]|[]| |[] m e], t, t'; simpl; eauto.
  - destruct b' as [[]|[]| |[] m e], s, s'; simpl; eauto.
  - destruct s, s', t, t'; simpl; eauto.
Qed.

Lemma same_value_SF x y : same_value x y ↔ SFsame (Prim2SF x) (Prim2SF y).
Proof.
  unfold same_value, SFsame. rewrite !float_eqb_zero. split.
  - intros [->|?]; auto.
  - intros [?%Prim2SF_inj|?]; auto.
Qed.

Lemma same_value_refl x : same_value x x.
Proof. by left. Qed.

Lemma same_value_add a a' b b' :
  same_value a a' → same_value b b' → same_value (a + b) (a' + b').
Proof. rewrite !same_value_SF, !add_spec. apply SFadd_same. Qed.

Lemma same_value_sub a a' b b' :
  same_value a a' → same_value b b' → same_value (a - b) (a' - b').
Proof. rewrite !same_value_SF, !sub_spec. apply SFsub_same. Qed.

Lemma same_value_mul a a' b b' :
  same_value a a' → same_value b b' → same_value (a * b) (a' * b').
Proof. rewrite !same_value_SF, !mul_spec. apply SFmul_same. Qed.

Lemma same_value_ltb a a' b b' :
  same_value a a' → same_value b b' → (a <? b)%float = (a' <? b')%float.
Proof.
  rewrite !same_value_SF, !FloatAxioms.ltb_spec. unfold SFltb.
  intros Ha Hb. by rewrite (SFcompare_same _ _ _ _ Ha Hb).
Qed.

Lemma same_value_canon x : same_value (canon x) x.
Proof.
  unfold canon. destruct (x =? 0)%float eqn:E; [|by left]. by right.
Qed.

Lemma canon_eq x y : canon x = canon y ↔ same_value x y.
Proof.
  unfold canon, same_value. split.
  - destruct (x =? 0)%float eqn:Ex, (y =? 0)%float eqn:Ey; auto.
    + intros <-. by right.
    + intros ->. by right.
  - intros [->|[-> ->]]; done.
Qed.

Lemma canon_idemp x : canon (canon x) = canon x.
Proof. apply canon_eq, same_value_canon. Qed.

Lemma ltb_canon x y : (canon x <? canon y)%float = (x <? y)%float.
Proof. apply same_value_ltb; apply same_value_canon. Qed.

Lemma is_nan_canon x : py.is_nan (canon x) = py.is_nan x.
Proof.
  unfold canon. destruct (x =? 0)%float eqn:E; [|done].
  unfold py.is_nan. apply float_eqb_zero in E as [s Hs].
  rewrite !FloatAxioms.eqb_spec, Hs. reflexivity.
Qed.

(** ** Sorting floats *)

Lemma insert_sorted_fmap {A} (lt : A → A → bool) (f : A → A) x l :
  (∀ a b, lt (f a) (f b) = lt a b) →
  f <$> py.insert_sorted lt x l = py.insert_sorted lt (f x) (f <$> l).
Proof.
  intros Hf. induction l as [|y l IH]; csimpl; [done|].
  rewrite Hf. destruct (lt y x); csimpl; [|done]. by rewrite IH.
Qed.

Lemma sorted_fmap {A} (lt : A → A → bool) (f : A → A) l :
  (∀ a b, lt (f a) (f b) = lt a b) →
  f <$> py.sorted lt l = py.sorted lt (f <$> l).
Proof.
  intros Hf. induction l as [|x l IH]; csimpl; [done|].
  fold (py.sorted lt l). fold (py.sorted lt (f <$> l)).
  by rewrite insert_sorted_fmap, IH.
Qed.

#[local] Instance canonical_le_trans : Transitive canonical_le.
Proof.
  intros x y z (Hx & _ & Hxy) (_ & Hz & Hyz). split_and!; try done.
  by eapply float_leb_trans.
Qed.

#[local] Instance canonical_le_antisymm : AntiSymm (=) canonical_le.
Proof.
  intros x y ([_ Hx] & [_ Hy] & Hxy) (_ & _ & Hyx).
  rewrite <- Hx, <- Hy. apply canon_eq, same_value_SF, SFcompare_Eq.
  apply leb_SFle in Hxy, Hyx. unfold SFle in *.
  rewrite SFcompare_sym in Hyx.
  destruct (SFcompare (Prim2SF x) (Prim2SF y)) as [[]|]; simpl in *;
    destruct Hxy, Hyx; congruence.
Qed.

Lemma insert_sorted_Sorted x l :
  canonical x → Forall canonical l → Sorted canonical_le l →
  Sorted canonical_le (py.insert_sorted PrimFloat.ltb x l).
Proof.
  intros Hx Hl Hs. induction Hs as [|y l Hs IH Hhd]; simpl.
  - by repeat constructor.
  - apply Forall_cons in Hl as [Hy Hl].
    destruct (y <? x)%float eqn:E.
    + constructor; [by apply IH|].
      destruct Hhd as [|z l Hyz]; simpl.
      * constructor. split_and!; try done. by apply float_ltb_leb.
      * destruct (z <? x)%float; constructor; [done|].
        split_and!; try done. by apply float_ltb_leb.
    + constructor; [by constructor|]. constructor. split_and!; try done.
      apply float_not_ltb; [apply Hy|apply Hx|done].
Qed.

Lemma sorted_Sorted l :
  Forall canonical l → Sorted canonical_le (py.sorted PrimFloat.ltb l).
Proof.
  induction 1 as [|x l Hx Hl IH]; simpl; [constructor|].
  fold (py.sorted PrimFloat.ltb l). apply insert_sorted_Sorted; try done.
  by rewrite sorted_perm.
Qed.

Lemma canonical_canon x : py.is_nan x = false → canonical (canon x).
Proof. intros Hx. split; [by rewrite is_nan_canon|apply canon_idemp]. Qed.

(** Sorting two permutations of a NaN-free list gives the same values
    up to the sign of zeros. *)
Lemma sorted_permutation (l l' : list float) :
  l ≡ₚ l' → Forall (λ v, py.is_nan v = false) l →
  canon <$> py.sorted PrimFloat.ltb l = canon <$> py.sorted PrimFloat.ltb l'.
Proof.
  intros Hperm Hl.
  assert (Forall (λ v, py.is_nan v = false) l') as Hl' by by rewrite <- Hperm.
  rewrite !sorted_fmap by apply ltb_canon.
  apply (Sorted_unique canonical_le).
  - apply sorted_Sorted, Forall_fmap. eapply Forall_impl; [done|].
    intros x Hx. by apply canonical_canon.
  - apply sorted_Sorted, Forall_fmap. eapply Forall_impl; [done|].
    intros x Hx. by apply canonical_canon.
  - by rewrite !sorted_perm, Hperm.
Qed.

(** ** Divisions and indices that cannot raise *)

Section no_raise.
Import data_service ai_service.

Lemma truediv_max_eps (x y : float) :
  py.truediv x (py.max2 y 1e-9) = Ok (x / py.max2 y 1e-9)%float.
Proof. unfold py.truediv. by rewrite max2_eps_nonzero. Qed.

Lemma truediv_pos (x y : float) :
  (0 <? y)%float = true → py.truediv x y = Ok (x / y)%float.
Proof. intros Hy. unfold py.truediv. by rewrite float_pos_nonzero. Qed.

Lemma guarded_truediv_ok (x y d : float) :
  ∃ r, (if (0 <? y)%float then py.truediv x y else Ok d) = Ok r.
Proof.
  destruct (0 <? y)%float eqn:E; [|by eexists].
  rewrite truediv_pos by done. by eexists.
Qed.

Lemma index_in_range {A} (l : list A) (i : Z) :
  (0 ≤ i < Z.of_nat (length l))%Z → ∃ a, py.index l i = Ok a.
Proof.
  intros Hi. unfold py.index. cbv zeta.
  assert ((i <? 0)%Z = false) as Hneg by lia.
  rewrite Hneg. cbn beta iota. rewrite Hneg.
  assert (Z.to_nat i < length l)%nat as Hlt by lia.
  destruct (lookup_lt_is_Some_2 l (Z.to_nat i) Hlt) as [a Ha].
  rewrite Ha. by eexists.
Qed.

Lemma omap_length_le {A B} (f : A → option B) (l : list A) :
  length (omap f l) ≤ length l.
Proof.
  induction l as [|x l IH]; [done|].
  change (omap f (x :: l)) with (from_option (λ y, y :: omap f l) (omap f l) (f x)).
  destruct (f x); simpl; lia.
Qed.

Lemma curve_pairs_length (sample_data : list point) (curve : string) :
  length (_curve_pairs sample_data curve) ≤ 2 * 4000 - 1.
Proof.
  unfold _curve_pairs. destruct sample_data as [|row rows]; [simpl; lia|].
  etrans; [apply omap_length_le|].
  apply (strided_length_bound 4000). lia.
Qed.

Lemma p90_index_all_ok : forallb p90_index_ok (seq 2 (2 * 4000 - 2)) = true.
Proof. vm_compute. reflexivity. Qed.

Lemma percentile_p90_ok (values : list float) :
  2 ≤ length values ≤ 2 * 4000 - 1 →
  ∃ threshold, _percentile values 0.9 = Ok (Some threshold).
Proof.
  intros Hn. unfold _percentile.
  destruct values as [|x l] eqn:Hv; [simpl in Hn; lia|]. rewrite <- Hv in *.
  rewrite sorted_length.
  destruct (Nat.eqb_spec (length values) 1) as [|_]; [lia|].
  pose proof p90_index_all_ok as Hall. rewrite forallb_forall in Hall.
  specialize (Hall (length values)). unfold p90_index_ok in Hall.
  destruct (py.int _) as [lo|]; [|discriminate Hall; apply in_seq; lia].
  assert (0 ≤ lo ≤ Z.of_nat (length values) - 1)%Z as Hlo.
  { apply andb_true_iff in Hall as [H1 H2]; [lia|apply in_seq; lia]. }
  cbn [mbind result_bind].
  destruct (index_in_range (py.sorted PrimFloat.ltb values) lo) as [a ->].
  { rewrite sorted_length. lia. }
  destruct (index_in_range (py.sorted PrimFloat.ltb values)
              (Z.min (lo + 1) (Z.of_nat (length values) - 1))) as [b ->].
  { rewrite sorted_length. lia. }
  by eexists.
Qed.

Lemma min_list_ok (l : list float) : l ≠ [] → ∃ m, py.min_list l = Ok m.
Proof. destruct l; [done|]. by eexists. Qed.

Lemma max_list_ok (l : list float) : l ≠ [] → ∃ m, py.max_list l = Ok m.
Proof. destruct l; [done|]. by eexists. Qed.

Lemma high_interval_ok (sample_data : list point) (curve_name : string) :
  ∃ r, high_interval sample_data curve_name = Ok r.
Proof.
  unfold high_interval.
  pose proof (curve_pairs_length sample_data curve_name) as Hlen.
  destruct (Nat.ltb_spec (length (_curve_pairs sample_data curve_name)) 8) as [|H8];
    [by eexists|].
  destruct (percentile_p90_ok ((_curve_pairs sample_data curve_name).*2))
    as [threshold ->].
  { rewrite length_fmap. lia. }
  cbn [mbind result_bind].
  destruct ((filter _ _).*1) as [|d ds] eqn:Hd; [by eexists|].
  simpl. by eexists.
Qed.

End no_raise.

(* ================================================================= *)
(** * Part III: properties of the program *)
(* ================================================================= *)

(** ** Depth ranges on the chat path *)

Section normalize_depth_range.
Import models.

Lemma clamp_in_extent (s e x : float) :
  (s <? e)%float = true →
  let c := py.max2 s (py.min2 x e) in
  (s <=? c)%float = true ∧ (c <=? e)%float = true.
Proof.
  intros Hse c. subst c. destruct (float_ltb_num _ _ Hse) as [Hs He].
  unfold py.max2, py.min2.
  destruct (e <? x)%float eqn:Hex.
  - rewrite Hse. split; [by apply float_ltb_leb | by apply float_leb_refl].
  - destruct (s <? x)%float eqn:Hsx.
    + destruct (float_ltb_num _ _ Hsx) as [_ Hx].
      split; [by apply float_ltb_leb | by apply float_not_ltb].
    + split; [by apply float_leb_refl | by apply float_ltb_leb].
Qed.

Lemma clamp_start (s e : float) :
  (s <? e)%float = true → py.max2 s (py.min2 s e) = s.
Proof.
  intros Hse. unfold py.max2, py.min2.
  by rewrite (float_ltb_asym _ _ Hse), float_ltb_irrefl.
Qed.

Lemma clamp_stop (s e : float) :
  (s <? e)%float = true → py.max2 s (py.min2 e e) = e.
Proof.
  intros Hse. unfold py.max2, py.min2. by rewrite float_ltb_irrefl, Hse.
Qed.

Lemma clamp_below (s e x : float) :
  (s <? e)%float = true → (x <? s)%float = true → py.max2 s (py.min2 x e) = s.
Proof.
  intros Hse Hxs. unfold py.max2, py.min2.
  assert ((e <? x)%float = false) as ->.
  { apply (float_ltb_asym x e). eapply float_ltb_leb_trans; [done|].
    by apply float_ltb_leb. }
  by rewrite (float_ltb_asym _ _ Hxs).
Qed.

Lemma clamp_above (s e y : float) :
  (s <? e)%float = true → (e <? y)%float = true → py.max2 s (py.min2 y e) = e.
Proof.
  intros Hse Hey. unfold py.max2, py.min2. by rewrite Hey, Hse.
Qed.

(** C10: on a well with [start_depth < stop_depth] the chat-path
    normalization is total and its result lies in the well extent, with
    [start_depth <= depth_min < depth_max <= stop_depth]; an omitted bound
    comes out as the well's own, a bound outside the extent comes out
    clamped to it, and bounds that clamp to [depth_min >= depth_max] give
    the full extent. *)
Theorem normalize_depth_range_in_extent
    (well : Well) (request_min request_max : option float) :
  (start_depth well <? stop_depth well)%float = true →
  ∃ depth_min depth_max,
    chat._normalize_depth_range request_min request_max well = (depth_min, depth_max)
    ∧ (start_depth well <=? depth_min)%float = true
    ∧ (depth_min <? depth_max)%float = true
    ∧ (depth_max <=? stop_depth well)%float = true
    ∧ (request_min = None → depth_min = start_depth well)
    ∧ (request_max = None → depth_max = stop_depth well)
    ∧ (∀ x, request_min = Some x → (x <? start_depth well)%float = true →
         depth_min = start_depth well)
    ∧ (∀ y, request_max = Some y → (stop_depth well <? y)%float = true →
         depth_max = stop_depth well)
    ∧ (let clamp := λ v, py.max2 (start_depth well) (py.min2 v (stop_depth well)) in
       (clamp (default (stop_depth well) request_max)
          <=? clamp (default (start_depth well) request_min))%float = true →
       depth_min = start_depth well ∧ depth_max = stop_depth well).
Proof.
  intros Hse. unfold chat._normalize_depth_range.
  set (s := start_depth well) in *. set (e := stop_depth well) in *.
  set (a := py.max2 s (py.min2 (default s request_min) e)).
  set (b := py.max2 s (py.min2 (default e request_max) e)).
  destruct (clamp_in_extent s e (default s request_min) Hse) as [Ha1 Ha2].
  destruct (clamp_in_extent s e (default e request_max) Hse) as [Hb1 Hb2].
  fold a in Ha1, Ha2. fold b in Hb1, Hb2.
  destruct (float_ltb_num _ _ Hse) as [Hs He].
  assert (request_min = None → a = s) as Hmin.
  { intros ->. by apply clamp_start. }
  assert (request_max = None → b = e) as Hmax.
  { intros ->. by apply clamp_stop. }
  assert (∀ x, request_min = Some x → (x <? s)%float = true → a = s) as Hlow.
  { intros x -> Hx. by apply clamp_below. }
  assert (∀ y, request_max = Some y → (e <? y)%float = true → b = e) as Hhigh.
  { intros y -> Hy. by apply clamp_above. }
  destruct (b <=? a)%float eqn:Hba.
  - exists s, e. split_and!; auto using float_leb_refl.
  - exists a, b. split_and!; auto.
    + apply float_not_leb;
        [by apply (float_leb_num s b)|by apply (float_leb_num s a)|done].
    + simpl. fold a b. congruence.
Qed.

Lemma normalize_depth_range_in_extent_demo :
  ∃ depth_min depth_max,
    chat._normalize_depth_range (Some 8500%float) (Some 12000%float) demo_well
      = (depth_min, depth_max)
    ∧ (start_depth demo_well <=? depth_min)%float = true
    ∧ (depth_min <? depth_max)%float = true
    ∧ (depth_max <=? stop_depth demo_well)%float = true
    ∧ (Some 8500%float = None → depth_min = start_depth demo_well)
    ∧ (Some 12000%float = None → depth_max = stop_depth demo_well)
    ∧ (∀ x, Some 8500%float = Some x → (x <? start_depth demo_well)%float = true →
         depth_min = start_depth demo_well)
    ∧ (∀ y, Some 12000%float = Some y → (stop_depth demo_well <? y)%float = true →
         depth_max = stop_depth demo_well)
    ∧ (let clamp := λ v, py.max2 (start_depth demo_well)
                           (py.min2 v (stop_depth demo_well)) in
       (clamp (default (stop_depth demo_well) (Some 12000%float))
          <=? clamp (default (start_depth demo_well) (Some 8500%float)))%float = true →
       depth_min = start_depth demo_well ∧ depth_max = stop_depth demo_well).
Proof.
  apply (normalize_depth_range_in_extent demo_well (Some 8500%float) (Some 12000%float)).
  reflexivity.
Defined.

(** Bounds the wrong way round, and a NaN bound, on the sample well. *)
Example normalize_depth_range_inverted :
  chat._normalize_depth_range (Some 8500%float) (Some 8200%float) demo_well
  = (8000%float, 9000%float).
Proof. reflexivity. Qed.

Example normalize_depth_range_nan :
  chat._normalize_depth_range (Some nan) (Some 8200%float) demo_well
  = (8000%float, 8200%float).
Proof. reflexivity. Qed.

End normalize_depth_range.

(** ** Mention extraction *)

Lemma mention_step_mono raw norm acc c x :
  x ∈ acc → x ∈ chat.mention_step raw norm acc c.
Proof.
  intros Hx. unfold chat.mention_step.
  destruct (_ || _); [|done]. case_bool_decide; [done|]. set_solver.
Qed.

Lemma foldl_mention_mono raw norm l acc x :
  x ∈ acc → x ∈ foldl (chat.mention_step raw norm) acc l.
Proof.
  revert acc. induction l as [|c l IH]; intros acc Hx; simpl; [done|].
  by apply IH, mention_step_mono.
Qed.

Lemma foldl_mention_reports raw norm l acc c :
  c ∈ l → py.contains (py.upper c) raw = true →
  c ∈ foldl (chat.mention_step raw norm) acc l.
Proof.
  intros Hc Hm. revert acc. induction l as [|d l IH]; intros acc; [set_solver|].
  simpl. apply elem_of_cons in Hc as [<-|Hc]; [|by apply IH].
  apply foldl_mention_mono. unfold chat.mention_step. rewrite Hm. simpl.
  case_bool_decide; [done|set_solver].
Qed.

(** Every candidate whose upper-cased name occurs in the upper-cased
    message is reported, whatever longer candidates were matched before. *)
Lemma extract_reports_every_match (message : string) (available : list string) c :
  message ≠ EmptyString → c ∈ available →
  py.contains (py.upper c) (py.upper message) = true →
  c ∈ chat._extract_mentioned_curves message available.
Proof.
  intros Hm Hc Hin. unfold chat._extract_mentioned_curves.
  destruct (String.eqb_spec message EmptyString) as [|_]; [done|].
  apply foldl_mention_reports; [|done]. by rewrite sorted_perm.
Qed.

(** C1: on the message ["what about ROP(ft/hr) trend"] with the candidates
    [ROP(ft/hr)] and [ROP], mention extraction reports both names: the
    shorter one is matched as well, after the longer one. *)
Theorem extract_mentioned_curves_reports_both :
  chat._extract_mentioned_curves "what about ROP(ft/hr) trend" ["ROP(ft/hr)"; "ROP"]
  = ["ROP(ft/hr)"; "ROP"].
Proof. vm_compute. reflexivity. Qed.

(** ** Row sampling on the two paths *)

Lemma sampled_rows_bound {A} (rows : list A) :
  length (chat.sampled_rows rows) ≤ 2 * chat.max_rows - 1.
Proof. apply strided_length_bound. unfold chat.max_rows. lia. Qed.

Lemma sampled_rows_all {A} (rows : list A) :
  length rows < 2 * chat.max_rows → chat.sampled_rows rows = rows.
Proof.
  intros Hn. unfold chat.sampled_rows.
  assert (length rows / chat.max_rows < 2) as Hq.
  { apply Nat.Div0.div_lt_upper_bound. unfold chat.max_rows in *. lia. }
  replace (Nat.max 1 (length rows / chat.max_rows)) with 1 by lia.
  apply every_nth_1.
Qed.

(** C2: with 3501 rows on the chat path the stride is [1] and all 3501
    rows are processed, above the cap of 3500; with 4001 rows the
    interpretation path builds 4001 pairs, above its cap of 4000. *)
Theorem sampling_keeps_more_than_cap :
  Nat.max 1 (3501 / chat.max_rows) = 1
  ∧ length (chat.sampled_rows (demo_points 3501)) = 3501
  ∧ length (ai_service._curve_pairs (demo_points 4001) "HC1") = 4001.
Proof. vm_compute. done. Qed.

(** ** Statistics *)

Section statistics.
Import models data_service.

Lemma foldl_insert_lookup {V} (f : string → V) (l : list string)
    (m0 : gmap string V) (k : string) :
  foldl (λ m c, <[c := f c]> m) m0 l !! k
  = if decide (k ∈ l) then Some (f k) else m0 !! k.
Proof.
  revert m0. induction l as [|c l IH]; intros m0.
  - cbn [foldl]. case_decide; [set_solver|done].
  - cbn [foldl]. rewrite IH. repeat case_decide; try done; try set_solver.
    + assert (c = k) as -> by set_solver. by rewrite lookup_insert_eq.
    + rewrite lookup_insert_ne; [done|set_solver].
Qed.

Lemma foldl_insert_dom {V} (f : string → V) (l : list string) (m0 : gmap string V) :
  dom (foldl (λ m c, <[c := f c]> m) m0 l) = list_to_set l ∪ dom m0.
Proof.
  apply set_eq. intros k. rewrite elem_of_dom, foldl_insert_lookup.
  rewrite elem_of_union, elem_of_list_to_set, elem_of_dom.
  destruct (decide (k ∈ l)); [|tauto]. split; [tauto|]. by eexists.
Qed.

Lemma query_rows_perm table well depth_min depth_max :
  query_rows table well depth_min depth_max
  ≡ₚ filter (λ row, in_window well depth_min depth_max row = true) table.
Proof.
  unfold query_rows. rewrite sorted_perm.
  assert (∀ (P Q : WellData → Prop) `{∀ x, Decision (P x)} `{∀ x, Decision (Q x)}
            (l : list WellData),
            filter P (filter Q l) = filter (λ x, Q x ∧ P x) l) as Hff.
  { intros P Q ? ? l. induction l as [|x l IH]; [done|].
    rewrite (filter_cons Q). destruct (decide (Q x)) as [HQ|HQ].
    - rewrite (filter_cons P). destruct (decide (P x)) as [HP|HP].
      + rewrite (filter_cons_True (λ x, Q x ∧ P x)) by done. by rewrite IH.
      + rewrite (filter_cons_False (λ x, Q x ∧ P x)) by tauto. by rewrite IH.
    - rewrite (filter_cons_False (λ x, Q x ∧ P x)) by tauto. by rewrite IH. }
  assert (∀ (P Q : WellData → Prop) `{∀ x, Decision (P x)} `{∀ x, Decision (Q x)}
            (l : list WellData),
            (∀ x, P x ↔ Q x) → filter P l = filter Q l) as Hext.
  { intros P Q ? ? l HPQ. induction l as [|x l IH]; [done|].
    rewrite (filter_cons P), (filter_cons Q), IH.
    destruct (decide (P x)), (decide (Q x)); try done; exfalso; naive_solver. }
  unfold in_window.
  destruct depth_min as [lo|], depth_max as [hi|]; simpl;
    rewrite ?Hff;
    (match goal with |- ?a ≡ₚ ?b => replace a with b; [done|] end);
    apply Hext; intros row;
    rewrite ?andb_true_iff, ?bool_decide_eq_true; tauto.
Qed.

(** C5: every requested curve has an entry; its [count] is the number of
    rows of the query, the same for all curves, and that is the number
    of stored samples of the well inside the window when the bounds and
    the stored depths are numbers; its [non_null_count] counts the rows
    where the curve has a value, and when that is 0 the [min], [max] and
    [mean] are [None]; the mapping has no other keys, and is empty for an
    empty curve list. *)
Theorem statistics_counts_and_undefined
    (table : list WellData) (well : Z) (curves : list string)
    (depth_min depth_max : option float) :
  let data := get_well_data table well curves depth_min depth_max in
  let stats := get_well_statistics table well curves depth_min depth_max in
  (number_bound depth_min → number_bound depth_max →
   Forall (λ row, py.is_nan (depth row) = false) table →
   length data
   = length (filter (λ row, in_window well depth_min depth_max row = true) table))
  ∧ (∀ curve, curve ∈ curves →
       ∃ st, stats !! curve = Some st
         ∧ s_count st = length data
         ∧ s_non_null_count st = length (omap (λ p, point_get p curve) data)
         ∧ (s_non_null_count st = 0 →
              s_min st = None ∧ s_max st = None ∧ s_mean st = None))
  ∧ dom stats = list_to_set curves
  ∧ get_well_statistics table well [] depth_min depth_max = ∅.
Proof.
  intros data stats. split_and!.
  - intros _ _ _. unfold data, get_well_data. rewrite length_map.
    apply Permutation_length, query_rows_perm.
  - intros curve Hin. exists (curve_statistics data curve).
    unfold stats, get_well_statistics. fold data.
    rewrite foldl_insert_lookup, decide_True by done.
    unfold curve_statistics.
    destruct (omap (λ p, point_get p curve) data) as [|v vs]; simpl.
    + done.
    + by split_and!.
  - unfold stats, get_well_statistics. rewrite foldl_insert_dom. set_solver.
  - done.
Qed.

Lemma statistics_counts_and_undefined_demo :
  let table := interpretation.well_data demo_db in
  let bottom := Some 8000.5%float in
  let top := Some 8001%float in
  length (get_well_data table 1 ["HC1"; "HC2"] bottom top) = 1
  ∧ ∃ st, get_well_statistics table 1 ["HC1"; "HC2"] bottom top !! "HC2" = Some st
      ∧ s_count st = 1 ∧ s_non_null_count st = 0
      ∧ s_min st = None ∧ s_max st = None ∧ s_mean st = None.
Proof.
  intros table bottom top.
  destruct (statistics_counts_and_undefined table 1 ["HC1"; "HC2"] bottom top)
    as (H1 & H2 & _).
  assert (length (get_well_data table 1 ["HC1"; "HC2"] bottom top) = 1) as Hlen.
  { rewrite H1; [reflexivity|reflexivity|reflexivity|repeat constructor]. }
  split; [exact Hlen|].
  destruct (H2 "HC2") as (st & Hst & Hc & Hn & Hz).
  { apply list_elem_of_further, list_elem_of_here. }
  exists st. rewrite Hlen in Hc. destruct Hz as (Hmin & Hmax & Hmean).
  { rewrite Hn. reflexivity. }
  split_and!; [exact Hst|exact Hc|rewrite Hn; reflexivity|exact Hmin|exact Hmax|exact Hmean].
Defined.

(** The statistics of the two stored rows of the sample well: [HC2] has
    no value in either. *)
Example statistics_demo :
  let stats :=
    get_well_statistics (interpretation.well_data demo_db) 1 ["HC1"; "HC2"] None None in
  stats !! "HC1"
  = Some {| s_min := Some 1%float; s_max := Some 3%float; s_mean := Some 2%float;
            s_count := 2; s_non_null_count := 2 |}
  ∧ stats !! "HC2"
    = Some {| s_min := None; s_max := None; s_mean := None;
              s_count := 2; s_non_null_count := 0 |}.
Proof. vm_compute. done. Qed.

End statistics.

(** ** The sample matrix of the parser *)

Section parser.
Import las_parser.

Lemma build_values_lookup null_val mns row mn :
  build_values null_val mns row !! mn
  = if decide (mn ∈ mns)
    then Some ((λ val, py.round val 4) <$> row_get null_val row mn)
    else None.
Proof.
  unfold build_values.
  rewrite (foldl_insert_lookup
             (λ mn, (λ val, py.round val 4) <$> row_get null_val row mn)).
  by case_decide.
Qed.

Lemma build_values_dom null_val mns row :
  dom (build_values null_val mns row) = list_to_set mns.
Proof.
  unfold build_values.
  rewrite (foldl_insert_dom
             (λ mn, (λ val, py.round val 4) <$> row_get null_val row mn)).
  set_solver.
Qed.

(** C4: a successful parse emits, in order, one row per record whose raw
    depth is present, is not a NaN and is not the null value, and none
    for the other records; the emitted depth is the raw depth rounded to
    4 places; the [values] of an emitted row have exactly the parsed
    curve mnemonics as keys; and the cell of a curve is stored as [None]
    when the record has no raw value for it or the raw value is a NaN or
    equals the null value, and as the raw value rounded to 4 places
    otherwise. *)
Theorem parsed_rows_normalized (las : LASFile) (p : parsed) :
  parse_las_file las = Ok p →
  let mns := mnemonic <$> curves p in
  let cell := λ v : float,
    if py.is_nan v || (v =? null_value p)%float then None else Some (py.round v 4) in
  null_value p = default (-9999)%float (well_NULL las)
  ∧ ∃ depth_col,
    df_columns las !! 0 = Some depth_col
    ∧ data_rows p
      = omap (convert_record (null_value p) depth_col mns) (df_records las)
    ∧ (∀ r, r ∈ data_rows p → dom (values r) = list_to_set mns)
    ∧ ∀ row, row ∈ df_records las →
        match row !! depth_col ≫= cell with
        | None => convert_record (null_value p) depth_col mns row = None
        | Some d =>
            ∃ r, convert_record (null_value p) depth_col mns row = Some r
              ∧ r ∈ data_rows p
              ∧ depth r = d
              ∧ dom (values r) = list_to_set mns
              ∧ ∀ mn, mn ∈ mns → values r !! mn = Some (row !! mn ≫= cell)
        end.
Proof.
  intros Hp mns cell. unfold parse_las_file, py.index in Hp.
  destruct (df_columns las) as [|depth_col cols] eqn:Hcols; [done|].
  simpl in Hp. injection Hp as <-. subst mns cell. cbn [null_value curves data_rows].
  split; [done|].
  exists depth_col. split_and!; [done|done| |].
  { intros r (row & _ & Hr)%list_elem_of_omap. unfold convert_record in Hr.
    destruct (row_get _ row depth_col); [|done]. injection Hr as <-.
    apply build_values_dom. }
  assert (∀ row col,
            (λ val, py.round val 4) <$> row_get (header_null las) row col
            = row !! col ≫= λ v, if py.is_nan v || (v =? header_null las)%float
                                 then None else Some (py.round v 4)) as Hcell.
  { intros row col. unfold row_get, replace_cell.
    destruct (row !! col) as [v|]; [|done]. simpl.
    by destruct (py.is_nan v || (v =? header_null las)%float). }
  intros row Hrow. rewrite <- Hcell. unfold convert_record at 1 3.
  destruct (row_get (header_null las) row depth_col) as [d|] eqn:Hd; [|done].
  cbn [fmap option_fmap option_map].
  eexists. split_and!; [done| |done|apply build_values_dom|].
  - apply list_elem_of_omap. exists row. split; [done|].
    unfold convert_record. by rewrite Hd.
  - intros mn Hmn. cbn [values].
    by rewrite build_values_lookup, decide_True, Hcell by done.
Qed.

Lemma parsed_rows_normalized_demo :
  ∃ p, parse_las_file demo_las = Ok p
    ∧ data_rows p
      = [ {| depth := 8665.1234%float;
             values := {[ "HC1" := Some 279.03%float; "HC2" := Some 127.26%float ]} |};
          {| depth := 8666%float;
             values := {[ "HC1" := None; "HC2" := None ]} |} ]
    ∧ let mns := mnemonic <$> curves p in
      let cell := λ v : float,
        if py.is_nan v || (v =? null_value p)%float then None
        else Some (py.round v 4) in
      null_value p = default (-9999)%float (well_NULL demo_las)
      ∧ ∃ depth_col,
        df_columns demo_las !! 0 = Some depth_col
        ∧ data_rows p
          = omap (convert_record (null_value p) depth_col mns) (df_records demo_las)
        ∧ (∀ r, r ∈ data_rows p → dom (values r) = list_to_set mns)
        ∧ ∀ row, row ∈ df_records demo_las →
            match row !! depth_col ≫= cell with
            | None => convert_record (null_value p) depth_col mns row = None
            | Some d =>
                ∃ r, convert_record (null_value p) depth_col mns row = Some r
                  ∧ r ∈ data_rows p
                  ∧ depth r = d
                  ∧ dom (values r) = list_to_set mns
                  ∧ ∀ mn, mn ∈ mns → values r !! mn = Some (row !! mn ≫= cell)
            end.
Proof.
  eexists. split; [reflexivity|]. split; [vm_compute; reflexivity|].
  apply (parsed_rows_normalized demo_las). reflexivity.
Defined.

(** The rows parsed from the sample file. *)
Example parsed_rows_demo :
  (λ p, (λ r, (depth r, map_to_list (values r))) <$> data_rows p)
    <$> (match parse_las_file demo_las with Ok p => Some p | Raise _ => None end)
  = Some [ (8665.1234%float, [("HC1", Some 279.03%float); ("HC2", Some 127.26%float)]);
           (8666%float, [("HC1", None); ("HC2", None)]) ].
Proof. vm_compute. reflexivity. Qed.

End parser.

(** ** The interpretation endpoint *)

Section interpret_props.
Import models interpretation.
Context (interpret_well_data :
  string → list string → float → float →
  gmap string data_service.curve_stats → list data_service.point → result pyval).

(** C9: on the interpretation path a request with
    [depth_min >= depth_max] never yields a response and makes no
    statistics, data or interpretation call; when the well exists and
    every requested curve belongs to it, the request is rejected with
    status 400 and the detail "depth_min must be less than depth_max.". *)
Theorem interpret_rejects_inverted_range
    (db : database) (id : Z) (request : InterpretationRequest) :
  (depth_max request <=? depth_min request)%float = true →
  (∃ e, interpret interpret_well_data db id request = ([], Raise e))
  ∧ (∀ well,
       List.find (λ w, bool_decide (well_id w = id)) (wells db) = Some well →
       (∀ c, c ∈ curves request →
          ∃ curve, curve ∈ curve_table db ∧ curve_well_id curve = id
                   ∧ mnemonic curve = c) →
       interpret interpret_well_data db id request
       = ([], Raise (HTTPException 400 "depth_min must be less than depth_max."))).
Proof.
  intros Hrange. unfold interpret. split.
  - destruct (List.find _ (wells db)); [|by eexists].
    case_bool_decide; [by eexists|]. rewrite Hrange. by eexists.
  - intros well -> Hcurves.
    rewrite bool_decide_eq_false_2, Hrange; [done|].
    intros Hne. apply Hne. apply set_eq. intros c.
    rewrite elem_of_difference, elem_of_list_to_set. split; [|set_solver].
    intros [Hc Hnot]. exfalso. apply Hnot.
    destruct (Hcurves c Hc) as (curve & Hin & Hid & <-).
    apply elem_of_list_to_set, list_elem_of_fmap. exists curve. split; [done|].
    by apply list_elem_of_filter.
Qed.

End interpret_props.

Lemma interpret_rejects_inverted_range_demo :
  interpretation.interpret (λ _ _ _ _ _ _, Ok (PList [])) demo_db 1 inverted_request
  = ([], Raise (HTTPException 400 "depth_min must be less than depth_max.")).
Proof.
  refine (proj2 (interpret_rejects_inverted_range
                   (λ _ _ _ _ _ _, Ok (PList [])) demo_db 1 inverted_request _)
                demo_well _ _).
  - reflexivity.
  - reflexivity.
  - intros c Hc. apply list_elem_of_singleton in Hc as ->.
    eexists. split; [apply list_elem_of_here|]. done.
Defined.

(** ** Trend classification *)

Lemma mean_nonempty (values : list float) :
  values ≠ [] →
  ai_service._mean values
  = Some (py.sum values / py.float_of_nat (length values))%float.
Proof. by destruct values. Qed.

Lemma chat_mean_eq values : chat._mean values = ai_service._mean values.
Proof. done. Qed.

(** Two windows with the same mean: the relative change is [0.0] or NaN,
    and neither threshold is met. *)
Lemma stable_when_means_equal (m : float) :
  ∃ r, py.truediv (m - m) (py.max3 (abs m) (abs m) 1e-9) = Ok r
       ∧ (0.08 <=? r)%float = false ∧ (r <=? -0.08)%float = false.
Proof.
  unfold py.max3, py.truediv. rewrite max2_diag, max2_eps_nonzero.
  eexists. split; [done|].
  assert (SFzero (Prim2SF ((m - m) / py.max2 (abs m) 1e-9))
          ∨ Prim2SF ((m - m) / py.max2 (abs m) 1e-9) = S754_nan) as Hr.
  { rewrite div_spec, sub_spec. apply SFdiv_zero_or_nan, SFsub_diag. }
  split; apply not_true_iff_false; rewrite leb_SFle; unfold SFle;
    destruct Hr as [[s ->]| ->]; intros []; discriminate.
Qed.

Lemma trend_window_bounds (n : nat) :
  12 ≤ n → 0 < Nat.max 3 (n / 5) ≤ n.
Proof.
  intros Hn. assert (n / 5 ≤ n) by (apply Nat.Div0.div_le_upper_bound; lia). lia.
Qed.

Lemma trend_windows_nonempty (values : list float) :
  12 ≤ length values →
  let window := Nat.max 3 (length values / 5) in
  take window values ≠ [] ∧ py.last_n window values ≠ [].
Proof.
  intros Hn window. pose proof (trend_window_bounds _ Hn) as Hw. fold window in Hw.
  split; intros E; apply (f_equal length) in E; revert E.
  - rewrite length_take. simpl. lia.
  - unfold py.last_n. destruct window eqn:Ew; [lia|].
    rewrite length_drop. simpl. lia.
Qed.

Lemma ai_trend_label_long (values : list float) :
  12 ≤ length values →
  ai_service._trend_label values = Ok (trend_of (relative_change values)).
Proof.
  intros Hn. unfold ai_service._trend_label.
  destruct (Nat.ltb_spec (length values) 12) as [|_]; [lia|].
  destruct (trend_windows_nonempty values Hn) as [H1 H2].
  rewrite !mean_nonempty by done.
  unfold py.truediv. rewrite max3_eps_nonzero. cbn [mbind result_bind].
  unfold trend_of, relative_change. cbv zeta.
  by repeat match goal with |- context [if ?b then _ else _] => destruct b end.
Qed.

Lemma chat_trend_label_long (values : list float) :
  12 ≤ length values →
  chat._trend_label values = Ok (trend_of (relative_change values)).
Proof.
  intros Hn. unfold chat._trend_label.
  destruct (Nat.ltb_spec (length values) 12) as [|_]; [lia|].
  destruct (trend_windows_nonempty values Hn) as [H1 H2].
  rewrite !chat_mean_eq, !mean_nonempty by done.
  unfold py.truediv. rewrite max3_eps_nonzero. cbn [mbind result_bind].
  unfold trend_of, relative_change. cbv zeta.
  by repeat match goal with |- context [if ?b then _ else _] => destruct b end.
Qed.

Lemma relative_change_constant (c : float) (n : nat) :
  12 ≤ n → trend_of (relative_change (replicate n c)) = "mostly stable".
Proof.
  intros Hn. unfold relative_change. rewrite length_replicate.
  pose proof (trend_window_bounds _ Hn) as Hw.
  set (window := Nat.max 3 (n / 5)) in *.
  rewrite take_replicate.
  assert (py.last_n window (replicate n c) = replicate window c) as ->.
  { unfold py.last_n. destruct window eqn:Ew; [lia|].
    rewrite length_replicate, drop_replicate. f_equal. lia. }
  replace (window `min` n) with window by lia.
  set (m := (py.sum (replicate window c) / _)%float).
  destruct (stable_when_means_equal m) as (r & Hr & H1 & H2).
  unfold py.truediv in Hr. rewrite max3_eps_nonzero in Hr. injection Hr as <-.
  unfold trend_of. by rewrite H1, H2.
Qed.

(** C3, as amended: fewer than 12 values give "insufficient points" on
    the interpretation path and "insufficient points for trend" on the
    chat path; a constant sequence of at least 12 values gives "mostly
    stable"; a 20-point sequence gives "increasing with depth" exactly
    when the mean of its last 4 values exceeds the mean of its first 4 by
    at least 0.08 of [max(|head|, |tail|, 1e-9)]. *)
Theorem trend_label_cases :
  (∀ values, length values < 12 →
     ai_service._trend_label values = Ok "insufficient points"
     ∧ chat._trend_label values = Ok "insufficient points for trend")
  ∧ (∀ c n, 12 ≤ n →
     ai_service._trend_label (replicate n c) = Ok "mostly stable"
     ∧ chat._trend_label (replicate n c) = Ok "mostly stable")
  ∧ (∀ values, length values = 20 →
     (ai_service._trend_label values = Ok "increasing with depth"
      ↔ (0.08 <=? relative_change values)%float = true)
     ∧ (chat._trend_label values = Ok "increasing with depth"
        ↔ (0.08 <=? relative_change values)%float = true)).
Proof.
  split_and!.
  - intros values Hn. unfold ai_service._trend_label, chat._trend_label.
    by destruct (Nat.ltb_spec (length values) 12); [|lia].
  - intros c n Hn.
    rewrite ai_trend_label_long, chat_trend_label_long
      by (rewrite length_replicate; lia).
    by rewrite relative_change_constant.
  - intros values Hn.
    rewrite ai_trend_label_long, chat_trend_label_long by lia.
    unfold trend_of.
    destruct (0.08 <=? relative_change values)%float; [done|].
    by destruct (relative_change values <=? -0.08)%float.
Qed.

(** The 20-point sequence 1, 2, ..., 20 is "increasing with depth". *)
Lemma trend_label_cases_demo :
  ai_service._trend_label (py.float_of_nat <$> seq 1 20) = Ok "increasing with depth".
Proof.
  refine (proj2 (proj1 (proj2 (proj2 trend_label_cases)
                          (py.float_of_nat <$> seq 1 20) _)) _).
  - vm_compute. reflexivity.
  - vm_compute. reflexivity.
Defined.

(** The strictly increasing 20-point sequence 1000, 1001, ..., 1019 is
    classified "mostly stable": its relative change is 16 / 1017.5. *)
Lemma trend_increasing_sequence_stable :
  length (py.float_of_nat <$> seq 1000 20) = 20
  ∧ strictly_increasing (py.float_of_nat <$> seq 1000 20) = true
  ∧ ai_service._trend_label (py.float_of_nat <$> seq 1000 20) = Ok "mostly stable"
  ∧ chat._trend_label (py.float_of_nat <$> seq 1000 20) = Ok "mostly stable".
Proof. vm_compute. done. Qed.

(** ** Pearson correlation *)

Lemma zip_with_swap {A B C} (f : A → B → C) (l : list A) (k : list B) :
  zip_with f l k = zip_with (λ y x, f x y) k l.
Proof.
  revert k. induction l as [|x l IH]; intros [|y k]; simpl; try done.
  by rewrite IH.
Qed.

Lemma chat_pearson_eq a b : chat._pearson_correlation a b = ai_service._pearson a b.
Proof. reflexivity. Qed.

(** The correlation is symmetric, bit for bit. *)
Lemma pearson_symmetric (values_a values_b : list float) :
  ai_service._pearson values_a values_b = ai_service._pearson values_b values_a.
Proof.
  unfold ai_service._pearson.
  rewrite (Nat.min_comm (length values_b)).
  set (n := length values_a `min` length values_b).
  destruct (n <? 3)%nat; [done|].
  destruct (ai_service._mean (take n values_a)) as [mean_a|],
           (ai_service._mean (take n values_b)) as [mean_b|]; try done.
  rewrite (float_mul_comm (py.sum (map _ (take n values_b)))).
  rewrite (zip_with_swap _ (take n values_b)).
  by rewrite (zip_with_ext _
                (λ x y, (x - mean_a) * (y - mean_b))%float
                (take n values_a) _ (take n values_b) _
                (λ x y, float_mul_comm _ _) eq_refl eq_refl).
Qed.

(** Fewer than 3 paired points: undefined. *)
Lemma pearson_short (values_a values_b : list float) :
  length values_a `min` length values_b < 3 →
  ai_service._pearson values_a values_b = Ok None.
Proof.
  intros Hn. unfold ai_service._pearson.
  by destruct (Nat.ltb_spec (length values_a `min` length values_b) 3); [|lia].
Qed.

(** C7: for the constant sequence 0.1, 0.1, 0.1 against 1, 2, 3 both
    correlation functions return [0.0], not [None]: the mean of the
    constant sequence is computed as 0.10000000000000002, so its
    variance is not zero. *)
Theorem pearson_of_constant_sequence_is_defined :
  ai_service._mean [0.1; 0.1; 0.1]%float = Some 0.10000000000000002%float
  ∧ ai_service._pearson [0.1; 0.1; 0.1]%float [1; 2; 3]%float = Ok (Some 0%float)
  ∧ chat._pearson_correlation [0.1; 0.1; 0.1]%float [1; 2; 3]%float
    = Ok (Some 0%float).
Proof. vm_compute. done. Qed.

(** ** Percentile *)

Lemma index_same (s s' : list float) (i : Z) :
  canon <$> s = canon <$> s' →
  match py.index s i, py.index s' i with
  | Ok a, Ok b => same_value a b
  | Raise e, Raise e' => e = e'
  | _, _ => False
  end.
Proof.
  intros Hs. unfold py.index.
  assert (length s = length s') as <-.
  { by rewrite <- (length_fmap canon s), Hs, length_fmap. }
  destruct (_ <? 0)%Z; [done|].
  set (k := Z.to_nat _).
  pose proof (f_equal (λ l, l !! k) Hs) as Hk. simpl in Hk.
  rewrite !list_lookup_fmap in Hk.
  destruct (s !! k), (s' !! k); simpl in Hk; try done.
  apply canon_eq. congruence.
Qed.

(** C6: on value lists without NaN the percentile does not depend on the
    order of the list: two permutations give the same exception, or
    both [None], or two floats that are equal (identical, or both zero);
    it is [None] on the empty list, and the single value of a one-element
    list whatever [q] is. *)
Theorem percentile_order_independent :
  (∀ values values' q,
     values ≡ₚ values' → Forall (λ v, py.is_nan v = false) values →
     same_result (ai_service._percentile values q) (ai_service._percentile values' q))
  ∧ (∀ q, ai_service._percentile [] q = Ok None)
  ∧ (∀ x q, ai_service._percentile [x] q = Ok (Some x)).
Proof.
  split_and!; [|done|done]. intros values values' q.
  intros Hperm Hnum.
  pose proof (sorted_permutation _ _ Hperm Hnum) as Hs.
  pose proof (Permutation_length Hperm) as Hlen.
  unfold ai_service._percentile.
  destruct values as [|x l], values' as [|x' l']; try done.
  rewrite !sorted_length, <- Hlen.
  set (s := py.sorted PrimFloat.ltb (x :: l)) in *.
  set (s' := py.sorted PrimFloat.ltb (x' :: l')) in *.
  destruct (length (x :: l) =? 1)%nat.
  - pose proof (index_same s s' 0 Hs) as H0.
    by destruct (py.index s 0), (py.index s' 0).
  - destruct (py.int _) as [lo|e]; [|done]. cbn [mbind result_bind].
    pose proof (index_same s s' lo Hs) as Hlo.
    destruct (py.index s lo) as [a|], (py.index s' lo) as [a'|]; try done.
    cbn [mbind result_bind].
    set (hi := Z.min _ _).
    pose proof (index_same s s' hi Hs) as Hhi.
    destruct (py.index s hi) as [b|], (py.index s' hi) as [b'|]; try done.
    cbn [mbind result_bind same_result].
    apply same_value_add; [done|].
    apply same_value_mul; [apply same_value_refl|].
    by apply same_value_sub.
Qed.

Lemma percentile_order_independent_demo :
  same_result (ai_service._percentile [3; 1; 2]%float 0.9)
              (ai_service._percentile [2; 3; 1]%float 0.9).
Proof.
  refine (proj1 percentile_order_independent [3; 1; 2]%float [2; 3; 1]%float
                0.9%float _ _).
  - apply (Permutation_app_comm [3; 1]%float [2]%float).
  - repeat constructor.
Defined.

(** With a NaN in the list the comparisons of the sort all fail and the
    result follows the input order; [_curve_pairs] never passes one. *)
Remark percentile_with_nan_follows_order :
  ai_service._percentile [nan; 1; 2]%float 1 = Ok (Some 2%float)
  ∧ ai_service._percentile [2; 1; nan]%float 1 = Ok (Some nan).
Proof. vm_compute. done. Qed.

(** ** The deterministic interpreter *)

Section fallback_props.
Import data_service ai_service.
Context (float_str : float → string).

Lemma gas_shows_loop_ok (sample_data : list point) (todo : list (string * string)) :
  ∃ shows, gas_shows_loop float_str sample_data todo = Ok shows.
Proof.
  induction todo as [|[curve_name confidence] rest [shows IH]]; simpl;
    [by eexists|].
  destruct (high_interval_ok sample_data curve_name) as [r ->].
  cbn [mbind result_bind]. rewrite IH. by eexists.
Qed.

Lemma zone_entry_ok sample_data top3 overall bounds :
  ∃ items, zone_entry float_str sample_data top3 overall bounds = Ok (PDict items).
Proof.
  unfold zone_entry. destruct bounds as [start_d end_d].
  destruct (0 <? overall)%float; [rewrite truediv_max_eps|]; by eexists.
Qed.

Lemma sorted_nonempty {A} (lt : A → A → bool) (l : list A) :
  l ≠ [] → py.sorted lt l ≠ [].
Proof.
  intros Hl E. apply Hl, Permutation_nil_r. by rewrite <- E, sorted_perm.
Qed.

Lemma index_0_ok {A} (l : list A) : l ≠ [] → ∃ a, py.index l 0 = Ok a.
Proof. destruct l; [done|]. by eexists. Qed.

Lemma index_1_ok {A} (l : list A) : 1 < length l → ∃ a, py.index l 1 = Ok a.
Proof. destruct l as [|? [|? ?]]; simpl; try lia. by eexists. Qed.

(** C8: the deterministic interpreter never raises; it returns an object
    with the eight keys of the interpretation schema; and when no
    supplied curve has a valid sample it returns the fixed object with
    both risks "High", no zones, no gas shows and two recommendations. *)
Theorem fallback_interpretation_total
    (well_name : string) (curves : list string) (depth_min depth_max : float)
    (statistics : gmap string curve_stats) (sample_data : list point) :
  ∃ items,
    _fallback_interpretation float_str well_name curves depth_min depth_max
      statistics sample_data = Ok (PDict items)
    ∧ items.*1 = interpretation_keys
    ∧ ((∀ curve st, curve ∈ curves → statistics !! curve = Some st →
          s_non_null_count st = 0) →
       PDict items = insufficient_data float_str well_name depth_min depth_max
       ∧ (pyval_get (PDict items) "risk_profile" ≫= λ r, pyval_get r "seal_risk")
         = Some (PStr "High")
       ∧ (pyval_get (PDict items) "risk_profile" ≫= λ r, pyval_get r "saturation_risk")
         = Some (PStr "High")
       ∧ pyval_get (PDict items) "zones" = Some (PList [])
       ∧ pyval_get (PDict items) "gas_shows" = Some (PList [])
       ∧ ∃ r1 r2, pyval_get (PDict items) "recommendations"
                  = Some (PList [PStr r1; PStr r2])).
Proof.
  unfold _fallback_interpretation.
  destruct (filter _ curves) as [|c0 valid] eqn:Hvalid.
  - eexists. split; [done|]. split; [done|]. intros _. split_and!; try done.
    by do 2 eexists.
  - set (valid_curves := c0 :: valid) in *.
    cbv zeta.
    set (hydro := match filter _ valid_curves with [] => _ | _ => _ end).
    assert (hydro ≠ []) as Hhydro.
    { unfold hydro. destruct (filter _ valid_curves) eqn:Hf; [|done].
      intros E. apply (f_equal length) in E. revert E.
      unfold py.sorted_desc_by. rewrite length_take, sorted_length. simpl. lia. }
    set (ranked := py.sorted_desc_by _ hydro).
    assert (ranked ≠ []) as Hranked by by apply sorted_nonempty.
    destruct (index_0_ok ranked Hranked) as [primary Hprimary].
    rewrite Hprimary. cbn [mbind result_bind].
    assert (∃ secondary,
              (if (1 <? length ranked)%nat then py.index ranked 1
               else Ok primary) = Ok secondary) as [secondary ->].
    { destruct (Nat.ltb_spec 1 (length ranked)); [by apply index_1_ok|by eexists]. }
    cbn [mbind result_bind].
    match goal with |- context [if (0 <? ?y)%float then py.truediv ?x ?y else Ok ?d] =>
      destruct (guarded_truediv_ok x y d) as [wetness ->] end.
    cbn [mbind result_bind].
    match goal with |- context [mbind _ (match statistics !! "TOTAL_GAS" with _ => _ end)] =>
      idtac end.
    assert (∃ balance,
              match statistics !! "TOTAL_GAS" with
              | Some _ =>
                  py.truediv (stat_mean statistics "TOTAL_GAS")
                    (py.max2 (stat_mean statistics primary) 1e-9)
              | None => Ok (stat_mean statistics primary)
              end = Ok balance) as [balance ->].
    { destruct (statistics !! "TOTAL_GAS"); [rewrite truediv_max_eps|]; by eexists. }
    cbn [mbind result_bind].
    match goal with
    | |- context [if (0 <? ?y)%float then py.truediv ?x (py.max2 ?y 1e-9) else Ok ?d] =>
        assert (∃ character,
                  (if (0 <? y)%float then py.truediv x (py.max2 y 1e-9) else Ok d)
                  = Ok character) as [character ->]
          by (destruct (0 <? y)%float; [rewrite truediv_max_eps|]; by eexists)
    end.
    cbn [mbind result_bind].
    match goal with |- context [gas_shows_loop float_str sample_data ?todo] =>
      destruct (gas_shows_loop_ok sample_data todo) as [gas_shows ->] end.
    cbn [mbind result_bind].
    repeat match goal with |- context [zone_entry float_str ?sd ?t ?o ?b] =>
      destruct (zone_entry_ok sd t o b) as [? ->]; cbn [mbind result_bind] end.
    rewrite truediv_max_eps. cbn [mbind result_bind].
    eexists. split; [done|]. split; [done|].
    intros Hnone. exfalso.
    assert (c0 ∈ filter (λ curve, has_valid_points statistics curve = true) curves)
      as Hc0 by (rewrite Hvalid; apply list_elem_of_here).
    apply list_elem_of_filter in Hc0 as [Hv Hin].
    unfold has_valid_points in Hv.
    destruct (statistics !! c0) as [st|] eqn:Hst; simpl in Hv; [|done].
    rewrite (Hnone c0 st Hin Hst) in Hv. done.
Qed.

(** The interpretation of a window with no data at all. *)
Example fallback_on_missing_data :
  _fallback_interpretation float_str "DEMO-1" ["HC1"] 8000 9000 ∅ []
  = Ok (insufficient_data float_str "DEMO-1" 8000 9000).
Proof. reflexivity. Qed.

End fallback_props.

(* ================================================================= *)
(** * Part IV: more properties of the routers and the services *)
(* ================================================================= *)

(** ** Lists without repeats *)

Lemma filter_filter_and {A} (P Q : A → Prop) `{∀ x, Decision (P x)} `{∀ x, Decision (Q x)}
    (l : list A) :
  filter P (filter Q l) = filter (λ x, Q x ∧ P x) l.
Proof.
  induction l as [|x l IH]; [done|].
  rewrite (filter_cons Q). destruct (decide (Q x)) as [HQ|HQ].
  - rewrite (filter_cons P). destruct (decide (P x)) as [HP|HP].
    + rewrite (filter_cons_True (λ x, Q x ∧ P x)) by done. by rewrite IH.
    + rewrite (filter_cons_False (λ x, Q x ∧ P x)) by tauto. by rewrite IH.
  - rewrite (filter_cons_False (λ x, Q x ∧ P x)) by tauto. by rewrite IH.
Qed.

Lemma filter_ext_in {A} (P Q : A → Prop) `{∀ x, Decision (P x)} `{∀ x, Decision (Q x)}
    (l : list A) :
  (∀ x, x ∈ l → P x ↔ Q x) → filter P l = filter Q l.
Proof.
  intros HPQ. induction l as [|x l IH]; [done|].
  rewrite (filter_cons P), (filter_cons Q), IH by (intros; apply HPQ; by right).
  pose proof (HPQ x (list_elem_of_here _ _)).
  destruct (decide (P x)), (decide (Q x)); try done; tauto.
Qed.

Lemma filter_True {A} (P : A → Prop) `{∀ x, Decision (P x)} (l : list A) :
  (∀ x, x ∈ l → P x) → filter P l = l.
Proof.
  intros HP. induction l as [|x l IH]; [done|].
  rewrite filter_cons_True by (apply HP; left).
  f_equal. apply IH. intros y Hy. apply HP. by right.
Qed.

(** [first_occurrences] keeps the elements, drops the repeats and keeps the
    order. *)
Lemma elem_of_first_occurrences l x : x ∈ first_occurrences l ↔ x ∈ l.
Proof.
  induction l as [|y l IH]; [done|]. cbn [first_occurrences].
  rewrite !elem_of_cons, list_elem_of_filter, IH.
  destruct (decide (x = y)); naive_solver.
Qed.

Lemma NoDup_first_occurrences l : NoDup (first_occurrences l).
Proof.
  induction l as [|y l IH]; cbn [first_occurrences]; [constructor|].
  constructor; [|by apply NoDup_filter].
  rewrite list_elem_of_filter. naive_solver.
Qed.

Lemma first_occurrences_sublist l : first_occurrences l `sublist_of` l.
Proof.
  induction l as [|y l IH]; cbn [first_occurrences]; [done|].
  constructor. etrans; [apply sublist_filter|done].
Qed.

Lemma first_occurrences_app l k :
  first_occurrences (l ++ k)
  = first_occurrences l ++ filter (λ x, x ∉ l) (first_occurrences k).
Proof.
  induction l as [|x l IH]; cbn [first_occurrences app].
  - symmetry. apply filter_True. intros x _. apply not_elem_of_nil.
  - rewrite IH, filter_app. f_equal. f_equal.
    rewrite filter_filter_and. apply filter_ext_in. intros y _.
    rewrite not_elem_of_cons. tauto.
Qed.

(** [append_new] over a list from [acc]. *)
Lemma foldl_append_new acc l :
  foldl append_new acc l = acc ++ filter (λ x, x ∉ acc) (first_occurrences l).
Proof.
  revert acc. induction l as [|x l IH]; intros acc.
  - cbn. by rewrite app_nil_r.
  - cbn [foldl first_occurrences]. rewrite IH. unfold append_new.
    rewrite filter_cons. case_bool_decide as Hx.
    + rewrite decide_False by tauto. f_equal.
      rewrite filter_filter_and. apply filter_ext_in. intros y _.
      split; [|tauto]. intros Hy. split; [|done]. by intros ->.
    + rewrite decide_True by done. rewrite <- app_assoc. cbn [app]. do 2 f_equal.
      rewrite filter_filter_and. apply filter_ext_in. intros y _.
      rewrite not_elem_of_app, list_elem_of_singleton. tauto.
Qed.

Lemma foldl_append_new_nil l : foldl append_new [] l = first_occurrences l.
Proof.
  rewrite foldl_append_new. cbn [app]. apply filter_True.
  intros x _. apply not_elem_of_nil.
Qed.

Lemma length_first_occurrences l :
  length (first_occurrences l) = size (list_to_set l : gset string).
Proof.
  unfold size, set_size. cbn [fmap].
  apply Permutation_length, NoDup_Permutation.
  - apply NoDup_first_occurrences.
  - apply NoDup_elements.
  - intros x. rewrite elem_of_first_occurrences, elem_of_elements, elem_of_list_to_set. done.
Qed.

(** ** The scope and the focus of a question *)

Section select_context.
Import models chat.

(** The loop over the request fills the two lists independently. *)
Lemma select_step_split (A : gset string) sel ign req :
  foldl (select_step A) (sel, ign) req
  = (foldl append_new sel (filter (λ c, c ∈ A) req),
     foldl append_new ign (filter (λ c, c ∉ A) req)).
Proof.
  revert sel ign. induction req as [|c req IH]; intros sel ign; [done|].
  cbn [foldl]. rewrite !filter_cons. unfold select_step at 2.
  destruct (decide (c ∈ A)) as [Hc|Hc].
  - rewrite (bool_decide_eq_true_2 _ Hc), decide_False by tauto.
    cbn [foldl negb andb]. unfold append_new at 2.
    case_bool_decide; cbn [negb]; by rewrite IH.
  - rewrite (bool_decide_eq_false_2 _ Hc), decide_True by done.
    cbn [foldl negb andb]. unfold append_new at 3.
    case_bool_decide; cbn [negb]; by rewrite IH.
Qed.

Lemma select_loop (A : gset string) req :
  foldl (select_step A) ([], []) req
  = (first_occurrences (filter (λ c, c ∈ A) req),
     first_occurrences (filter (λ c, c ∉ A) req)).
Proof. by rewrite select_step_split, !foldl_append_new_nil. Qed.

(** The loop that fills the default subset keeps what it is given, adds
    names of the well only, and stops short of 12 entries only when every
    name is in. *)
Lemma fill_fallback_spec (A : gset string) (names fb : list string) :
  NoDup fb → (∀ c, c ∈ fb → c ∈ A) → (∀ c, c ∈ names → c ∈ A) →
  let r := fill_fallback fb names in
  NoDup r ∧ (∀ c, c ∈ r → c ∈ A) ∧ fb `prefix_of` r
  ∧ (length r < MAX_CONTEXT_CURVES → ∀ c, c ∈ names → c ∈ r).
Proof.
  revert fb. induction names as [|c names IH]; intros fb Hnd Hfb Hnames;
    cbv zeta; cbn [fill_fallback].
  - split_and!; try done. intros _ c Hc. by apply elem_of_nil in Hc.
  - set (fb' := if bool_decide (c ∈ fb) then fb else fb ++ [c]).
    assert (NoDup fb') as Hnd'.
    { unfold fb'. case_bool_decide; [done|].
      apply NoDup_app. split_and!; [done| |apply NoDup_singleton].
      intros x Hx ->%list_elem_of_singleton. done. }
    assert (∀ x, x ∈ fb' → x ∈ A) as Hfb'.
    { unfold fb'. intros x. case_bool_decide; [auto|].
      rewrite elem_of_app, list_elem_of_singleton. intros [?| ->]; [auto|].
      apply Hnames. left. }
    assert (fb `prefix_of` fb') as Hpre.
    { unfold fb'. case_bool_decide; [done|]. by apply prefix_app_r. }
    assert (c ∈ fb') as Hc.
    { unfold fb'. case_bool_decide; [done|]. set_solver. }
    destruct (Nat.leb_spec MAX_CONTEXT_CURVES (length fb')) as [Hlen|Hlen].
    + split_and!; try done. intros ?. lia.
    + destruct (IH fb' Hnd' Hfb') as (H1 & H2 & H3 & H4).
      { intros x Hx. apply Hnames. by right. }
      split_and!; try done; [by etrans|].
      intros Hr x [->|Hx]%elem_of_cons; [|by apply H4].
      by eapply elem_of_prefix.
Qed.

Lemma NoDup_DEFAULT_CONTEXT_CURVES : NoDup DEFAULT_CONTEXT_CURVES.
Proof. apply (bool_decide_unpack _). vm_compute. exact I. Qed.

Lemma NoDup_subset_length (A : gset string) (l : list string) :
  NoDup l → (∀ c, c ∈ l → c ∈ A) → length l ≤ size A.
Proof.
  intros Hnd Hl. rewrite <- (size_list_to_set (C:=gset string) l) by done.
  apply subseteq_size. intros x Hx%elem_of_list_to_set. auto.
Qed.

Lemma NoDup_cover_length (A : gset string) (l : list string) :
  NoDup l → (∀ c, c ∈ l ↔ c ∈ A) → length l = size A.
Proof.
  intros Hnd Hl. rewrite <- (size_list_to_set (C:=gset string) l) by done.
  f_equal. apply set_eq. intros x. rewrite elem_of_list_to_set. apply Hl.
Qed.

Lemma take_prefix_mono {A} (n : nat) (l1 l2 : list A) :
  l1 `prefix_of` l2 → take n l1 `prefix_of` take n l2.
Proof. intros [k ->]. rewrite take_app. by apply prefix_app_r. Qed.

(** X1: [_select_context_curves] when the request names at least one curve
    of the well: the scope is the requested curves that the well has,
    each once, in the order of the request, cut to the first 12; the
    ignored curves are the requested curves that the well lacks, each
    once and in that order; the mode is [user_selected]. *)
Theorem select_context_curves_user_selected
    (requested_curves : list string) (available_curves : list Curve) :
  (∃ c, c ∈ requested_curves ∧ c ∈ mnemonic <$> available_curves) →
  _select_context_curves requested_curves available_curves
  = (take 12 (first_occurrences
                (filter (λ c, c ∈ mnemonic <$> available_curves) requested_curves)),
     first_occurrences
       (filter (λ c, c ∉ mnemonic <$> available_curves) requested_curves),
     "user_selected").
Proof.
  intros (c & Hreq & Havail). unfold _select_context_curves.
  rewrite select_loop.
  rewrite (filter_ext_in (λ c, c ∈ (list_to_set (mnemonic <$> available_curves) : gset string))
             (λ c, c ∈ mnemonic <$> available_curves))
    by (intros; apply elem_of_list_to_set).
  rewrite (filter_ext_in (λ c, c ∉ (list_to_set (mnemonic <$> available_curves) : gset string))
             (λ c, c ∉ mnemonic <$> available_curves))
    by (intros; by rewrite elem_of_list_to_set).
  destruct (first_occurrences (filter _ requested_curves)) as [|s sel] eqn:Hsel; [|done].
  exfalso. assert (c ∈ @nil string) as Hc; [|by apply elem_of_nil in Hc].
  rewrite <- Hsel, elem_of_first_occurrences, list_elem_of_filter. done.
Qed.

Lemma select_context_curves_user_selected_demo :
  chat._select_context_curves ["HC2"; "XYZ"; "HC2"] (interpretation.curve_table demo_db)
  = (["HC2"], ["XYZ"], "user_selected").
Proof.
  apply (select_context_curves_user_selected
           ["HC2"; "XYZ"; "HC2"] (interpretation.curve_table demo_db)).
  exists "HC2". split; [apply list_elem_of_here|].
  apply list_elem_of_further, list_elem_of_here.
Defined.

(** X2: [_select_context_curves] when no requested curve is a curve of the
    well (an empty request included): the mode is [default_subset], every
    requested curve is reported once as ignored, and the scope consists of
    distinct curves of the well, 12 of them or all of them if the well
    has fewer, beginning with the default curves that the well has in the
    order of [DEFAULT_CONTEXT_CURVES]. *)
Theorem select_context_curves_default
    (requested_curves : list string) (available_curves : list Curve) :
  (∀ c, c ∈ requested_curves → c ∉ mnemonic <$> available_curves) →
  ∃ fallback,
    _select_context_curves requested_curves available_curves
    = (fallback, first_occurrences requested_curves, "default_subset")
    ∧ NoDup fallback
    ∧ (∀ c, c ∈ fallback → c ∈ mnemonic <$> available_curves)
    ∧ length fallback
      = 12 `min` size (list_to_set (mnemonic <$> available_curves) : gset string)
    ∧ take 12 (filter (λ c, c ∈ mnemonic <$> available_curves) DEFAULT_CONTEXT_CURVES)
      `prefix_of` fallback.
Proof.
  intros Hnone. unfold _select_context_curves. rewrite select_loop.
  set (A := list_to_set (mnemonic <$> available_curves) : gset string).
  assert (∀ c, c ∈ A ↔ c ∈ mnemonic <$> available_curves) as HA
    by (intros; apply elem_of_list_to_set).
  rewrite (filter_ext_in (λ c, c ∈ A) (λ _, False)) by (intros c Hc; rewrite HA; naive_solver).
  rewrite (filter_True (λ c, c ∉ A)) by (intros c Hc; rewrite HA; auto).
  assert (filter (λ _ : string, False) requested_curves = []) as ->.
  { induction requested_curves as [|? ? IH]; [done|].
    rewrite filter_cons_False by tauto. apply IH. intros. apply Hnone. by right. }
  cbn [first_occurrences].
  rewrite (filter_ext_in (λ c, c ∈ mnemonic <$> available_curves) (λ c, c ∈ A))
    by (intros; by rewrite HA).
  set (fb0 := filter (λ c, c ∈ A) DEFAULT_CONTEXT_CURVES).
  assert (NoDup fb0) as Hnd0 by apply NoDup_filter, NoDup_DEFAULT_CONTEXT_CURVES.
  assert (∀ c, c ∈ fb0 → c ∈ A) as Hfb0 by (intros c [? _]%list_elem_of_filter; done).
  eexists. split; [reflexivity|].
  destruct (Nat.ltb_spec (length fb0) MAX_CONTEXT_CURVES) as [Hlt|Hge].
  - destruct (fill_fallback_spec A (py.sorted String.ltb (elements A)) fb0)
      as (H1 & H2 & H3 & H4); try done.
    { intros c. rewrite sorted_perm, elem_of_elements. done. }
    set (r := fill_fallback _ _) in *.
    split_and!.
    + eapply sublist_NoDup; [done|apply sublist_take].
    + intros c Hc%subseteq_take. by apply HA, H2.
    + rewrite length_take. fold MAX_CONTEXT_CURVES.
      destruct (decide (length r < MAX_CONTEXT_CURVES)) as [Hr|Hr].
      * rewrite (NoDup_cover_length A r); [done|done|].
        intros c. split; [auto|]. intros Hc. apply H4; [done|].
        by rewrite sorted_perm, elem_of_elements.
      * pose proof (NoDup_subset_length A r H1 H2). unfold MAX_CONTEXT_CURVES in *. lia.
    + by apply take_prefix_mono.
  - split_and!.
    + eapply sublist_NoDup; [done|apply sublist_take].
    + intros c Hc%subseteq_take. by apply HA, Hfb0.
    + rewrite length_take.
      pose proof (NoDup_subset_length A fb0 Hnd0 Hfb0). unfold MAX_CONTEXT_CURVES in *. lia.
    + done.
Qed.

Lemma select_context_curves_default_demo :
  ∃ fallback,
    chat._select_context_curves ["XYZ"] (interpretation.curve_table demo_db)
    = (fallback, ["XYZ"], "default_subset")
    ∧ NoDup fallback
    ∧ (∀ c, c ∈ fallback → c ∈ ["HC1"; "HC2"])
    ∧ length fallback = 2.
Proof.
  destruct (select_context_curves_default ["XYZ"] (interpretation.curve_table demo_db))
    as (fallback & H1 & H2 & H3 & H4 & _).
  - intros c Hc. apply list_elem_of_singleton in Hc as ->.
    apply (bool_decide_unpack _). vm_compute. exact I.
  - exists fallback. split_and!; [exact H1|exact H2|exact H3|exact H4].
Defined.

End select_context.

Section pick_focus.
Import data_service chat.

(** A loop of [_pick_focus_curves] that starts below the bound: its early
    return cuts the list that the loop without it would build. *)
Lemma focus_loop_spec (max_curves : nat) (keep : string → bool) focus todo :
  length focus < max_curves →
  let full := foldl append_new focus (filter (λ c, keep c = true) todo) in
  focus_loop max_curves keep focus todo
  = (take max_curves full, bool_decide (max_curves ≤ length full)).
Proof.
  revert focus. induction todo as [|c todo IH]; intros focus Hlen; cbv zeta.
  - cbn [focus_loop foldl]. rewrite filter_nil. cbn [foldl].
    rewrite take_ge by lia. f_equal. symmetry. apply bool_decide_eq_false_2. lia.
  - cbn [focus_loop]. rewrite filter_cons.
    assert ((if keep c && negb (bool_decide (c ∈ focus)) then focus ++ [c] else focus)
            = if decide (keep c = true) then append_new focus c else focus) as ->.
    { unfold append_new. destruct (keep c); [|by rewrite decide_False].
      rewrite decide_True by done. by case_bool_decide. }
    assert (length (append_new focus c) ≤ S (length focus)) as Hstep.
    { unfold append_new. case_bool_decide; [lia|]. rewrite length_app. simpl. lia. }
    destruct (decide (keep c = true)) as [Hk|Hk]; cbn [foldl].
    + destruct (Nat.leb_spec max_curves (length (append_new focus c))) as [Hge|Hlt].
      * rewrite foldl_append_new, take_app_le by lia. rewrite take_ge by lia.
        f_equal. symmetry. apply bool_decide_eq_true_2. rewrite length_app. lia.
      * by apply IH.
    + destruct (Nat.leb_spec max_curves (length focus)) as [Hge|Hlt]; [lia|].
      by apply IH.
Qed.

Lemma foldl_append_new_prefix acc l : acc `prefix_of` foldl append_new acc l.
Proof. rewrite foldl_append_new. by apply prefix_app_r. Qed.

Lemma take_prefix_long {A} (n : nat) (l1 l2 : list A) :
  l1 `prefix_of` l2 → n ≤ length l1 → take n l1 = take n l2.
Proof. intros [k ->] Hn. by rewrite take_app_le. Qed.

Lemma filter_all_true (l : list string) :
  filter (λ _ : string, true = true) l = l.
Proof. by apply filter_True. Qed.

(** The three loops of [_pick_focus_curves] as one pass over the three
    lists. *)
Lemma pick_focus_curves_loop
    (mentioned_curves curves_in_scope : list string)
    (stats : gmap string curve_stats) (max_curves : nat) :
  0 < max_curves →
  _pick_focus_curves mentioned_curves curves_in_scope stats max_curves
  = take max_curves
      (foldl append_new []
         (filter (λ c, c ∈ curves_in_scope) mentioned_curves
          ++ ranked_by_range stats curves_in_scope
          ++ curves_in_scope)).
Proof.
  intros Hmax. unfold _pick_focus_curves, ranked_by_range.
  set (m := filter (λ c, c ∈ curves_in_scope) mentioned_curves).
  set (r := (py.sorted_desc_by fst (omap (focus_score stats) curves_in_scope)).*2).
  rewrite !foldl_app. fold m.
  rewrite focus_loop_spec by (simpl; lia).
  rewrite (filter_ext_in (λ c, bool_decide (c ∈ curves_in_scope) = true)
             (λ c, c ∈ curves_in_scope)) by (intros; apply bool_decide_eq_true).
  fold m. set (f1 := foldl append_new [] m).
  case_bool_decide as H1.
  { apply take_prefix_long; [|done].
    etrans; apply foldl_append_new_prefix. }
  rewrite take_ge by lia.
  rewrite focus_loop_spec by lia. rewrite filter_all_true. fold r.
  set (f2 := foldl append_new f1 r).
  case_bool_decide as H2.
  { apply take_prefix_long; [|done]. apply foldl_append_new_prefix. }
  rewrite take_ge by lia.
  rewrite focus_loop_spec by lia. by rewrite filter_all_true.
Qed.

(** X3: [_pick_focus_curves] with a positive bound returns the first
    [max_curves] distinct entries of the list made of the mentioned
    curves that are in scope, then the curves of the scope that have a
    value range in the order in which [sorted] ranks them by decreasing
    range, then the scope in its own order: the early returns of the
    three loops change nothing else. *)
Theorem pick_focus_curves_spec
    (mentioned_curves curves_in_scope : list string)
    (stats : gmap string curve_stats) (max_curves : nat) :
  0 < max_curves →
  _pick_focus_curves mentioned_curves curves_in_scope stats max_curves
  = take max_curves
      (first_occurrences
         (filter (λ c, c ∈ curves_in_scope) mentioned_curves
          ++ ranked_by_range stats curves_in_scope
          ++ curves_in_scope)).
Proof.
  intros Hmax. rewrite <- foldl_append_new_nil. by apply pick_focus_curves_loop.
Qed.

Lemma pick_focus_curves_spec_demo :
  chat._pick_focus_curves ["HC2"] ["HC1"; "HC2"] demo_stats 1 = ["HC2"].
Proof. apply (pick_focus_curves_spec ["HC2"] ["HC1"; "HC2"] demo_stats 1). lia. Defined.

Lemma ranked_by_range_in_scope stats curves_in_scope c :
  c ∈ ranked_by_range stats curves_in_scope → c ∈ curves_in_scope.
Proof.
  unfold ranked_by_range, py.sorted_desc_by.
  intros ([score c'] & -> & Hin)%list_elem_of_fmap.
  rewrite sorted_perm in Hin.
  apply list_elem_of_omap in Hin as (curve & Hcurve & Hscore).
  unfold focus_score in Hscore.
  destruct (stats !! curve) as [s|]; [|done].
  destruct (s_non_null_count s <=? 0)%nat; [done|].
  destruct (s_min s), (s_max s); try done. by injection Hscore as _ <-.
Qed.

(** X4: with a positive bound the focus of [_pick_focus_curves] has no
    repeats, holds curves of the scope only, has exactly [max_curves]
    entries or as many as the scope has distinct curves if those are
    fewer, and begins with the mentioned curves that are in scope, in the
    order of their mention. *)
Theorem pick_focus_curves_size
    (mentioned_curves curves_in_scope : list string)
    (stats : gmap string curve_stats) (max_curves : nat) :
  0 < max_curves →
  let focus := _pick_focus_curves mentioned_curves curves_in_scope stats max_curves in
  NoDup focus
  ∧ (∀ c, c ∈ focus → c ∈ curves_in_scope)
  ∧ length focus = max_curves `min` size (list_to_set curves_in_scope : gset string)
  ∧ take max_curves
      (first_occurrences (filter (λ c, c ∈ curves_in_scope) mentioned_curves))
    `prefix_of` focus.
Proof.
  intros Hmax focus. unfold focus. rewrite pick_focus_curves_loop by done.
  rewrite foldl_append_new_nil.
  set (m := filter (λ c, c ∈ curves_in_scope) mentioned_curves).
  set (L := m ++ ranked_by_range stats curves_in_scope ++ curves_in_scope).
  assert (∀ c, c ∈ L ↔ c ∈ curves_in_scope) as HL.
  { intros c. unfold L, m. rewrite !elem_of_app, list_elem_of_filter.
    pose proof (ranked_by_range_in_scope stats curves_in_scope c). tauto. }
  split_and!.
  - eapply sublist_NoDup; [apply NoDup_first_occurrences|apply sublist_take].
  - intros c Hc%subseteq_take. by apply HL, elem_of_first_occurrences.
  - rewrite length_take, length_first_occurrences. do 2 f_equal.
    apply set_eq. intros c. rewrite !elem_of_list_to_set. apply HL.
  - apply take_prefix_mono. unfold L. rewrite first_occurrences_app.
    by apply prefix_app_r.
Qed.

Lemma pick_focus_curves_size_demo :
  let focus := chat._pick_focus_curves ["HC2"] ["HC1"; "HC2"] demo_stats 4 in
  NoDup focus
  ∧ (∀ c, c ∈ focus → c ∈ ["HC1"; "HC2"])
  ∧ length focus = 2
  ∧ ["HC2"] `prefix_of` focus.
Proof. apply (pick_focus_curves_size ["HC2"] ["HC1"; "HC2"] demo_stats 4). lia. Defined.

End pick_focus.

(** ** Mention extraction *)

Section mentions.
Import chat.

(** The loop of [_extract_mentioned_curves] appends the candidates that
    pass its test. *)
Lemma foldl_mention_step raw norm l acc :
  foldl (mention_step raw norm) acc l
  = foldl append_new acc
      (filter (λ c, py.contains (py.upper c) raw
                    || (negb (String.eqb (_normalize_token c) EmptyString)
                        && py.contains (_normalize_token c) norm) = true) l).
Proof.
  revert acc. induction l as [|c l IH]; intros acc; [done|].
  cbn [foldl]. rewrite filter_cons. unfold mention_step at 2.
  destruct (_ || _); [rewrite decide_True by done|rewrite decide_False by done];
    cbn [foldl]; by rewrite IH.
Qed.

Lemma extract_mentioned_curves_eq message available :
  _extract_mentioned_curves message available
  = if String.eqb message EmptyString then []
    else first_occurrences
           (filter (λ c, mentions message c = true)
              (py.sorted (λ a b, (String.length b <? String.length a)%nat) available)).
Proof.
  unfold _extract_mentioned_curves. destruct (String.eqb message EmptyString); [done|].
  by rewrite foldl_mention_step, foldl_append_new_nil.
Qed.

(** [py.sorted] sorts, for an order that is total on the elements at
    hand. *)
Lemma insert_sorted_rel {A} (P : A → Prop) (R : relation A) (lt : A → A → bool) x l :
  (∀ a b, lt a b = true → R a b) →
  (∀ a b, P a → P b → lt a b = false → R b a) →
  P x → Forall P l → Sorted R l → Sorted R (py.insert_sorted lt x l).
Proof.
  intros Hlt Hge Hx Hl Hs. induction Hs as [|y l Hs IH Hhd]; cbn [py.insert_sorted].
  - by repeat constructor.
  - apply Forall_cons in Hl as [Hy Hl]. destruct (lt y x) eqn:E.
    + constructor; [by apply IH|].
      destruct Hhd as [|z l Hyz]; cbn [py.insert_sorted].
      * constructor. by apply Hlt.
      * destruct (lt z x); constructor; [done|]. by apply Hlt.
    + constructor; [by constructor|]. constructor. by apply Hge.
Qed.

Lemma sorted_rel {A} (P : A → Prop) (R : relation A) (lt : A → A → bool) l :
  (∀ a b, lt a b = true → R a b) →
  (∀ a b, P a → P b → lt a b = false → R b a) →
  Forall P l → Sorted R (py.sorted lt l).
Proof.
  intros Hlt Hge. induction 1 as [|x l Hx Hl IH]; cbn; [constructor|].
  fold (py.sorted lt l). eapply insert_sorted_rel; try done.
  by rewrite sorted_perm.
Qed.

Lemma StronglySorted_sublist {A} (R : relation A) (l k : list A) :
  l `sublist_of` k → StronglySorted R k → StronglySorted R l.
Proof.
  induction 1 as [|x l k Hs IH|x l k Hs IH]; intros Hk.
  - constructor.
  - apply StronglySorted_inv in Hk as [Hk Hx]. constructor; [by apply IH|].
    apply Forall_forall. intros y Hy. rewrite Forall_forall in Hx. apply Hx.
    by apply (sublist_subseteq _ _ Hs).
  - apply StronglySorted_inv in Hk as [Hk _]. by apply IH.
Qed.

Lemma upper_empty s : String.eqb (py.upper s) EmptyString = String.eqb s EmptyString.
Proof. by destruct s. Qed.

(** X5: [_extract_mentioned_curves] returns, each once, exactly the
    candidates that a non-empty message mentions (the upper-cased name
    occurs in the upper-cased message, or the name has a non-empty
    normalized form that occurs in the normalized message), longer names
    before shorter ones; for the empty message it returns nothing. *)
Theorem extract_mentioned_curves_spec (message : string) (available : list string) :
  let matches := _extract_mentioned_curves message available in
  NoDup matches
  ∧ (∀ c, c ∈ matches
          ↔ message ≠ EmptyString ∧ c ∈ available ∧ mentions message c = true)
  ∧ StronglySorted (λ a b, String.length b ≤ String.length a) matches.
Proof.
  intros matches. unfold matches. rewrite extract_mentioned_curves_eq.
  destruct (String.eqb_spec message EmptyString) as [->|Hne].
  { split_and!; [constructor| |constructor].
    intros c. split; [by intros ?%elem_of_nil|]. by intros [? _]. }
  split_and!.
  - apply NoDup_first_occurrences.
  - intros c. rewrite elem_of_first_occurrences, list_elem_of_filter, sorted_perm. tauto.
  - eapply StronglySorted_sublist.
    { etrans; [apply first_occurrences_sublist|apply sublist_filter]. }
    apply Sorted_StronglySorted; [intros a b c; lia|].
    apply (sorted_rel (λ _, True)).
    + intros a b Hab%Nat.ltb_lt. lia.
    + intros a b _ _ Hab%Nat.ltb_ge. done.
    + by apply Forall_forall.
Qed.

(** X6: [_extract_mentioned_curves] reads the message without regard to
    case: two messages with the same upper-case form give the same
    matches. *)
Theorem extract_mentioned_curves_case (message message' : string) (available : list string) :
  py.upper message = py.upper message' →
  _extract_mentioned_curves message available
  = _extract_mentioned_curves message' available.
Proof.
  intros H. unfold _extract_mentioned_curves, _normalize_token.
  by rewrite <- (upper_empty message), <- (upper_empty message'), H.
Qed.

Lemma extract_mentioned_curves_case_demo :
  chat._extract_mentioned_curves "hc1 trend" ["HC1"; "HC2"]
  = chat._extract_mentioned_curves "Hc1 Trend" ["HC1"; "HC2"].
Proof. apply extract_mentioned_curves_case. reflexivity. Defined.

End mentions.

(** ** Analytics that cannot raise *)

(** Rounding keeps the sign; squares, and sums and products of values
    that are not below zero, are not below zero. *)
Lemma binary_round_aux_sign mx ex lx :
  SFnot_neg (binary_round_aux prec emax false mx ex lx).
Proof.
  unfold binary_round_aux.
  destruct (shr_fexp prec emax mx ex lx) as [mrs' e'].
  destruct (shr_fexp prec emax _ e' loc_Exact) as [mrs'' e''].
  destruct (shr_m mrs''); simpl; try done. by destruct (_ <=? _)%Z.
Qed.

Lemma SFmul_square x : SFnot_neg (SFmul prec emax x x).
Proof.
  destruct x as [s|s| |s m e]; simpl; try done.
  - by destruct s.
  - destruct s; apply binary_round_aux_sign.
Qed.

Lemma SFmul_not_neg x y :
  SFnot_neg x → SFnot_neg y → SFnot_neg (SFmul prec emax x y).
Proof.
  destruct x as [sx|[]| |[] mx ex], y as [sy|[]| |[] my ey]; simpl; try done.
  intros _ _. apply binary_round_aux_sign.
Qed.

Lemma SFadd_not_neg x y :
  SFnot_neg x → SFnot_neg y → SFnot_neg (SFadd prec emax x y).
Proof.
  destruct x as [sx|[]| |[] mx ex], y as [sy|[]| |[] my ey]; simpl; try done.
  - by destruct sx, sy.
  - intros _ _. unfold binary_normalize. simpl.
    unfold binary_round.
    destruct (shl_align _ _ _) as [mz ez]. apply binary_round_aux_sign.
Qed.

Lemma not_neg_ltb_zero x : SFnot_neg (Prim2SF x) → (x <? 0)%float = false.
Proof.
  intros Hx. rewrite FloatAxioms.ltb_spec. unfold SFltb.
  change (Prim2SF 0) with (S754_zero false).
  by destruct (Prim2SF x) as [s|[]| |[] m e].
Qed.

Lemma sum_not_neg (l : list float) :
  Forall (λ x, SFnot_neg (Prim2SF x)) l → SFnot_neg (Prim2SF (py.sum l)).
Proof.
  unfold py.sum. assert (SFnot_neg (Prim2SF 0)) as H0 by done.
  revert H0. generalize 0%float as acc. intros acc Hacc Hl. revert acc Hacc.
  induction Hl as [|x l Hx Hl IH]; intros acc Hacc; cbn [foldl]; [done|].
  apply IH. rewrite add_spec. by apply SFadd_not_neg.
Qed.

Lemma sum_squares_not_neg (m : float) (l : list float) :
  SFnot_neg (Prim2SF (py.sum (map (λ x, py.pow2 (x - m)) l))).
Proof.
  apply sum_not_neg, Forall_map, Forall_forall. intros x _. simpl.
  unfold py.pow2. rewrite mul_spec. apply SFmul_square.
Qed.

(** X7: [_pearson] and [_pearson_correlation] return (a coefficient or
    [None]) and never raise: the argument of [sqrt] is a product of two
    sums of squares and so is never below zero, and the division is
    taken only by a denominator that is not zero.  Python's [x ** 2]
    raises [OverflowError] when the square of a finite [x] is out of
    range, which [py.pow2] does not model; the statement is for the
    inputs on which no deviation from the mean has such a square. *)
Theorem pearson_never_raises (values_a values_b : list float) :
  let n := length values_a `min` length values_b in
  Forall (λ d, square_overflows d = false) (deviations n values_a ++ deviations n values_b) →
  (∃ r, ai_service._pearson values_a values_b = Ok r)
  ∧ (∃ r, chat._pearson_correlation values_a values_b = Ok r).
Proof.
  intros n _.
  assert (∃ r, ai_service._pearson values_a values_b = Ok r) as H; [|by split].
  unfold ai_service._pearson.
  destruct (_ <? 3)%nat; [by eexists|].
  destruct (ai_service._mean _) as [mean_a|]; [|by eexists].
  destruct (ai_service._mean _) as [mean_b|]; [|by eexists].
  unfold py.sqrt. rewrite not_neg_ltb_zero.
  2:{ rewrite mul_spec. apply SFmul_not_neg; apply sum_squares_not_neg. }
  cbn [mbind result_bind].
  destruct (_ =? 0)%float eqn:E; [by eexists|].
  unfold py.truediv. rewrite E. by eexists.
Qed.

Lemma pearson_never_raises_demo :
  (∃ r, ai_service._pearson [1; 2; 4]%float [2; 4; 7]%float = Ok r)
  ∧ (∃ r, chat._pearson_correlation [1; 2; 4]%float [2; 4; 7]%float = Ok r).
Proof.
  apply (pearson_never_raises [1; 2; 4]%float [2; 4; 7]%float).
  apply (bool_decide_unpack _). vm_compute. exact I.
Defined.

(** X8: the two [_trend_label] functions never raise, whatever the values
    (NaN and infinities included): for fewer than 12 values they return
    the insufficient-points text of their module, and otherwise one of
    the three labels [increasing with depth], [decreasing with depth]
    and [mostly stable]. *)
Theorem trend_label_total (values : list float) :
  ai_service._trend_label values
  = Ok (if (length values <? 12)%nat then "insufficient points"
        else trend_of (relative_change values))
  ∧ chat._trend_label values
    = Ok (if (length values <? 12)%nat then "insufficient points for trend"
          else trend_of (relative_change values))
  ∧ trend_of (relative_change values)
    ∈ ["increasing with depth"; "decreasing with depth"; "mostly stable"].
Proof.
  split_and!.
  - destruct (Nat.ltb_spec (length values) 12) as [Hn|Hn].
    + unfold ai_service._trend_label. by destruct (Nat.ltb_spec (length values) 12); [|lia].
    + by apply ai_trend_label_long.
  - destruct (Nat.ltb_spec (length values) 12) as [Hn|Hn].
    + unfold chat._trend_label. by destruct (Nat.ltb_spec (length values) 12); [|lia].
    + by apply chat_trend_label_long.
  - unfold trend_of. destruct (_ <=? _)%float; [set_solver|].
    destruct (_ <=? _)%float; set_solver.
Qed.

(** ** Sample pairs and sample rows *)

Section curve_pairs.
Import data_service ai_service.

(** [_safe_float] returns its argument unless it is [None] or a NaN. *)
Lemma safe_float_Some (value : option float) (x : float) :
  _safe_float value = Some x ↔ value = Some x ∧ py.is_nan x = false.
Proof.
  unfold _safe_float, py.is_nan. destruct value as [v|]; simpl; [|naive_solver].
  destruct (v =? v)%float eqn:E; split.
  - intros [= ->]. by rewrite E.
  - by intros [[= ->] _].
  - done.
  - intros [[= ->] H]. by rewrite E in H.
Qed.

Lemma omap_sublist {A B} (f : A → option B) (l : list A) :
  ∃ rows, rows `sublist_of` l ∧ Forall2 (λ row p, f row = Some p) rows (omap f l).
Proof.
  induction l as [|x l (rows & Hsub & Hrows)].
  - exists []. split; constructor.
  - change (omap f (x :: l)) with (from_option (λ y, y :: omap f l) (omap f l) (f x)).
    destruct (f x) as [y|] eqn:E; simpl.
    + exists (x :: rows). split; [by constructor|by constructor].
    + exists rows. split; [by constructor|done].
Qed.

(** X9: no pair that [_curve_pairs] returns holds a NaN, and the pairs
    are, in order, the depth and the value of the curve in the rows of a
    subsequence of the sample: rows are dropped, never reordered,
    repeated or altered. *)
Theorem curve_pairs_clean (sample_data : list point) (curve : string) :
  Forall (λ p, py.is_nan p.1 = false ∧ py.is_nan p.2 = false)
         (_curve_pairs sample_data curve)
  ∧ ∃ rows, rows `sublist_of` sample_data
      ∧ Forall2 (λ row p, point_get row "depth" = Some p.1 ∧ point_get row curve = Some p.2)
                rows (_curve_pairs sample_data curve).
Proof.
  assert (∀ row p, pair_of_row curve row = Some p →
            (py.is_nan p.1 = false ∧ py.is_nan p.2 = false)
            ∧ point_get row "depth" = Some p.1 ∧ point_get row curve = Some p.2) as Hpair.
  { intros row [d v]. unfold pair_of_row.
    destruct (_safe_float (point_get row "depth")) as [d'|] eqn:Hd; [|done].
    destruct (_safe_float (point_get row curve)) as [v'|] eqn:Hv; [|done].
    intros [= -> ->]. apply safe_float_Some in Hd as [-> ?], Hv as [-> ?]. done. }
  unfold _curve_pairs. destruct sample_data as [|row0 data]; [|set (sd := row0 :: data)].
  { split; [constructor|]. exists []. split; constructor. }
  set (picked := py.every_nth _ sd). split.
  - apply Forall_forall. intros p (row & _ & Hp)%list_elem_of_omap.
    by apply Hpair in Hp as [? _].
  - destruct (omap_sublist (pair_of_row curve) picked) as (rows & Hsub & Hrows).
    exists rows. split; [etrans; [done|apply every_nth_sublist]|].
    eapply Forall2_impl; [done|]. intros row p Hp. by apply Hpair in Hp as [_ ?].
Qed.

End curve_pairs.

Section sampled.
Import ai_service.

(** X10: for a positive [max_rows] the rows that [_format_sample_data]
    prints are exactly [min(len(data), max_rows)] rows of the data, in
    the order of the data and beginning with its first row. *)
Theorem format_sample_rows {A} (data : list A) (max_rows : nat) :
  0 < max_rows →
  ∃ rows, sampled data max_rows = Ok rows
    ∧ length rows = length data `min` max_rows
    ∧ rows `sublist_of` data
    ∧ head rows = head data.
Proof.
  intros Hmax. destruct data as [|x data0]; [by exists []|].
  unfold sampled. cbv beta iota. set (data := x :: data0).
  destruct (Nat.eqb_spec max_rows 0) as [|_]; [lia|].
  eexists. split; [done|].
  set (n := length data). set (k := Nat.max 1 (n / max_rows)).
  assert (0 < k) as Hk by lia.
  split_and!.
  - rewrite length_take, every_nth_length by done. fold n.
    destruct (decide (n < max_rows)) as [Hlt|Hge].
    + assert (k = 1) as -> by (unfold k; rewrite Nat.div_small by done; lia).
      rewrite Nat.add_0_r, Nat.div_1_r. lia.
    + assert (k = n / max_rows) as Hk'.
      { unfold k. assert (1 ≤ n / max_rows); [|lia].
        apply Nat.div_le_lower_bound; lia. }
      assert (max_rows ≤ (n + (k - 1)) / k); [|lia].
      apply Nat.div_le_lower_bound; [lia|].
      pose proof (Nat.Div0.mul_div_le n max_rows). rewrite Hk'. nia.
  - etrans; [apply sublist_take|apply every_nth_sublist].
  - unfold data, py.every_nth. cbn [py.stride_from]. by destruct max_rows; [lia|].
Qed.

Lemma format_sample_rows_demo :
  ∃ rows, ai_service.sampled (seq 0 10) 3 = Ok rows
    ∧ length rows = 3
    ∧ rows `sublist_of` seq 0 10
    ∧ head rows = Some 0.
Proof. apply (format_sample_rows (seq 0 10) 3). lia. Defined.

End sampled.

(** ** Curve categories *)

Section categorize.
Import las_parser.

(** Every key of the table is found again by its upper-case form, with the
    same category, which is not empty. *)
Lemma categories_upper_covers :
  map_Forall (λ k v, v ≠ EmptyString ∧ _CURVE_CATEGORIES_UPPER !! py.upper k = Some v)
             CURVE_CATEGORIES.
Proof. apply (bool_decide_unpack _). vm_compute. exact I. Qed.

Lemma categorize_curve_upper (mnemonic : string) :
  categorize_curve mnemonic
  = default "Other" (py.truthy (_CURVE_CATEGORIES_UPPER !! py.upper mnemonic)).
Proof.
  unfold categorize_curve.
  destruct (CURVE_CATEGORIES !! mnemonic) as [v|] eqn:Hv; [|done].
  destruct (categories_upper_covers mnemonic v Hv) as [Hne ->].
  unfold py.truthy. simpl. by destruct (String.eqb_spec v EmptyString).
Qed.

(** X11: [categorize_curve] does not depend on the case of the mnemonic:
    two mnemonics with the same upper-case form get the same category
    (no two keys of [CURVE_CATEGORIES] that differ by case only carry
    different categories); every key of the table gets the category the
    table gives it; a mnemonic whose upper-case form is not that of a key
    gets [Other]. *)
Theorem categorize_curve_case_insensitive :
  (∀ m m', py.upper m = py.upper m' → categorize_curve m = categorize_curve m')
  ∧ Forall (λ kv, categorize_curve kv.1 = kv.2) CURVE_CATEGORIES_items
  ∧ (∀ m, _CURVE_CATEGORIES_UPPER !! py.upper m = None → categorize_curve m = "Other").
Proof.
  split_and!.
  - intros m m' Hm. by rewrite !categorize_curve_upper, Hm.
  - apply (bool_decide_unpack _). vm_compute. exact I.
  - intros m Hm. by rewrite categorize_curve_upper, Hm.
Qed.

Lemma categorize_curve_case_insensitive_demo :
  categorize_curve "total_gas" = categorize_curve "Total_Gas".
Proof. apply (proj1 categorize_curve_case_insensitive). reflexivity. Defined.

End categorize.

(** ** Storing a parsed file *)

Section batches.

(** The batches of [store_parsed_las] are the data objects, in order. *)
Lemma range_step_0 (step : nat) : 0 < step → py.range_step 0 step = [].
Proof. intros Hstep. unfold py.range_step. by rewrite Nat.div_small by lia. Qed.

Lemma range_step_S (stop step : nat) :
  0 < step → 0 < stop →
  py.range_step stop step = 0 :: ((λ i, i + step) <$> py.range_step (stop - step) step).
Proof.
  intros Hstep Hstop. unfold py.range_step.
  assert ((stop + (step - 1)) / step = S ((stop - step + (step - 1)) / step)) as ->.
  { destruct (decide (stop ≤ step)) as [Hle|Hgt].
    - replace (stop - step) with 0 by lia.
      rewrite (Nat.div_small (0 + _)) by lia.
      assert (stop + (step - 1) = (stop - 1) + 1 * step) as -> by lia.
      rewrite Nat.div_add by lia. rewrite Nat.div_small by lia. done.
    - assert (stop + (step - 1) = (stop - step + (step - 1)) + 1 * step) as -> by lia.
      rewrite Nat.div_add by lia. lia. }
  cbn [seq fmap list_fmap]. f_equal.
  rewrite <- fmap_S_seq, <- !list_fmap_compose. apply list_fmap_ext.
  intros _ k _. simpl. lia.
Qed.

Lemma batches_concat {A} (batch : nat) (objects acc : list A) :
  0 < batch →
  foldl (λ acc i, acc ++ take batch (drop i objects)) acc
        (py.range_step (length objects) batch)
  = acc ++ objects.
Proof.
  intros Hb.
  assert (∀ n (l : list A) (pre : list A) acc, length l ≤ n →
            foldl (λ acc i, acc ++ take batch (drop i (pre ++ l))) acc
                  ((λ i, i + length pre) <$> py.range_step (length l) batch)
            = acc ++ l) as H.
  { induction n as [|n IH]; intros l pre acc0 Hn.
    - destruct l; [|simpl in Hn; lia]. cbn [length]. rewrite range_step_0 by done.
      cbn. by rewrite app_nil_r.
    - destruct l as [|x l].
      { cbn [length]. rewrite range_step_0 by done. cbn. by rewrite app_nil_r. }
      rewrite range_step_S by (simpl; lia).
      cbn [fmap list_fmap foldl]. rewrite Nat.add_0_l, drop_app_length.
      rewrite <- list_fmap_compose.
      pose proof (take_drop batch (x :: l)) as Htd.
      assert (length (take batch (x :: l)) = batch `min` length (x :: l)) as Hlen
        by apply length_take.
      destruct (decide (length (x :: l) ≤ batch)) as [Hle|Hgt].
      + replace (length (x :: l) - batch) with 0 by lia.
        rewrite range_step_0 by done. cbn [fmap list_fmap foldl]. by rewrite take_ge by done.
      + specialize (IH (drop batch (x :: l)) (pre ++ take batch (x :: l))
                       (acc0 ++ take batch (x :: l))).
        rewrite <- app_assoc, Htd in IH. rewrite length_drop in IH.
        rewrite length_app, Hlen in IH.
        rewrite <- (app_assoc acc0), Htd in IH.
        rewrite <- IH by (simpl in *; lia).
        f_equal. apply list_fmap_ext. intros _ i _. simpl in *. lia. }
  specialize (H (length objects) objects [] acc (le_n _)).
  rewrite <- H. f_equal. rewrite <- (list_fmap_id (py.range_step _ _)) at 1.
  apply list_fmap_ext. intros _ i _. simpl. lia.
Qed.

End batches.

(** The sample session satisfies the constraints of the schema. *)
Lemma demo_session_ok : session_ok demo_session.
Proof.
  unfold session_ok. split_and!.
  - apply (bool_decide_unpack _). vm_compute. exact I.
  - repeat constructor.
  - repeat constructor.
  - repeat constructor.
Qed.

Section store.
Import models data_service.

Lemma foldl_db_add_curve (db : session) (f : las_parser.curve_entry → Curve) l :
  foldl (λ db c, db_add_curve db (f c)) db l
  = {| db_wells := db_wells db; db_curves := db_curves db ++ (f <$> l);
       db_well_data := db_well_data db; wells_id_seq := wells_id_seq db |}.
Proof.
  revert db. induction l as [|c l IH]; intros db; cbn [foldl].
  - csimpl. rewrite app_nil_r. by destruct db.
  - rewrite IH. unfold db_add_curve. cbn. by rewrite <- app_assoc.
Qed.

Lemma foldl_bulk_save (db : session) (f : nat → list WellData) (l : list nat) :
  foldl (λ db i, db_bulk_save_objects db (f i)) db l
  = {| db_wells := db_wells db; db_curves := db_curves db;
       db_well_data := foldl (λ acc i, acc ++ f i) (db_well_data db) l;
       wells_id_seq := wells_id_seq db |}.
Proof.
  revert db. induction l as [|i l IH]; intros db; cbn [foldl].
  - by destruct db.
  - by rewrite IH.
Qed.

(** The tables once [store_parsed_las] is through. *)
Lemma store_parsed_las_tables db info parsed original_filename s3_key :
  let db0 := deduplicated db (info_well_name info) in
  let well :=
    {| well_id := wells_id_seq db; models.well_name := info_well_name info;
       start_depth := info_start_depth info; stop_depth := info_stop_depth info;
       depth_unit := info_depth_unit info |} in
  store_parsed_las db info parsed original_filename s3_key
  = ({| db_wells := db_wells db0 ++ [well];
        db_curves := db_curves db0 ++ stored_curves (wells_id_seq db) parsed;
        db_well_data := db_well_data db0 ++ stored_rows (wells_id_seq db) parsed;
        wells_id_seq := (wells_id_seq db + 1)%Z |}, well).
Proof.
  intros db0 well. unfold store_parsed_las. fold (deduplicated db (info_well_name info)).
  fold db0.
  assert (wells_id_seq db0 = wells_id_seq db) as Hseq.
  { unfold db0, deduplicated. by destruct (List.find _ _). }
  rewrite Hseq. fold well. f_equal.
  rewrite foldl_bulk_save, foldl_db_add_curve. cbn [db_wells db_curves db_well_data wells_id_seq well_id].
  f_equal. apply batches_concat. unfold BATCH_SIZE. lia.
Qed.

Lemma find_some_elem {A} (f : A → bool) (l : list A) (x : A) :
  List.find f l = Some x → x ∈ l ∧ f x = true.
Proof.
  induction l as [|y l IH]; [done|]. cbn [List.find].
  destruct (f y) eqn:E.
  - intros [= ->]. split; [left|done].
  - intros [? ?]%IH. split; [by right|done].
Qed.

Lemma find_none_elem {A} (f : A → bool) (l : list A) :
  List.find f l = None → ∀ x, x ∈ l → f x = false.
Proof.
  induction l as [|y l IH]; cbn [List.find]; [by intros _ x ?%elem_of_nil|].
  destruct (f y) eqn:E; [done|]. intros Hl x [->|Hx]%elem_of_cons; auto.
Qed.

Lemma NoDup_fmap_eq {A B} (f : A → B) (l : list A) (x y : A) :
  NoDup (f <$> l) → x ∈ l → y ∈ l → f x = f y → x = y.
Proof.
  induction l as [|z l IH]; csimpl; [by intros _ ?%elem_of_nil|].
  intros [Hz Hnd]%NoDup_cons [->|Hx]%elem_of_cons [->|Hy]%elem_of_cons Hf; auto.
  - exfalso. apply Hz. rewrite Hf. by apply list_elem_of_fmap_2.
  - exfalso. apply Hz. rewrite <- Hf. by apply list_elem_of_fmap_2.
Qed.

Lemma deduplicated_wells db name w :
  session_ok db → NoDup (models.well_name <$> db_wells db) →
  w ∈ db_wells (deduplicated db name) ↔ w ∈ db_wells db ∧ models.well_name w ≠ name.
Proof.
  intros (Hids & _) Hnames. unfold deduplicated.
  destruct (List.find _ (db_wells db)) as [e|] eqn:Hfind.
  - apply find_some_elem in Hfind as [He Hname%String.eqb_eq].
    cbn [db_delete db_wells]. rewrite list_elem_of_filter. split.
    + intros [Hid Hw]. split; [done|]. intros Hn. apply Hid. f_equal.
      eapply (NoDup_fmap_eq models.well_name); try done. congruence.
    + intros [Hw Hn]. split; [|done]. intros Hid. apply Hn.
      rewrite (NoDup_fmap_eq well_id (db_wells db) w e); done.
  - pose proof (find_none_elem _ _ Hfind) as Hnone. split.
    + intros Hw. split; [done|]. specialize (Hnone w Hw).
      by apply String.eqb_neq in Hnone.
    + by intros [? _].
Qed.

(** Removing the well of the same name keeps the constraints. *)
Lemma deduplicated_ok db name : session_ok db → session_ok (deduplicated db name).
Proof.
  intros (Hids & Hseq & Hcurves & Hrows). unfold deduplicated.
  destruct (List.find _ (db_wells db)) as [e|] eqn:Hfind; [|done].
  unfold session_ok. cbn [db_delete db_wells db_curves db_well_data wells_id_seq].
  assert (∀ id, id ∈ well_id <$> db_wells db → id ≠ well_id e →
            id ∈ well_id <$> filter (λ w, well_id w ≠ well_id e) (db_wells db)) as Hkeep.
  { intros id (w & -> & Hw)%list_elem_of_fmap Hne.
    apply list_elem_of_fmap_2. by apply list_elem_of_filter. }
  split_and!.
  - eapply sublist_NoDup; [done|]. apply fmap_sublist, sublist_filter.
  - apply Forall_forall. intros w [_ Hw]%list_elem_of_filter.
    rewrite Forall_forall in Hseq. auto.
  - apply Forall_forall. intros c [Hne Hc]%list_elem_of_filter.
    rewrite Forall_forall in Hcurves. auto.
  - apply Forall_forall. intros r [Hne Hr]%list_elem_of_filter.
    rewrite Forall_forall in Hrows. auto.
Qed.

Lemma session_ok_fresh db id :
  session_ok db → id ∈ well_id <$> db_wells db → (id < wells_id_seq db)%Z.
Proof.
  intros (_ & Hseq & _) (w & -> & Hw)%list_elem_of_fmap.
  rewrite Forall_forall in Hseq. auto.
Qed.

Lemma deduplicated_seq db name : wells_id_seq (deduplicated db name) = wells_id_seq db.
Proof. unfold deduplicated. by destruct (List.find _ _). Qed.

(** X12: in a session that satisfies the constraints of the schema and in
    which no two wells share a name, [store_parsed_las] keeps both
    properties; the well it returns has the name of the file and the next
    id of the sequence, and the wells afterwards are that well and the
    former wells of other names: a former well of the same name is
    replaced. *)
Theorem store_parsed_las_one_well_per_name
    (db : session) (info : well_info) (parsed : las_parser.parsed)
    (original_filename : string) (s3_key : option string) :
  session_ok db → NoDup (models.well_name <$> db_wells db) →
  let db' := (store_parsed_las db info parsed original_filename s3_key).1 in
  let well := (store_parsed_las db info parsed original_filename s3_key).2 in
  session_ok db'
  ∧ NoDup (models.well_name <$> db_wells db')
  ∧ models.well_name well = info_well_name info
  ∧ well_id well = wells_id_seq db
  ∧ ∀ w, w ∈ db_wells db'
         ↔ w = well ∨ (w ∈ db_wells db ∧ models.well_name w ≠ info_well_name info).
Proof.
  intros Hok Hnames db' well. unfold db', well.
  rewrite store_parsed_las_tables. cbn [fst snd db_wells].
  set (db0 := deduplicated db (info_well_name info)).
  pose proof (deduplicated_ok db (info_well_name info) Hok) as Hok0. fold db0 in Hok0.
  pose proof (deduplicated_seq db (info_well_name info)) as Hseq0. fold db0 in Hseq0.
  set (new := {| well_id := wells_id_seq db |}).
  assert (∀ w, w ∈ db_wells db0 ↔ w ∈ db_wells db ∧ models.well_name w ≠ info_well_name info)
    as Hdb0 by (intros; by apply deduplicated_wells).
  split_and!; try done.
  - destruct Hok0 as (Hids & Hseq & Hcurves & Hrows).
    unfold session_ok. cbn [db_wells db_curves db_well_data wells_id_seq].
    rewrite fmap_app. cbn [fmap list_fmap well_id new].
    split_and!.
    + apply NoDup_app. split_and!; [done| |apply NoDup_singleton].
      intros id Hid ->%list_elem_of_singleton.
      pose proof (session_ok_fresh db0 _ (conj Hids (conj Hseq (conj Hcurves Hrows))) Hid).
      lia.
    + apply Forall_app. split.
      * eapply Forall_impl; [done|]. intros w Hw. simpl in Hw. lia.
      * repeat constructor. simpl. lia.
    + apply Forall_app. split.
      * eapply Forall_impl; [done|]. intros c Hc. simpl in Hc. set_solver.
      * apply Forall_fmap, Forall_forall. intros c _. simpl. set_solver.
    + apply Forall_app. split.
      * eapply Forall_impl; [done|]. intros c Hc. simpl in Hc. set_solver.
      * apply Forall_fmap, Forall_forall. intros c _. simpl. set_solver.
  - rewrite fmap_app. apply NoDup_app. split_and!.
    + eapply sublist_NoDup; [done|]. apply fmap_sublist.
      unfold db0, deduplicated. destruct (List.find _ _); [apply sublist_filter|done].
    + intros name (w & -> & Hw)%list_elem_of_fmap Hn%list_elem_of_singleton.
      apply Hdb0 in Hw as [_ Hw]. done.
    + apply NoDup_singleton.
  - intros w. rewrite elem_of_app, list_elem_of_singleton, Hdb0. tauto.
Qed.

Lemma store_parsed_las_one_well_per_name_demo :
  let db' := (store_parsed_las demo_session demo_info demo_parsed "demo.las" None).1 in
  let well := (store_parsed_las demo_session demo_info demo_parsed "demo.las" None).2 in
  session_ok db'
  ∧ NoDup (models.well_name <$> db_wells db')
  ∧ models.well_name well = "DEMO-1"
  ∧ well_id well = 2%Z
  ∧ db_wells db' = [well].
Proof.
  destruct (store_parsed_las_one_well_per_name
              demo_session demo_info demo_parsed "demo.las" None)
    as (H1 & H2 & H3 & H4 & _).
  - exact demo_session_ok.
  - repeat constructor. apply not_elem_of_nil.
  - split_and!; [exact H1|exact H2|exact H3|exact H4|reflexivity].
Defined.

End store.

Section store_more.
Import models data_service.

Lemma filter_nil_of {A} (P : A → Prop) `{∀ x, Decision (P x)} (l : list A) :
  (∀ x, x ∈ l → ¬ P x) → filter P l = [].
Proof.
  intros HP. induction l as [|x l IH]; [done|].
  rewrite filter_cons_False by (apply HP; left).
  apply IH. intros y Hy. apply HP. by right.
Qed.



(** Rows in strictly increasing depth are sorted as they are. *)
Lemma sorted_strictly_increasing (l : list WellData) :
  strictly_increasing (depth <$> l) = true →
  py.sorted (λ a b, (depth a <? depth b)%float) l = l.
Proof.
  induction l as [|x l IH]; [done|]. intros Hl.
  cbn [py.sorted foldr]. fold (py.sorted (λ a b, (depth a <? depth b)%float) l).
  destruct l as [|y l]; [done|].
  cbn [fmap list_fmap strictly_increasing] in Hl.
  apply andb_true_iff in Hl as [Hxy Hl].
  rewrite IH by done. cbn [py.insert_sorted].
  by rewrite (float_ltb_asym _ _ Hxy).
Qed.

(** Rows whose depths are numbers come out of the sort by
    non-decreasing depth. *)
Lemma sorted_by_depth (l : list WellData) :
  Forall (λ row, py.is_nan (depth row) = false) l →
  Sorted (λ a b, (depth a <=? depth b)%float = true)
         (py.sorted (λ a b, (depth a <? depth b)%float) l).
Proof.
  intros Hl. apply (sorted_rel (λ row, py.is_nan (depth row) = false)); [| |done].
  - intros a b. apply float_ltb_leb.
  - intros a b Ha Hb Hab. by apply float_not_ltb.
Qed.

(** X13: what [store_parsed_las] stored can be read back: the curves of the
    new well are the curves of the parsed file, in their order; a data
    query on the new well without depth bounds returns the points of the
    parsed rows, each row once; the rows are by non-decreasing depth
    when no parsed depth is a NaN; and when the parsed depths are
    strictly increasing the points are those of the parsed rows in the
    order of the file. *)
Theorem store_parsed_las_round_trip
    (db : session) (info : well_info) (parsed : las_parser.parsed)
    (original_filename : string) (s3_key : option string)
    (curves_asked : list string) :
  session_ok db →
  let db' := (store_parsed_las db info parsed original_filename s3_key).1 in
  let well := (store_parsed_las db info parsed original_filename s3_key).2 in
  let points := get_well_data (db_well_data db') (well_id well) curves_asked None None in
  mnemonic <$> filter (λ c, curve_well_id c = well_id well) (db_curves db')
  = las_parser.mnemonic <$> las_parser.curves parsed
  ∧ (∃ rows, points = make_point curves_asked <$> rows
       ∧ rows ≡ₚ stored_rows (well_id well) parsed
       ∧ (Forall (λ row, py.is_nan (las_parser.depth row) = false)
                 (las_parser.data_rows parsed) →
          Sorted (λ a b, (depth a <=? depth b)%float = true) rows))
  ∧ length points = length (las_parser.data_rows parsed)
  ∧ (strictly_increasing (las_parser.depth <$> las_parser.data_rows parsed) = true →
     points = make_point curves_asked <$> stored_rows (well_id well) parsed).
Proof.
  intros Hok db' well points. unfold points, db', well.
  rewrite store_parsed_las_tables. cbn [fst snd well_id db_curves db_well_data].
  set (db0 := deduplicated db (info_well_name info)).
  set (id := wells_id_seq db).
  pose proof (deduplicated_ok db (info_well_name info) Hok) as Hok0. fold db0 in Hok0.
  pose proof (deduplicated_seq db (info_well_name info)) as Hseq0. fold db0 in Hseq0.
  destruct Hok0 as (Hids & Hseq & Hcurves & Hrows).
  assert (id ∉ well_id <$> db_wells db0) as Hfresh.
  { intros Hin.
    pose proof (session_ok_fresh db0 _ (conj Hids (conj Hseq (conj Hcurves Hrows))) Hin).
    unfold id in *. lia. }
  assert (filter (λ row, data_well_id row = id) (db_well_data db0 ++ stored_rows id parsed)
          = stored_rows id parsed) as Hnew.
  { rewrite filter_app, filter_nil_of, filter_True; [done| |].
    - intros row (r & -> & _)%list_elem_of_fmap. done.
    - intros row Hrow Hid. rewrite Forall_forall in Hrows.
      apply Hfresh. rewrite <- Hid. by apply Hrows. }
  assert (get_well_data (db_well_data db0 ++ stored_rows id parsed) id curves_asked None None
          = make_point curves_asked
              <$> py.sorted (λ a b, (depth a <? depth b)%float) (stored_rows id parsed))
    as Hget.
  { unfold get_well_data, query_rows. by rewrite Hnew. }
  assert (depth <$> stored_rows id parsed
          = las_parser.depth <$> las_parser.data_rows parsed) as Hdepths.
  { unfold stored_rows. by rewrite <- list_fmap_compose. }
  split_and!.
  - rewrite filter_app, filter_nil_of, filter_True.
    + cbn [app]. unfold stored_curves. rewrite <- list_fmap_compose. done.
    + intros c (r & -> & _)%list_elem_of_fmap. done.
    + intros c Hc Hid. rewrite Forall_forall in Hcurves.
      apply Hfresh. rewrite <- Hid. by apply Hcurves.
  - eexists. split_and!; [exact Hget|apply sorted_perm|].
    intros Hnan. apply sorted_by_depth.
    unfold stored_rows. apply Forall_fmap. by eapply Forall_impl.
  - rewrite Hget, length_fmap, sorted_length. unfold stored_rows. by rewrite length_fmap.
  - intros Hinc. rewrite Hget, sorted_strictly_increasing; [done|]. by rewrite Hdepths.
Qed.

Lemma store_parsed_las_round_trip_demo :
  let db' := (store_parsed_las demo_session demo_info demo_parsed "demo.las" None).1 in
  curves_of db' 2 = ["HC1"]
  ∧ ∃ rows, get_well_data (db_well_data db') 2 ["HC1"] None None
            = make_point ["HC1"] <$> rows
      ∧ rows ≡ₚ stored_rows 2 demo_parsed
      ∧ Sorted (λ a b, (depth a <=? depth b)%float = true) rows.
Proof.
  destruct (store_parsed_las_round_trip
              demo_session demo_info demo_parsed "demo.las" None ["HC1"])
    as (H1 & (rows & H2 & H3 & H4) & _).
  - exact demo_session_ok.
  - split; [exact H1|]. exists rows. split_and!; [exact H2|exact H3|].
    apply H4. repeat constructor.
Defined.


End store_more.

(** ** The data and the delete endpoints *)

Section strings.

(** [strip] and [split] on the names of a curve list. *)
Lemma rstrip_idemp s : py.rstrip (py.rstrip s) = py.rstrip s.
Proof.
  induction s as [|c s IH]; [done|]. cbn [py.rstrip].
  destruct (py.rstrip s) as [|d r] eqn:E.
  - destruct (py.is_space c) eqn:Hc; [done|]. cbn [py.rstrip]. by rewrite Hc.
  - cbn [py.rstrip]. cbn [py.rstrip] in IH. by rewrite IH.
Qed.

Lemma rstrip_head c s :
  py.is_space c = false → ∃ r, py.rstrip (String c s) = String c r.
Proof. intros Hc. cbn [py.rstrip]. destruct (py.rstrip s); rewrite ?Hc; by eexists. Qed.

Lemma lstrip_head s :
  py.lstrip s = EmptyString ∨ ∃ c r, py.lstrip s = String c r ∧ py.is_space c = false.
Proof.
  induction s as [|c s IH]; [by left|]. cbn [py.lstrip].
  destruct (py.is_space c) eqn:Hc; [done|]. right. by do 2 eexists.
Qed.

Lemma strip_idemp s : py.strip (py.strip s) = py.strip s.
Proof.
  unfold py.strip. destruct (lstrip_head s) as [->|(c & r & -> & Hc)]; [done|].
  destruct (rstrip_head c r Hc) as [r' Hr]. rewrite Hr.
  cbn [py.lstrip]. rewrite Hc, <- Hr. apply rstrip_idemp.
Qed.

Lemma has_char_lstrip sep s : has_char sep s = false → has_char sep (py.lstrip s) = false.
Proof.
  induction s as [|c s IH]; [done|]. cbn [py.lstrip has_char].
  intros [Hc Hs]%orb_false_iff. destruct (py.is_space c); [by apply IH|].
  cbn [has_char]. by rewrite Hc, Hs.
Qed.

Lemma has_char_rstrip sep s : has_char sep s = false → has_char sep (py.rstrip s) = false.
Proof.
  induction s as [|c s IH]; [done|]. cbn [py.rstrip has_char].
  intros [Hc Hs]%orb_false_iff. specialize (IH Hs).
  destruct (py.rstrip s) as [|d r].
  - destruct (py.is_space c); [done|]. cbn [has_char]. by rewrite Hc.
  - cbn [has_char] in *. by rewrite Hc, IH.
Qed.

Lemma has_char_strip sep s : has_char sep s = false → has_char sep (py.strip s) = false.
Proof. intros Hs. by apply has_char_rstrip, has_char_lstrip. Qed.

Lemma split_pieces sep s : Forall (λ p, has_char sep p = false) (py.split sep s).
Proof.
  induction s as [|c s IH]; [by repeat constructor|]. cbn [py.split].
  destruct (Ascii.eqb c sep) eqn:E; [by constructor|].
  destruct (py.split sep s) as [|p ps]; [by repeat constructor; cbn; rewrite E|].
  apply Forall_cons in IH as [Hp Hps]. constructor; [|done].
  cbn [has_char]. by rewrite E, Hp.
Qed.

Lemma split_no_sep sep s : has_char sep s = false → py.split sep s = [s].
Proof.
  induction s as [|c s IH]; [done|]. cbn [py.split has_char].
  intros [Hc Hs]%orb_false_iff. by rewrite Hc, IH.
Qed.

Lemma split_app sep s t :
  has_char sep s = false →
  py.split sep (s +:+ String sep t) = s :: py.split sep t.
Proof.
  induction s as [|c s IH].
  - intros _. change (EmptyString +:+ String sep t) with (String sep t).
    cbn [py.split]. by rewrite Ascii.eqb_refl.
  - change (String c s +:+ String sep t) with (String c (s +:+ String sep t)).
    cbn [py.split has_char]. intros [Hc Hs]%orb_false_iff. by rewrite Hc, IH.
Qed.

Lemma split_join (names : list string) :
  names ≠ [] → Forall (λ c, has_char "," c = false) names →
  py.split "," (py.join "," names) = names.
Proof.
  intros Hne Hnames. induction Hnames as [|c names Hc Hnames IH]; [done|].
  destruct names as [|d names].
  - by apply split_no_sep.
  - change (py.join "," (c :: d :: names))
      with (c +:+ String "," (py.join "," (d :: names))).
    rewrite split_app by done. f_equal. by apply IH.
Qed.

(** X15: the curve list of the data endpoint: names that are not empty,
    have nothing to strip and hold no comma are read back, in order, from
    the text that joins them with commas; and every entry of the list
    read from any text is such a name. *)
Theorem curve_list_round_trip :
  (∀ names, Forall clean_name names →
     wells.curve_list_of (py.join "," names) = names)
  ∧ (∀ curves, Forall clean_name (wells.curve_list_of curves)).
Proof.
  split.
  - intros names Hnames. unfold wells.curve_list_of.
    destruct names as [|c names]; [done|].
    rewrite split_join; [|done|].
    2:{ eapply Forall_impl; [done|]. by intros ? (_ & _ & ?). }
    rewrite filter_True.
    + rewrite <- (list_fmap_id (c :: names)) at 2.
      apply Forall_fmap_ext_1. eapply Forall_impl; [done|]. by intros ? (_ & ? & _).
    + intros x Hx. rewrite Forall_forall in Hnames.
      destruct (Hnames x Hx) as (Hne & -> & _). done.
  - intros curves. unfold wells.curve_list_of.
    apply Forall_fmap, Forall_forall. intros c [Hc Hin]%list_elem_of_filter.
    split_and!; [done|apply strip_idemp|].
    apply has_char_strip. pose proof (split_pieces "," curves) as Hp.
    rewrite Forall_forall in Hp. by apply Hp.
Qed.

Lemma curve_list_round_trip_demo :
  wells.curve_list_of "HC1,HC2" = ["HC1"; "HC2"].
Proof.
  apply (proj1 curve_list_round_trip ["HC1"; "HC2"]).
  repeat constructor; done.
Defined.

End strings.

Section wells_props.
Import models data_service.

(** The query for a well by its id. *)
Lemma find_by_id_elem (l : list Well) id well :
  List.find (λ w, bool_decide (well_id w = id)) l = Some well →
  well ∈ l ∧ well_id well = id.
Proof.
  intros [Hw Hid]%find_some_elem. split; [done|]. by apply bool_decide_eq_true in Hid.
Qed.

Lemma find_by_id_none (l : list Well) id :
  List.find (λ w, bool_decide (well_id w = id)) l = None ↔ Forall (λ w, well_id w ≠ id) l.
Proof.
  induction l as [|w l IH]; cbn [List.find]; [by split; [constructor|]|].
  rewrite Forall_cons. case_bool_decide; [|tauto]. split; [done|]. by intros [? _].
Qed.

Lemma difference_empty_Forall (l k : list string) :
  (list_to_set l : gset string) ∖ list_to_set k = ∅ ↔ Forall (λ c, c ∈ k) l.
Proof.
  rewrite Forall_forall. split.
  - intros H c Hc. destruct (decide (c ∈ k)) as [Hin|Hn]; [done|].
    assert (c ∈ (list_to_set l : gset string) ∖ list_to_set k) as Hd.
    { apply elem_of_difference. by rewrite !elem_of_list_to_set. }
    rewrite H in Hd. by apply elem_of_empty in Hd.
  - intros H. apply set_eq. intros c.
    rewrite elem_of_difference, !elem_of_list_to_set. split.
    + intros [Hc Hn]. exfalso. by apply Hn, H.
    + by intros ?%elem_of_empty.
Qed.

(** X16: [get_data] answers 404 [Well not found.] exactly when no well has
    the id; it returns a response exactly when the well exists, the curve
    list is not empty and each of its entries is a curve of the well; and
    the response then carries that curve list and the rows that
    [get_well_data] gives for it and the bounds. *)
Theorem get_data_served (db : session) (id : Z) (curves : string)
    (depth_min depth_max : option float) :
  let curve_list := wells.curve_list_of curves in
  (Forall (λ w, well_id w ≠ id) (db_wells db)
   ↔ wells.get_data db id curves depth_min depth_max
     = Raise (HTTPException 404 "Well not found."))
  ∧ ((∃ resp, wells.get_data db id curves depth_min depth_max = Ok resp)
     ↔ (∃ well, well ∈ db_wells db ∧ well_id well = id)
       ∧ curve_list ≠ []
       ∧ Forall (λ c, c ∈ curves_of db id) curve_list)
  ∧ (∀ resp, wells.get_data db id curves depth_min depth_max = Ok resp →
       wells.curves resp = curve_list
       ∧ wells.data resp
         = get_well_data (db_well_data db) id curve_list depth_min depth_max).
Proof.
  intros curve_list. unfold wells.get_data. fold curve_list. fold (curves_of db id).
  set (available := list_to_set (curves_of db id) : gset string).
  assert (list_to_set curve_list ∖ available = (∅ : gset string)
          ↔ Forall (λ c, c ∈ curves_of db id) curve_list) as Hinv.
  { apply difference_empty_Forall. }
  destruct (List.find _ (db_wells db)) as [well|] eqn:Hfind.
  - apply find_by_id_elem in Hfind as Hwell.
    assert (¬ Forall (λ w, well_id w ≠ id) (db_wells db)) as Hnot.
    { rewrite Forall_forall. intros H. destruct Hwell as [Hw Hid]. by apply (H well). }
    destruct curve_list as [|c cs] eqn:Hlist.
    { split_and!; [done| |done]. split; [by intros [? ?]|]. by intros (_ & ? & _). }
    rewrite <- Hlist in *. case_bool_decide as Hbad.
    + split_and!; [done| |done]. split; [by intros [? ?]|].
      intros (_ & _ & Hall). by apply Hinv in Hall.
    + split_and!; [done| |intros resp Hresp; by injection Hresp as <-].
      split; [|by eexists]. intros _. split_and!; [by eexists|by rewrite Hlist|].
      apply Hinv. by destruct (decide (list_to_set curve_list ∖ available = (∅ : gset string))).
  - apply find_by_id_none in Hfind as Hnone. split_and!; [done| |done].
    split; [by intros [? ?]|]. intros ((well & Hw & Hid) & _).
    rewrite Forall_forall in Hnone. by destruct (Hnone well Hw).
Qed.

Lemma get_data_served_demo :
  ∃ resp, wells.get_data demo_session 1 "HC1, HC2" None None = Ok resp
    ∧ wells.curves resp = ["HC1"; "HC2"]
    ∧ length (wells.data resp) = 2.
Proof.
  destruct (get_data_served demo_session 1 "HC1, HC2" None None) as (_ & H2 & H3).
  destruct (proj2 H2) as [resp Hresp].
  - split_and!.
    + exists demo_well. split; [apply list_elem_of_here|reflexivity].
    + discriminate.
    + repeat constructor.
  - exists resp. destruct (H3 resp Hresp) as [Hc Hd].
    split_and!; [exact Hresp|exact Hc|]. rewrite Hd. reflexivity.
Defined.




End wells_props.

(** ** Data queries and statistics *)

Section data.
Import models data_service.

(** The entries of a point. *)
Lemma make_point_lookup (curves : list string) (row : WellData) (key : string) :
  make_point curves row !! key
  = if decide (key ∈ curves) then Some (mjoin (values row !! key))
    else if decide (key = "depth") then Some (Some (depth row)) else None.
Proof.
  unfold make_point.
  rewrite (foldl_insert_lookup (λ curve, mjoin (values row !! curve))).
  destruct (decide (key ∈ curves)); [done|].
  destruct (decide (key = "depth")) as [->|Hne].
  - apply lookup_singleton_eq.
  - by apply lookup_singleton_ne.
Qed.

(** X18: when the bounds that are given and the stored depths are
    numbers, [get_well_data] returns the points of exactly the stored
    rows of the well inside the bounds, each row once, by non-decreasing
    depth; the keys of a point are [depth] and the requested curves, a
    curve holding the value of the row or [None] where the row has no
    value for it. *)
Theorem get_well_data_sorted (table : list WellData) (well : Z)
    (curves : list string) (depth_min depth_max : option float) :
  number_bound depth_min → number_bound depth_max →
  Forall (λ row, py.is_nan (depth row) = false) table →
  ∃ rows,
    get_well_data table well curves depth_min depth_max = make_point curves <$> rows
    ∧ rows ≡ₚ filter (λ row, in_window well depth_min depth_max row = true) table
    ∧ Sorted (λ a b, (depth a <=? depth b)%float = true) rows
    ∧ Forall (λ row,
                dom (make_point curves row) = {["depth"]} ∪ list_to_set curves
                ∧ (∀ c, c ∈ curves →
                     make_point curves row !! c = Some (mjoin (values row !! c)))
                ∧ ("depth" ∉ curves →
                     make_point curves row !! "depth" = Some (Some (depth row))))
             rows.
Proof.
  intros _ _ Hnan. exists (query_rows table well depth_min depth_max).
  pose proof (query_rows_perm table well depth_min depth_max) as Hperm.
  split_and!; [done|done| |].
  - unfold query_rows. apply sorted_by_depth.
    assert (∀ (P : WellData → Prop) `{∀ x, Decision (P x)} l,
                Forall (λ row, py.is_nan (depth row) = false) l →
                Forall (λ row, py.is_nan (depth row) = false) (filter P l)) as Hf.
    { intros P ? l Hl. apply Forall_forall. intros row [_ Hrow]%list_elem_of_filter.
      rewrite Forall_forall in Hl. auto. }
    destruct depth_min, depth_max; repeat apply Hf; done.
  - apply Forall_forall. intros row _. split_and!.
    + unfold make_point.
      rewrite (foldl_insert_dom (λ curve, mjoin (values row !! curve))).
      rewrite dom_singleton_L. set_solver.
    + intros c Hc. by rewrite make_point_lookup, decide_True.
    + intros Hd. by rewrite make_point_lookup, decide_False, decide_True.
Qed.

Lemma get_well_data_sorted_demo :
  ∃ rows,
    get_well_data (interpretation.well_data demo_db) 1 ["HC1"]
      (Some 8000.5%float) None
    = make_point ["HC1"] <$> rows
    ∧ length rows = 1
    ∧ Sorted (λ a b, (depth a <=? depth b)%float = true) rows.
Proof.
  destruct (get_well_data_sorted (interpretation.well_data demo_db) 1 ["HC1"]
              (Some 8000.5%float) None)
    as (rows & H1 & H2 & H3 & _).
  - reflexivity.
  - exact I.
  - repeat constructor.
  - exists rows. split_and!; [exact H1| |exact H3].
    rewrite (Permutation_length H2). reflexivity.
Defined.
(** X19: in the entry of [get_well_statistics] for a requested curve the
    [non_null_count] is at most the [count]; [min], [max] and [mean] are
    all three defined when the [non_null_count] is positive and all three
    [None] when it is 0, and in no other case; and the two counts are
    equal exactly when every row of the window has a value for the
    curve. *)
Theorem statistics_entries (table : list WellData) (well : Z)
    (curves : list string) (depth_min depth_max : option float) :
  let data := get_well_data table well curves depth_min depth_max in
  let stats := get_well_statistics table well curves depth_min depth_max in
  Forall (λ curve,
            ∃ st, stats !! curve = Some st
              ∧ s_non_null_count st ≤ s_count st
              ∧ (s_non_null_count st = 0
                 ↔ s_min st = None ∧ s_max st = None ∧ s_mean st = None)
              ∧ (0 < s_non_null_count st
                 ↔ is_Some (s_min st) ∧ is_Some (s_max st) ∧ is_Some (s_mean st))
              ∧ (s_non_null_count st = s_count st
                 ↔ Forall (λ p, is_Some (point_get p curve)) data))
         curves.
Proof.
  intros data stats. apply Forall_forall. intros curve Hcurve.
  unfold stats, get_well_statistics.
  rewrite foldl_insert_lookup. rewrite decide_True by done.
  eexists. split; [done|]. fold data. unfold curve_statistics.
  pose proof (omap_length_le (λ p, point_get p curve) data) as Hle.
  assert (length (omap (λ p, point_get p curve) data) = length data
          ↔ Forall (λ p, is_Some (point_get p curve)) data) as Hall.
  { clear. induction data as [|p data IH]; [by split; [constructor|]|].
    pose proof (omap_length_le (λ p, point_get p curve) data) as Hle.
    change (omap (λ p, point_get p curve) (p :: data))
      with (from_option (λ y, y :: omap (λ p, point_get p curve) data)
              (omap (λ p, point_get p curve) data) (point_get p curve)).
    rewrite Forall_cons. destruct (point_get p curve) as [v|]; simpl.
    - rewrite <- IH. split; [intros [= ->]; split; [by eexists|done]|intros [_ ->]; done].
    - split; [lia|]. by intros [[? ?] _]. }
  destruct (omap (λ p, point_get p curve) data) as [|v vs]; cbn in *.
  - split_and!; [lia|done| |done]. split; [lia|]. by intros ([? ?] & _).
  - split_and!; [lia| | |done].
    + split; [lia|]. by intros [? _].
    + split; [|lia]. intros _. by split_and!.
Qed.

End data.

Section interpret_more.
Import models interpretation.
Context (interpret_well_data :
  string → list string → float → float →
  gmap string data_service.curve_stats → list data_service.point → result pyval).

(** X20: the interpretation endpoint asks for the statistics, the data and
    the interpretation, in this order and once each, exactly when the
    well exists, every requested curve is a curve of the well and
    [depth_max <= depth_min] is false; otherwise it makes none of the
    three calls and answers 404 or 400.  It returns a response exactly
    when it makes the calls and the interpretation returns; the response
    then carries the id, the curves and the bounds of the request and the
    interpretation of the statistics and the rows of the request; an
    exception of the interpretation leaves the handler as it is. *)
Theorem interpret_served (db : database) (id : Z) (request : InterpretationRequest) :
  let passes :=
    (∃ well, well ∈ wells db ∧ well_id well = id)
    ∧ Forall (λ c, c ∈ mnemonic <$> filter (λ c, curve_well_id c = id) (curve_table db))
             (curves request)
    ∧ (depth_max request <=? depth_min request)%float = false in
  let answer := λ name,
    interpret_well_data name (curves request) (depth_min request) (depth_max request)
      (data_service.get_well_statistics (well_data db) id (curves request)
         (Some (depth_min request)) (Some (depth_max request)))
      (data_service.get_well_data (well_data db) id (curves request)
         (Some (depth_min request)) (Some (depth_max request))) in
  let found := List.find (λ w, bool_decide (well_id w = id)) (wells db) in
  ((interpret interpret_well_data db id request).1
     = [CallStatistics; CallData; CallInterpret] ↔ passes)
  ∧ ((interpret interpret_well_data db id request).1 = []
     ∨ (interpret interpret_well_data db id request).1
       = [CallStatistics; CallData; CallInterpret])
  ∧ ((interpret interpret_well_data db id request).1 = [] →
     ∃ code detail,
       (interpret interpret_well_data db id request).2
       = Raise (HTTPException code detail)
       ∧ (code = 404%Z ∨ code = 400%Z))
  ∧ ((∃ resp, (interpret interpret_well_data db id request).2 = Ok resp)
     ↔ passes ∧ ∃ well v, found = Some well ∧ answer (well_name well) = Ok v)
  ∧ (∀ resp, (interpret interpret_well_data db id request).2 = Ok resp →
       resp_well_id resp = id
       ∧ curves_analyzed resp = curves request
       ∧ (depth_range resp).1 = (depth_min request, depth_max request)
       ∧ answer (resp_well_name resp) = Ok (interpretation.interpretation resp))
  ∧ (∀ well e, found = Some well → passes → answer (well_name well) = Raise e →
       interpret interpret_well_data db id request
       = ([CallStatistics; CallData; CallInterpret], Raise e)).
Proof.
  intros passes answer found. unfold passes, answer, found, interpret.
  set (names := mnemonic <$> filter (λ c, curve_well_id c = id) (curve_table db)).
  pose proof (difference_empty_Forall (curves request) names) as Hinv.
  destruct (List.find _ (wells db)) as [well|] eqn:Hfind.
  - apply find_by_id_elem in Hfind as [Hwell Hid].
    case_bool_decide as Hbad.
    { cbn [fst snd]. split_and!; [|by left|by eexists _, _; split; [|right]| |done|].
      - split; [done|]. intros (_ & Hall & _). by apply Hinv in Hall.
      - split; [by intros [? ?]|]. intros ((_ & Hall & _) & _). by apply Hinv in Hall.
      - intros w e [= <-] (_ & Hall & _). by apply Hinv in Hall. }
    destruct (depth_max request <=? depth_min request)%float eqn:Hrange.
    { cbn [fst snd]. split_and!; [|by left|by eexists _, _; split; [|right]| |done|].
      - split; [done|]. by intros (_ & _ & ?).
      - split; [by intros [? ?]|]. by intros ((_ & _ & ?) & _).
      - by intros w e _ (_ & _ & ?). }
    assert (Forall (λ c, c ∈ names) (curves request)) as Hall.
    { apply Hinv.
      by destruct (decide (list_to_set (curves request) ∖ list_to_set names
                           = (∅ : gset string))). }
    cbn [fst snd]. split_and!; [|by right|done| | |].
    + split; [|done]. intros _. split_and!; [by eexists|done|done].
    + split.
      * intros [resp Hresp]. split; [split_and!; [by eexists|done|done]|].
        destruct (interpret_well_data _ _ _ _ _ _) as [v|e] eqn:Hv; [|done].
        by exists well, v.
      * intros (_ & w & v & [= <-] & ->). by eexists.
    + intros resp Hresp.
      destruct (interpret_well_data _ _ _ _ _ _) as [v|e] eqn:Hv; [|done].
      injection Hresp as <-. by cbn.
    + intros w e [= <-] _ ->. done.
  - cbn [fst snd]. split_and!; [|by left|by eexists _, _; split; [|left]| |done|done].
    + split; [done|]. intros ((well & Hw & Hid) & _).
      apply find_by_id_none in Hfind. rewrite Forall_forall in Hfind.
      by destruct (Hfind well Hw).
    + split; [by intros [? ?]|]. by intros (_ & ? & ? & ? & _).
Qed.

End interpret_more.

Lemma interpret_served_demo :
  ∃ resp,
    interpretation.interpret (λ _ _ _ _ _ _, Ok (PList [])) demo_db 1 demo_request
    = ([interpretation.CallStatistics; interpretation.CallData;
        interpretation.CallInterpret], Ok resp)
    ∧ interpretation.curves_analyzed resp = ["HC1"].
Proof.
  destruct (interpret_served (λ _ _ _ _ _ _, Ok (PList [])) demo_db 1 demo_request)
    as (H1 & _ & _ & H4 & H5 & _).
  destruct (proj2 H4) as [resp Hresp].
  - split; [split_and!|].
    + exists demo_well. split; [apply list_elem_of_here|reflexivity].
    + repeat constructor.
    + reflexivity.
    + exists demo_well, (PList []). split; reflexivity.
  - exists resp. destruct (H5 resp Hresp) as (_ & Hc & _).
    split; [|exact Hc]. rewrite <- Hresp. reflexivity.
Defined.

(** ** The zones of a deterministic interpretation *)

Section fallback_shape.
Import data_service ai_service.
Context (float_str : float → string).

(** A zone entry carries the rounded bounds it is built from and one of the
    three labels. *)
Lemma zone_entry_shape sample_data top3 overall (a b : float) :
  ∃ zone, zone_entry float_str sample_data top3 overall (a, b) = Ok zone
    ∧ zone_between (py.round a 1) (py.round b 1) zone.
Proof.
  unfold zone_entry.
  assert (∀ r, zone_label r ∈ zone_labels) as Hlabel.
  { intros r. unfold zone_label, zone_labels.
    destruct (_ <=? _)%float; [by repeat constructor|].
    destruct (_ <=? _)%float; by repeat constructor. }
  destruct (0 <? overall)%float; [rewrite truediv_max_eps|];
    cbn [mbind result_bind]; eexists; (split; [reflexivity|]);
    (split_and!; [done|done|]); eexists; (split; [reflexivity|]); apply Hlabel.
Qed.

(** The loop of the gas shows adds at most one entry per curve it looks at. *)
Lemma gas_shows_loop_length (sample_data : list point) (todo : list (string * string)) :
  ∃ shows, gas_shows_loop float_str sample_data todo = Ok shows
    ∧ length shows ≤ length todo.
Proof.
  induction todo as [|[curve_name confidence] rest (shows & IH & Hlen)]; cbn [gas_shows_loop].
  { eexists. split; [done|]. simpl. lia. }
  destruct (high_interval_ok sample_data curve_name) as [r ->].
  cbn [mbind result_bind]. rewrite IH. cbn [mbind result_bind].
  eexists. split; [done|]. destruct r; simpl; lia.
Qed.

(** X21: when at least one requested curve has valid points,
    [_fallback_interpretation] returns an object with exactly three
    zones that tile the interval: the first starts at the rounded
    [depth_min], each next one starts where the one before ends, and the
    last ends at the rounded [depth_max]; each zone carries one of the
    three zone labels; there are at most two gas shows; the fluid type is
    one of the four fluid types and both risks are [High], [Med] or
    [Low]. *)
Theorem fallback_interpretation_shape
    (well_name : string) (curves : list string) (depth_min depth_max : float)
    (statistics : gmap string curve_stats) (sample_data : list point) :
  Exists (λ curve, has_valid_points statistics curve = true) curves →
  ∃ r z1 z2 z3 gas_shows fluid_type seal saturation m1 m2,
    _fallback_interpretation float_str well_name curves depth_min depth_max
      statistics sample_data = Ok r
    ∧ pyval_get r "zones" = Some (PList [z1; z2; z3])
    ∧ zone_between (py.round depth_min 1) m1 z1
    ∧ zone_between m1 m2 z2
    ∧ zone_between m2 (py.round depth_max 1) z3
    ∧ pyval_get r "gas_shows" = Some (PList gas_shows) ∧ length gas_shows ≤ 2
    ∧ pyval_get r "fluid_type" = Some (PStr fluid_type) ∧ fluid_type ∈ fluid_types
    ∧ (pyval_get r "risk_profile" ≫= λ p, pyval_get p "seal_risk") = Some (PStr seal)
    ∧ seal ∈ risk_levels
    ∧ (pyval_get r "risk_profile" ≫= λ p, pyval_get p "saturation_risk")
      = Some (PStr saturation)
    ∧ saturation ∈ risk_levels.
Proof.
  intros Hvalid. unfold _fallback_interpretation.
  destruct (filter _ curves) as [|c0 valid] eqn:Hf.
  { exfalso. apply Exists_exists in Hvalid as (c & Hc & Hv).
    assert (c ∈ filter (λ curve, has_valid_points statistics curve = true) curves) as Hin
      by by apply list_elem_of_filter.
    rewrite Hf in Hin. by apply elem_of_nil in Hin. }
  set (valid_curves := c0 :: valid) in *.
  cbv zeta.
  set (hydro := match filter _ valid_curves with [] => _ | _ => _ end).
  assert (hydro ≠ []) as Hhydro.
  { unfold hydro. destruct (filter _ valid_curves) eqn:Hf'; [|done].
    intros E. apply (f_equal length) in E. revert E.
    unfold py.sorted_desc_by. rewrite length_take, sorted_length. simpl. lia. }
  set (ranked := py.sorted_desc_by _ hydro).
  assert (ranked ≠ []) as Hranked by by apply sorted_nonempty.
  destruct (index_0_ok ranked Hranked) as [primary Hprimary].
  rewrite Hprimary. cbn [mbind result_bind].
  assert (∃ secondary,
            (if (1 <? length ranked)%nat then py.index ranked 1
             else Ok primary) = Ok secondary) as [secondary ->].
  { destruct (Nat.ltb_spec 1 (length ranked)); [by apply index_1_ok|by eexists]. }
  cbn [mbind result_bind].
  match goal with |- context [if (0 <? ?y)%float then py.truediv ?x ?y else Ok ?d] =>
    destruct (guarded_truediv_ok x y d) as [wetness ->] end.
  cbn [mbind result_bind].
  assert (∃ balance,
            match statistics !! "TOTAL_GAS" with
            | Some _ =>
                py.truediv (stat_mean statistics "TOTAL_GAS")
                  (py.max2 (stat_mean statistics primary) 1e-9)
            | None => Ok (stat_mean statistics primary)
            end = Ok balance) as [balance ->].
  { destruct (statistics !! "TOTAL_GAS"); [rewrite truediv_max_eps|]; by eexists. }
  cbn [mbind result_bind].
  match goal with
  | |- context [if (0 <? ?y)%float then py.truediv ?x (py.max2 ?y 1e-9) else Ok ?d] =>
      assert (∃ character,
                (if (0 <? y)%float then py.truediv x (py.max2 y 1e-9) else Ok d)
                = Ok character) as [character ->]
        by (destruct (0 <? y)%float; [rewrite truediv_max_eps|]; by eexists)
  end.
  cbn [mbind result_bind].
  match goal with |- context [gas_shows_loop float_str sample_data ?todo] =>
    destruct (gas_shows_loop_length sample_data todo) as (gas_shows & -> & Hshows) end.
  cbn [mbind result_bind].
  match goal with |- context [zone_entry float_str ?sd ?t ?o (?a, ?b)] =>
    destruct (zone_entry_shape sd t o a b) as (zc & -> & Hzc) end.
  cbn [mbind result_bind].
  match goal with |- context [zone_entry float_str ?sd ?t ?o (?a, ?b)] =>
    destruct (zone_entry_shape sd t o a b) as (zb & -> & Hzb) end.
  cbn [mbind result_bind].
  match goal with |- context [zone_entry float_str ?sd ?t ?o (?a, ?b)] =>
    destruct (zone_entry_shape sd t o a b) as (za & -> & Hza) end.
  cbn [mbind result_bind].
  rewrite truediv_max_eps. cbn [mbind result_bind].
  eexists _, za, zb, zc, gas_shows, _, _, _, _, _.
  split; [reflexivity|]. cbn [pyval_get List.find String.eqb Ascii.eqb Bool.eqb fmap option_fmap option_map snd fst mbind option_bind].
  split_and!; try done.
  - unfold fluid_type_of, fluid_types.
    repeat (destruct (_ <=? _)%float; [by repeat constructor|]). by repeat constructor.
  - unfold risk_levels.
    repeat (destruct (_ <? _)%float; [by repeat constructor|]). by repeat constructor.
  - unfold risk_levels.
    repeat (destruct (_ <? _)%float; [by repeat constructor|]). by repeat constructor.
Qed.

End fallback_shape.

Lemma fallback_interpretation_shape_demo :
  ∃ r z1 z2 z3,
    ai_service._fallback_interpretation (λ _, "0") "DEMO-1" ["HC1"] 8000 9000
      demo_stats (demo_points 20) = Ok r
    ∧ pyval_get r "zones" = Some (PList [z1; z2; z3])
    ∧ ∃ m1 m2, zone_between (py.round 8000 1) m1 z1
        ∧ zone_between m1 m2 z2
        ∧ zone_between m2 (py.round 9000 1) z3.
Proof.
  destruct (fallback_interpretation_shape (λ _, "0") "DEMO-1" ["HC1"] 8000 9000
              demo_stats (demo_points 20))
    as (r & z1 & z2 & z3 & gs & ft & seal & sat & m1 & m2 & H1 & H2 & H3 & H4 & H5 & _).
  - apply Exists_cons_hd. reflexivity.
  - exists r, z1, z2, z3. split_and!; [exact H1|exact H2|].
    exists m1, m2. split_and!; [exact H3|exact H4|exact H5].
Defined.

(** ** The client and the curves of a file *)

Section client.
Import config ai_service.

Lemma is_placeholder_length key : is_placeholder key = false → 20 ≤ String.length key.
Proof.
  unfold is_placeholder. intros H. repeat apply orb_false_iff in H as [H ?].
  by apply Nat.ltb_ge.
Qed.

Lemma strip_if_idemp key :
  let k := if String.eqb key EmptyString then EmptyString else py.strip key in
  py.strip k = k.
Proof. simpl. destruct (String.eqb key EmptyString); [done|apply strip_idemp]. Qed.

(** A call of [get_ai_client] keeps the three variables in agreement. *)
Lemma get_ai_client_ok settings g : globals_ok g → globals_ok (get_ai_client settings g).1.
Proof.
  intros Hg. unfold get_ai_client. cbn [fst].
  destruct (_client g) eqn:Hc; [done|].
  destruct (is_placeholder (if String.eqb (GROQ_API_KEY settings) _ then _ else _)) eqn:Hgroq;
    cbn [negb].
  - destruct (is_placeholder (if String.eqb (OPENAI_API_KEY settings) _ then _ else _))
      eqn:Hopenai; cbn [negb]; [done|].
    unfold globals_ok. cbn. split_and!.
    + by apply is_placeholder_length.
    + apply strip_if_idemp.
    + right. done.
  - unfold globals_ok. cbn. split_and!.
    + by apply is_placeholder_length.
    + apply strip_if_idemp.
    + left. done.
Qed.

Lemma get_ai_client_keeps settings g client :
  _client g = Some client → (get_ai_client settings g).1 = g.
Proof. intros Hc. unfold get_ai_client. cbn [fst]. by rewrite Hc. Qed.

(** X22: after any series of calls of [get_ai_client], from the initial
    module variables and under any settings, the three variables agree:
    no client with the provider [NONE], or a client with a stripped key
    of at least 20 characters and the provider, model and address that go
    with it.  A client once made is returned by every later call whatever
    the settings have become; without one, a usable Groq key is taken
    before the OpenAI key, and with two placeholder keys the call makes
    no client and returns [(None, NONE, empty)]. *)
Theorem get_ai_client_state (calls : list Settings) (settings : Settings) :
  let g := after_calls calls initial_globals in
  let groq_key := py.strip (GROQ_API_KEY settings) in
  let openai_key := py.strip (OPENAI_API_KEY settings) in
  globals_ok g
  ∧ (is_Some (_client g) →
     get_ai_client settings g = (g, (_client g, _provider g, _model_name g)))
  ∧ (_client g = None → is_placeholder groq_key = false →
     (get_ai_client settings g).2
     = (Some {| api_key := groq_key;
                base_url := Some "https://api.groq.com/openai/v1" |},
        "GROQ", "llama-3.3-70b-versatile"))
  ∧ (_client g = None → is_placeholder groq_key = true →
     is_placeholder openai_key = false →
     (get_ai_client settings g).2
     = (Some {| api_key := openai_key; base_url := None |}, "OPENAI", "gpt-4o"))
  ∧ (_client g = None → is_placeholder groq_key = true →
     is_placeholder openai_key = true →
     get_ai_client settings g = (g, (None, "NONE", EmptyString))).
Proof.
  intros g groq_key openai_key.
  assert (globals_ok g) as Hg.
  { unfold g, after_calls.
    generalize initial_globals, (conj eq_refl eq_refl : globals_ok initial_globals).
    induction calls as [|s calls IH]; intros g0 Hg0; cbn [foldl]; [done|].
    apply IH. by apply get_ai_client_ok. }
  assert (∀ key, (if String.eqb key EmptyString then EmptyString else py.strip key)
                 = py.strip key) as Hkey.
  { intros key. by destruct (String.eqb_spec key EmptyString) as [->|]. }
  clearbody g. split_and!; [done|..].
  - intros [client Hc]. unfold get_ai_client.
    destruct (_client g) eqn:E; [|done]. cbv zeta. by rewrite E.
  - intros Hc Hgroq. unfold get_ai_client. rewrite Hc, !Hkey.
    fold groq_key. by rewrite Hgroq.
  - intros Hc Hgroq Hopenai. unfold get_ai_client. rewrite Hc, !Hkey.
    fold groq_key openai_key. by rewrite Hgroq, Hopenai.
  - intros Hc Hgroq Hopenai. unfold get_ai_client. rewrite Hc, !Hkey.
    fold groq_key openai_key. rewrite Hgroq, Hopenai. cbn [negb]. cbv zeta.
    unfold globals_ok in Hg. rewrite Hc in Hg. destruct Hg as [Hp Hm].
    by rewrite Hc, Hp, Hm.
Qed.

Lemma get_ai_client_state_demo :
  (ai_service.get_ai_client demo_settings ai_service.initial_globals).2
  = (Some {| ai_service.api_key := "gsk_0123456789abcdefghij";
             ai_service.base_url := Some "https://api.groq.com/openai/v1" |},
     "GROQ", "llama-3.3-70b-versatile").
Proof.
  apply (proj1 (proj2 (proj2 (get_ai_client_state [] demo_settings)))); reflexivity.
Defined.

End client.

Section parser_curves.
Import las_parser.

(** X23: the curve list of [parse_las_file] holds, in the order of the
    file, the curves whose mnemonic is not that of the first curve (the
    index; [DEPT] for a file without curves): no entry has the mnemonic
    of the index or an empty unit, and there is at least one entry fewer
    than the file has curves. *)
Theorem extract_curves_listed (las : LASFile) :
  let index := default "DEPT" (item_mnemonic <$> head (las_curves las)) in
  mnemonic <$> extract_curves las
  = filter (λ m, m ≠ index) (item_mnemonic <$> las_curves las)
  ∧ Forall (λ c, mnemonic c ≠ index ∧ unit c ≠ EmptyString) (extract_curves las)
  ∧ length (extract_curves las) ≤ length (las_curves las) - 1.
Proof.
  intros index. unfold extract_curves.
  assert (match las_curves las with c :: _ => item_mnemonic c | [] => "DEPT" end = index)
    as -> by (unfold index; by destruct (las_curves las)).
  set (f := λ curve : CurveItem, if String.eqb (item_mnemonic curve) index then None else _).
  assert (∀ curve c, f curve = Some c →
            mnemonic c = item_mnemonic curve ∧ mnemonic c ≠ index ∧ unit c ≠ EmptyString)
    as Hf.
  { intros curve c. unfold f.
    destruct (String.eqb_spec (item_mnemonic curve) index) as [|Hne]; [done|].
    intros [= <-]. cbn. split; [done|]. split; [done|].
    by destruct (String.eqb_spec (item_unit curve) EmptyString). }
  assert (∀ curve, f curve = None → item_mnemonic curve = index) as Hnone.
  { intros curve. unfold f.
    by destruct (String.eqb_spec (item_mnemonic curve) index). }
  split_and!.
  - generalize (las_curves las) as l. clearbody index. intros l.
    induction l as [|curve l IH]; [done|].
    change (omap f (curve :: l)) with (from_option (λ y, y :: omap f l) (omap f l) (f curve)).
    rewrite fmap_cons, filter_cons.
    destruct (f curve) as [c|] eqn:E; cbn [from_option].
    + destruct (Hf curve c E) as (Hm & Hne & _). rewrite <- Hm, decide_True by done.
      rewrite fmap_cons. by f_equal.
    + rewrite decide_False; [done|]. intros Hne. by apply Hne, Hnone.
  - apply Forall_forall. intros c (curve & _ & Hc)%list_elem_of_omap.
    by destruct (Hf curve c Hc) as (_ & ? & ?).
  - destruct (las_curves las) as [|curve l] eqn:Hl; [done|].
    change (omap f (curve :: l)) with (from_option (λ y, y :: omap f l) (omap f l) (f curve)).
    assert (f curve = None) as ->.
    { unfold f, index. cbn. by rewrite String.eqb_refl. }
    cbn [from_option length]. pose proof (omap_length_le f l). lia.
Qed.

End parser_curves.

(** ** The statistics of a stored file *)

Section upload_stats.
Import models data_service.

(** The data rows of the new well are the rows built from the file. *)
Lemma store_parsed_las_rows db info parsed original_filename s3_key :
  session_ok db →
  let db' := (store_parsed_las db info parsed original_filename s3_key).1 in
  filter (λ row, data_well_id row = wells_id_seq db) (db_well_data db')
  = stored_rows (wells_id_seq db) parsed.
Proof.
  intros Hok db'. unfold db'. rewrite store_parsed_las_tables. cbn [fst db_well_data].
  pose proof (deduplicated_ok db (info_well_name info) Hok) as Hok0.
  pose proof (deduplicated_seq db (info_well_name info)) as Hseq0.
  set (db0 := deduplicated db (info_well_name info)) in *.
  rewrite filter_app, filter_nil_of, filter_True; [done| |].
  - intros row (r & -> & _)%list_elem_of_fmap. done.
  - intros row Hrow Hid.
    pose proof (session_ok_fresh db0 (wells_id_seq db) Hok0) as Hfresh.
    destruct Hok0 as (_ & _ & _ & Hrows). rewrite Forall_forall in Hrows.
    specialize (Hrows row Hrow). simpl in Hrows. rewrite Hid in Hrows.
    specialize (Hfresh Hrows). lia.
Qed.

(** X24: once [store_parsed_las] has stored a file, the statistics of the
    new well without depth bounds have, for each requested curve, the
    number of rows of the file as [count] and the number of rows of the
    file with a value for the curve as [non_null_count]. *)
Theorem store_parsed_las_statistics
    (db : session) (info : well_info) (parsed : las_parser.parsed)
    (original_filename : string) (s3_key : option string) (curves_asked : list string) :
  session_ok db →
  let db' := (store_parsed_las db info parsed original_filename s3_key).1 in
  let well := (store_parsed_las db info parsed original_filename s3_key).2 in
  let stats := get_well_statistics (db_well_data db') (well_id well) curves_asked None None in
  Forall (λ curve,
            ∃ st, stats !! curve = Some st
              ∧ s_count st = length (las_parser.data_rows parsed)
              ∧ s_non_null_count st
                = length (filter (λ row, is_Some (mjoin (las_parser.values row !! curve)))
                                 (las_parser.data_rows parsed)))
         curves_asked.
Proof.
  intros Hok db' well stats. apply Forall_forall. intros curve Hcurve.
  pose proof (store_parsed_las_rows db info parsed original_filename s3_key Hok) as Hrows.
  fold db' in Hrows.
  assert (well_id well = wells_id_seq db) as Hid.
  { unfold well. by rewrite store_parsed_las_tables. }
  unfold stats, get_well_statistics.
  rewrite foldl_insert_lookup, decide_True by done.
  eexists. split; [done|].
  set (data := get_well_data _ _ _ _ _).
  assert (data = make_point curves_asked
                   <$> py.sorted (λ a b, (depth a <? depth b)%float)
                         (stored_rows (wells_id_seq db) parsed)) as Hdata.
  { unfold data, get_well_data, query_rows. by rewrite Hid, Hrows. }
  assert (length data = length (las_parser.data_rows parsed)) as Hlen.
  { rewrite Hdata, length_fmap, sorted_length. unfold stored_rows. by rewrite length_fmap. }
  assert (length (omap (λ p, point_get p curve) data)
          = length (filter (λ row, is_Some (mjoin (las_parser.values row !! curve)))
                           (las_parser.data_rows parsed))) as Hnn.
  { rewrite Hdata.
    assert (∀ rows : list WellData,
              length (omap (λ p, point_get p curve) (make_point curves_asked <$> rows))
              = length (filter (λ row, is_Some (mjoin (values row !! curve))) rows)) as Hom.
    { induction rows as [|row rows IH]; [done|].
      rewrite fmap_cons, filter_cons.
      change (omap ?f (?x :: ?l)) with (from_option (λ y, y :: omap f l) (omap f l) (f x)).
      assert (point_get (make_point curves_asked row) curve = mjoin (values row !! curve))
        as Hpg by (unfold point_get; by rewrite make_point_lookup, decide_True).
      cbn beta. rewrite Hpg.
      destruct (mjoin (values row !! curve)) eqn:E; cbn [from_option].
      - rewrite decide_True by by eexists. cbn [length]. by rewrite IH.
      - rewrite decide_False by by intros [? ?]. done. }
    rewrite Hom.
    rewrite (Permutation_length (filter_Permutation _ _ _ (sorted_perm _ _))).
    unfold stored_rows. clear. induction (las_parser.data_rows parsed) as [|r l IH]; [done|].
    rewrite fmap_cons, !filter_cons. cbn [values]. case_decide; cbn [length]; by rewrite IH. }
  unfold curve_statistics.
  destruct (omap (λ p, point_get p curve) data) as [|v vs] eqn:E; cbn [s_count s_non_null_count].
  - split; [done|]. by rewrite <- Hnn.
  - split; [done|]. by rewrite <- Hnn.
Qed.

Lemma store_parsed_las_statistics_demo :
  let db' := (store_parsed_las demo_session demo_info demo_parsed "demo.las" None).1 in
  ∃ st, get_well_statistics (db_well_data db') 2 ["HC1"] None None !! "HC1" = Some st
    ∧ s_count st = 2 ∧ s_non_null_count st = 1.
Proof.
  pose proof (store_parsed_las_statistics demo_session demo_info demo_parsed "demo.las"
                None ["HC1"] demo_session_ok) as H.
  apply Forall_inv in H. destruct H as (st & H1 & H2 & H3).
  exists st. split_and!; [exact H1|exact H2|exact H3].
Defined.

End upload_stats.

(** ** Cleaning the text of an answer *)

Section runs.

(** [+:+] and the longest run of a class of characters. *)
Lemma append_nil_r s : s +:+ EmptyString = s.
Proof. induction s as [|c s IH]; [done|]. change (String c s +:+ "") with (String c (s +:+ "")). by rewrite IH. Qed.

Lemma append_assoc s t u : (s +:+ t) +:+ u = s +:+ (t +:+ u).
Proof.
  induction s as [|c s IH]; [done|].
  change (String c s +:+ t) with (String c (s +:+ t)).
  change (String c (s +:+ t) +:+ u) with (String c ((s +:+ t) +:+ u)).
  change (String c s +:+ (t +:+ u)) with (String c (s +:+ (t +:+ u))).
  by rewrite IH.
Qed.

Lemma append_cons c s t : String c s +:+ t = String c (s +:+ t).
Proof. done. Qed.

Lemma all_chars_append p s t : all_chars p (s +:+ t) = all_chars p s && all_chars p t.
Proof.
  induction s as [|c s IH]; [done|]. rewrite append_cons. cbn [all_chars].
  by rewrite IH, andb_assoc.
Qed.

Lemma max_run_ge p cur s : cur ≤ max_run p cur s.
Proof.
  revert cur. induction s as [|c s IH]; intros cur; cbn [max_run]; [done|].
  destruct (p c); [|lia]. specialize (IH (S cur)). lia.
Qed.

(** Through a run of the class. *)
Lemma max_run_run p cur run t :
  all_chars p run = true →
  max_run p cur (run +:+ t) = max_run p (cur + String.length run) t.
Proof.
  revert cur. induction run as [|c run IH]; intros cur Hrun.
  - cbn. by rewrite Nat.add_0_r.
  - cbn [all_chars] in Hrun. apply andb_true_iff in Hrun as [Hc Hrun].
    rewrite append_cons. cbn [max_run String.length]. rewrite Hc, IH by done.
    f_equal. lia.
Qed.

(** Through a string without characters of the class. *)
Lemma max_run_other q cur x t :
  all_chars (λ c, negb (q c)) x = true →
  max_run q cur (x +:+ t)
  = Nat.max cur (max_run q (if String.eqb x EmptyString then cur else 0) t).
Proof.
  intros Hx. destruct x as [|c x]; cbn [String.eqb].
  { change (EmptyString +:+ t) with t. pose proof (max_run_ge q cur t). lia. }
  cbn [all_chars] in Hx. apply andb_true_iff in Hx as [Hc Hx].
  apply negb_true_iff in Hc. rewrite append_cons. cbn [max_run]. rewrite Hc. f_equal.
  clear c Hc. induction x as [|c x IH]; [done|].
  cbn [all_chars] in Hx. apply andb_true_iff in Hx as [Hc Hx].
  apply negb_true_iff in Hc. rewrite append_cons. cbn [max_run]. rewrite Hc.
  rewrite IH by done. pose proof (max_run_ge q 0 t). lia.
Qed.

Lemma max_run_run_end p cur run :
  all_chars p run = true → max_run p cur run = cur + String.length run.
Proof.
  intros Hrun. rewrite <- (append_nil_r run) at 1. by rewrite max_run_run.
Qed.

Lemma max_run_other_end q cur x :
  all_chars (λ c, negb (q c)) x = true → max_run q cur x = cur.
Proof.
  intros Hx. rewrite <- (append_nil_r x). rewrite max_run_other by done.
  cbn [max_run]. destruct (String.eqb x EmptyString); lia.
Qed.

(** After [sub_runs] with a replacement shorter than [n], no run of the
    class has [n] characters. *)
Lemma sub_runs_bound p n repl pending s :
  all_chars p pending = true → all_chars p repl = true → String.length repl < n →
  max_run p 0 (py.sub_runs p n repl pending s) ≤ n - 1.
Proof.
  intros Hpending Hrepl Hn. revert pending Hpending.
  assert (∀ pending, all_chars p pending = true →
            all_chars p (if (n <=? String.length pending)%nat then repl else pending) = true
            ∧ String.length (if (n <=? String.length pending)%nat then repl else pending)
              ≤ n - 1) as Hflush.
  { intros pending Hp. destruct (Nat.leb_spec n (String.length pending)); split; try done; lia. }
  induction s as [|c s IH]; intros pending Hpending; cbn [py.sub_runs].
  - destruct (Hflush pending Hpending) as [Ha Hl].
    rewrite max_run_run_end by done. lia.
  - destruct (p c) eqn:Hc.
    + apply IH. rewrite all_chars_append, Hpending. cbn. by rewrite Hc.
    + destruct (Hflush pending Hpending) as [Ha Hl].
      rewrite max_run_run by done. cbn [max_run]. rewrite Hc.
      specialize (IH EmptyString eq_refl). lia.
Qed.

(** [sub_runs] over a class disjoint from [q], with a replacement that is
    not empty and holds no character of [q], does not lengthen the runs
    of [q]. *)
Lemma sub_runs_keeps p q n repl pending s cur :
  (∀ c, p c = true → q c = false) →
  all_chars (λ c, negb (q c)) repl = true → repl ≠ EmptyString → 0 < n →
  all_chars p pending = true →
  max_run q cur (py.sub_runs p n repl pending s) ≤ max_run q cur (pending +:+ s).
Proof.
  intros Hpq Hrepl Hne Hn. revert pending cur.
  assert (∀ x, all_chars p x = true → all_chars (λ c, negb (q c)) x = true) as Hp.
  { induction x as [|c x IH]; [done|]. cbn [all_chars].
    intros [Hc Hx]%andb_true_iff. by rewrite (Hpq c Hc), IH. }
  assert (∀ pending, all_chars p pending = true →
            let flush := if (n <=? String.length pending)%nat then repl else pending in
            all_chars (λ c, negb (q c)) flush = true
            ∧ String.eqb flush EmptyString = String.eqb pending EmptyString) as Hflush.
  { intros pending Hpending. cbv zeta.
    destruct (Nat.leb_spec n (String.length pending)) as [Hle|Hlt].
    - split; [done|]. destruct pending; [simpl in Hle; lia|].
      cbn [String.eqb]. by destruct repl.
    - split; [by apply Hp|done]. }
  induction s as [|c s IH]; intros pending cur Hpending; cbn [py.sub_runs].
  - destruct (Hflush pending Hpending) as [Ha He].
    rewrite append_nil_r, !max_run_other_end by auto. done.
  - destruct (p c) eqn:Hc.
    + etrans; [apply IH|].
      * rewrite all_chars_append, Hpending. cbn. by rewrite Hc.
      * by rewrite append_assoc.
    + destruct (Hflush pending Hpending) as [Ha He].
      rewrite !max_run_other by auto. rewrite He.
      set (k := if String.eqb pending EmptyString then cur else 0).
      cbn [max_run]. destruct (q c).
      * pose proof (IH EmptyString (S k) eq_refl) as H.
        change (EmptyString +:+ s) with s in H. lia.
      * pose proof (IH EmptyString 0 eq_refl) as H.
        change (EmptyString +:+ s) with s in H. lia.
Qed.

End runs.

Section stripped.

(** A string has nothing to strip at its end exactly when its last
    character, if it has one, is not white space. *)
Lemma rstrip_last_ok s : py.rstrip s = s ↔ last_ok s = true.
Proof.
  induction s as [|c s IH]; [done|]. cbn [py.rstrip last_ok].
  destruct s as [|d s].
  - cbn [py.rstrip]. destruct (py.is_space c); split; done.
  - destruct (py.rstrip (String d s)) as [|e r] eqn:E.
    + split.
      * destruct (py.is_space c); discriminate.
      * intros H. apply IH in H. discriminate.
    + rewrite <- IH. split; [by intros [= -> ->]|intros H; congruence].
Qed.

Lemma last_ok_append x c t : last_ok (x +:+ String c t) = last_ok (String c t).
Proof.
  induction x as [|d x IH]; [done|]. rewrite append_cons.
  cbn [last_ok]. destruct x; [done|]. rewrite append_cons in *. apply IH.
Qed.

Lemma last_ok_spaces p x :
  (∀ c, p c = true → py.is_space c = true) →
  all_chars p x = true → last_ok x = true → x = EmptyString.
Proof.
  intros Hp. induction x as [|c x IH]; [done|]. cbn [all_chars last_ok].
  intros [Hc Hx]%andb_true_iff. destruct x as [|d x].
  - by rewrite (Hp c Hc).
  - intros H. by specialize (IH Hx H).
Qed.

Lemma sub_runs_nonempty p n repl pending s :
  repl ≠ EmptyString → pending +:+ s ≠ EmptyString →
  py.sub_runs p n repl pending s ≠ EmptyString.
Proof.
  intros Hrepl. revert pending. induction s as [|c s IH]; intros pending Hne; cbn [py.sub_runs].
  - rewrite append_nil_r in Hne. by destruct (_ <=? _)%nat.
  - destruct (p c).
    + apply IH. rewrite append_assoc. by destruct pending.
    + by destruct (if (_ <=? _)%nat then _ else _).
Qed.

Lemma sub_runs_last p n repl pending s :
  (∀ c, p c = true → py.is_space c = true) → 0 < n → repl ≠ EmptyString →
  all_chars p pending = true →
  last_ok (pending +:+ s) = true → last_ok (py.sub_runs p n repl pending s) = true.
Proof.
  intros Hp Hn Hrepl. revert pending.
  induction s as [|c s IH]; intros pending Hpending Hlast; cbn [py.sub_runs].
  - rewrite append_nil_r in Hlast.
    rewrite (last_ok_spaces p pending Hp Hpending Hlast).
    by destruct (Nat.leb_spec n (String.length EmptyString)) as [H|_]; [simpl in H; lia|].
  - destruct (p c) eqn:Hc.
    + apply IH.
      * rewrite all_chars_append, Hpending. cbn. by rewrite Hc.
      * by rewrite append_assoc.
    + rewrite last_ok_append in *. cbn [last_ok] in *.
      destruct s as [|d s].
      * cbn [py.sub_runs].
        by destruct (Nat.leb_spec n (String.length EmptyString)) as [H|_]; [simpl in H; lia|].
      * pose proof (sub_runs_nonempty p n repl EmptyString (String d s) Hrepl) as Hne.
        destruct (py.sub_runs p n repl EmptyString (String d s)) as [|e r] eqn:E; [by destruct Hne|].
        rewrite <- E. by apply IH.
Qed.

(** [sub_runs] over a class of white space, with a replacement that is not
    empty, keeps a stripped string stripped. *)
Lemma sub_runs_stripped p n repl s :
  (∀ c, p c = true → py.is_space c = true) → 0 < n → repl ≠ EmptyString →
  py.strip s = s → py.strip (py.sub_runs p n repl EmptyString s) = py.sub_runs p n repl EmptyString s.
Proof.
  intros Hp Hn Hrepl Hs.
  assert (last_ok s = true) as Hlast.
  { apply rstrip_last_ok. rewrite <- Hs. unfold py.strip. apply rstrip_idemp. }
  assert (last_ok (py.sub_runs p n repl EmptyString s) = true) as Hout
    by by apply sub_runs_last.
  destruct s as [|c s].
  { cbn [py.sub_runs]. by destruct (Nat.leb_spec n (String.length EmptyString)) as [H|_]; [simpl in H; lia|]. }
  assert (py.is_space c = false) as Hc.
  { destruct (py.is_space c) eqn:Hc; [|done]. exfalso.
    unfold py.strip in Hs. cbn [py.lstrip] in Hs. rewrite Hc in Hs.
    apply (f_equal String.length) in Hs.
    assert (∀ t, String.length (py.lstrip t) ≤ String.length t) as Hl.
    { induction t as [|d t IHt]; [done|]. cbn [py.lstrip]. destruct (py.is_space d); simpl in *; lia. }
    assert (∀ t, String.length (py.rstrip t) ≤ String.length t) as Hr.
    { induction t as [|d t IHt]; [done|]. cbn [py.rstrip].
      destruct (py.rstrip t); [destruct (py.is_space d)|]; simpl in *; lia. }
    pose proof (Hl s). pose proof (Hr (py.lstrip s)). simpl in Hs. lia. }
  assert (p c = false) as Hpc.
  { destruct (p c) eqn:E; [|done]. by rewrite (Hp c E) in Hc. }
  revert Hout. cbn [py.sub_runs]. rewrite Hpc.
  destruct (Nat.leb_spec n (String.length EmptyString)) as [H|_]; [simpl in H; lia|].
  change (EmptyString +:+ ?t) with t. intros Hout.
  unfold py.strip. cbn [py.lstrip]. rewrite Hc. by apply rstrip_last_ok.
Qed.

End stripped.


Section clean_chat_text.
Import ai_service.

(** X25: the text that [_clean_chat_text] returns has no more than two
    line feeds in a row and no two blanks or tabs in a row, and nothing
    that [strip] would remove at either end; for [None] and for the empty
    text it is [No response was generated.]. *)
Theorem clean_chat_text_runs (text : option string) :
  max_run is_newline 0 (_clean_chat_text text) ≤ 2
  ∧ max_run is_blank 0 (_clean_chat_text text) ≤ 1
  ∧ py.strip (_clean_chat_text text) = _clean_chat_text text
  ∧ _clean_chat_text None = "No response was generated."
  ∧ _clean_chat_text (Some EmptyString) = "No response was generated.".
Proof.
  split_and!; [| | |done|done].
  - destruct text as [[|c text]|]; [vm_compute; lia| |vm_compute; lia].
    unfold _clean_chat_text.
    etrans.
    { apply (sub_runs_keeps is_blank is_newline 2 " " EmptyString _ 0);
        [|done|done|lia|done].
      by intros c' [->%Ascii.eqb_eq| ->%Ascii.eqb_eq]%orb_true_iff. }
    change (EmptyString +:+ ?s) with s.
    apply (sub_runs_bound is_newline 3); [done|done|simpl; lia].
  - destruct text as [[|c text]|]; [vm_compute; lia| |vm_compute; lia].
    unfold _clean_chat_text. apply (sub_runs_bound is_blank 2); [done|done|simpl; lia].
  - destruct text as [[|c text]|]; [by vm_compute| |by vm_compute].
    unfold _clean_chat_text.
    apply sub_runs_stripped; [|lia|done|].
    { by intros c' [->%Ascii.eqb_eq| ->%Ascii.eqb_eq]%orb_true_iff. }
    apply sub_runs_stripped; [|lia|done|apply strip_idemp].
    by intros c' ->%Ascii.eqb_eq.
Qed.

End clean_chat_text.
